(** * The Data Transfer Unit of src/mem/dtu/dtu.cc

    A shallow embedding of [Dtu] (command decoding, command dispatch, the
    transmit and receive pipelines and the ring-buffer bookkeeping), and the
    properties of the specification stated over it.

    Conventions.
    - [reg_t], [Addr], [Tick] and [Cycles] are 64-bit unsigned words,
      [unsigned] is a 32-bit unsigned word and [int] a 32-bit signed one;
      they are integers of [Z] with the wrap-around written out.
    - [assert] (taken as compiled in) and [panic] end the run: a call
      returns either a failure and the state at the point of failure, or a
      value and the new state.
    - What the unit hands to its collaborators (scratchpad, network, event
      queue, local core) is appended to the list [issued] of the state. *)

From Stdlib Require Import ZArith List Bool Lia.
Import ListNotations.
Local Open Scope Z_scope.

(** ** Machine words *)

Definition wrap64 (x : Z) : Z := x mod 2 ^ 64.
Definition wrap32 (x : Z) : Z := x mod 2 ^ 32.
Definition wrap16 (x : Z) : Z := x mod 2 ^ 16.
Definition wrap8 (x : Z) : Z := x mod 2 ^ 8.

(** Conversion to [int]. *)
Definition sint32 (x : Z) : Z := (x + 2 ^ 31) mod 2 ^ 32 - 2 ^ 31.

(** [a << n] on [int] operands. *)
Definition int_shl (a n : Z) : Z := sint32 (Z.shiftl a n).

(** ** Packets and their sender states *)

Inductive MemCmd := ReadReq | ReadResp | WriteReq | WriteResp.

(** [SpmSenderState] and [NocSenderState], the two tags pushed on packets. *)
Inductive SenderState :=
| SpmSenderState (epId : Z) (isLocalRequest isForwardedRequest : bool)
| NocSenderState (isMessage isMemoryRequest : bool).

Record Packet := mkPacket {
  addr : Z;
  size : Z;
  cmd : MemCmd;
  data : list Z;
  headerDelay : Z;
  payloadDelay : Z;
  senderState : list SenderState;
  isError : bool;
  reqMasterId : Z
}.

Definition isRead (pkt : Packet) : bool :=
  match cmd pkt with ReadReq | ReadResp => true | _ => false end.
Definition isWrite (pkt : Packet) : bool :=
  match cmd pkt with WriteReq | WriteResp => true | _ => false end.
Definition isResponse (pkt : Packet) : bool :=
  match cmd pkt with ReadResp | WriteResp => true | _ => false end.
Definition hasData (pkt : Packet) : bool :=
  match cmd pkt with WriteReq | ReadResp => true | _ => false end.

Definition setAddr (pkt : Packet) (a : Z) : Packet :=
  mkPacket a (size pkt) (cmd pkt) (data pkt) (headerDelay pkt)
           (payloadDelay pkt) (senderState pkt) (isError pkt) (reqMasterId pkt).
Definition setData (pkt : Packet) (d : list Z) : Packet :=
  mkPacket (addr pkt) (size pkt) (cmd pkt) d (headerDelay pkt)
           (payloadDelay pkt) (senderState pkt) (isError pkt) (reqMasterId pkt).
Definition setHeaderDelay (pkt : Packet) (t : Z) : Packet :=
  mkPacket (addr pkt) (size pkt) (cmd pkt) (data pkt) t
           (payloadDelay pkt) (senderState pkt) (isError pkt) (reqMasterId pkt).
Definition setPayloadDelay (pkt : Packet) (t : Z) : Packet :=
  mkPacket (addr pkt) (size pkt) (cmd pkt) (data pkt) (headerDelay pkt)
           t (senderState pkt) (isError pkt) (reqMasterId pkt).
Definition setSenderState (pkt : Packet) (st : list SenderState) : Packet :=
  mkPacket (addr pkt) (size pkt) (cmd pkt) (data pkt) (headerDelay pkt)
           (payloadDelay pkt) st (isError pkt) (reqMasterId pkt).

Definition pushSenderState (pkt : Packet) (t : SenderState) : Packet :=
  setSenderState pkt (t :: senderState pkt).

(** ** The register file *)

(** Modelled from the spec: the keys of the register store, [DtuReg] and
    [EpReg] (declared in the register file's header, not part of src/);
    they are the registers dtu.cc names. *)
Inductive DtuReg := COMMAND | STATUS.

Inductive EpReg :=
| MODE | MESSAGE_ADDR | MESSAGE_SIZE | TARGET_COREID | TARGET_EPID
| BUFFER_ADDR | BUFFER_SIZE | BUFFER_READ_PTR | BUFFER_WRITE_PTR
| BUFFER_MESSAGE_COUNT.

Definition DtuReg_eqb (a b : DtuReg) : bool :=
  match a, b with COMMAND, COMMAND | STATUS, STATUS => true | _, _ => false end.

Definition EpReg_index (r : EpReg) : Z :=
  match r with
  | MODE => 0 | MESSAGE_ADDR => 1 | MESSAGE_SIZE => 2 | TARGET_COREID => 3
  | TARGET_EPID => 4 | BUFFER_ADDR => 5 | BUFFER_SIZE => 6
  | BUFFER_READ_PTR => 7 | BUFFER_WRITE_PTR => 8 | BUFFER_MESSAGE_COUNT => 9
  end.

Definition EpReg_eqb (a b : EpReg) : bool := EpReg_index a =? EpReg_index b.

(** Modelled from the spec: the register store [RegFile] (its source is not
    part of src/): one word per unit register and per endpoint register,
    read and written by key.  A read gives the stored word reduced to 64
    bits, a write stores the value converted to [reg_t]. *)
Module RegFile.

Record t := mk { dtuRegs : DtuReg -> Z; epRegs : Z -> EpReg -> Z }.

Definition readDtuReg (rf : t) (r : DtuReg) : Z := wrap64 (dtuRegs rf r).

Definition readEpReg (rf : t) (epId : Z) (r : EpReg) : Z :=
  wrap64 (epRegs rf epId r).

Definition setDtuReg (rf : t) (r : DtuReg) (v : Z) : t :=
  mk (fun r' => if DtuReg_eqb r' r then wrap64 v else dtuRegs rf r')
     (epRegs rf).

Definition setEpReg (rf : t) (epId : Z) (r : EpReg) (v : Z) : t :=
  mk (dtuRegs rf)
     (fun e' r' =>
        if (e' =? epId) && EpReg_eqb r' r then wrap64 v else epRegs rf e' r').

End RegFile.

(** ** Configuration and collaborators *)

(** The members of [Dtu] and [BaseDtu] fixed at construction.
    [numCmdOpcodeBits] is a constant of dtu.hh, [coreId], [cpuBaseAddr] and
    [nocEpAddrBits] are members of [BaseDtu]; neither header is part of
    src/, so their values are parameters here. *)
Record DtuParams := mkParams {
  atomicMode : bool;
  numEndpoints : Z;
  masterId : Z;
  maxMessageSize : Z;
  numCmdOpcodeBits : Z;
  numCmdEpidBits : Z;
  numCmdOffsetBits : Z;
  registerAccessLatency : Z;
  commandToSpmRequestLatency : Z;
  spmResponseToNocRequestLatency : Z;
  nocRequestToSpmRequestLatency : Z;
  spmResponseToNocResponseLatency : Z;
  coreId : Z;
  cpuBaseAddr : Z;
  nocEpAddrBits : Z
}.

(** What the unit calls outside of dtu.cc and that answers at once:
    the clock ([ticksToCycles]), the network address of an endpoint
    ([getNocAddr]), the scratchpad and the network answering an atomic
    request in place ([spmAccess], [nocAccess]), and the register file
    applying a memory access of the local core ([regFileHandleRequest],
    which reports whether the command register was written). *)
Record Collaborators := mkCollaborators {
  ticksToCycles : Z -> Z;
  getNocAddr : Z -> Z -> Z;
  spmAccess : Packet -> Packet;
  nocAccess : Packet -> Packet;
  regFileHandleRequest : RegFile.t -> Packet -> RegFile.t * Packet * bool
}.

(** ** Commands *)

(** Modelled from the spec: the enumerators of [CommandOpcode] and [EpMode]
    (declared in headers that are not part of src/), numbered in the order
    the specification lists them. *)
Definition IDLE : Z := 0.
Definition START_OPERATION : Z := 1.
Definition INC_READ_PTR : Z := 2.

Definition RECEIVE_MESSAGE : Z := 0.
Definition TRANSMIT_MESSAGE : Z := 1.

(** Modelled from the spec: [EpMode] is declared in a header that is not
    part of src/; its values are taken to be [int]s, the default base of
    an enumeration, so that [static_cast<EpMode>] of a register value
    keeps its low 32 bits, read as a signed number. *)
Definition toEpMode (v : Z) : Z := sint32 v.

(** Modelled from the spec: [Dtu::Command] (declared in dtu.hh, not part of
    src/), the triple of opcode, endpoint id and offset; the two numeric
    fields are [unsigned], as the callers of [getCommand] take them. *)
Record Command := mkCommand { opcode : Z; epId : Z; offset : Z }.

(** [sizeof(MessageHeader)]: two bytes and a 16-bit length. *)
Definition sizeofMessageHeader : Z := 4.

(** The bytes of a [MessageHeader] as [memcpy] lays them out
    (little-endian length). *)
Definition messageHeaderBytes (coreId epId length : Z) : list Z :=
  [wrap8 coreId; wrap8 epId; wrap8 (wrap16 length); wrap16 length / 256].

Section Decoder.

Variable p : DtuParams.

Definition opcodeMask : Z :=
  wrap64 (sint32 (int_shl 1 (numCmdOpcodeBits p) - 1)).

Definition epidMask : Z :=
  wrap64 (int_shl (sint32 (int_shl 1 (numCmdEpidBits p) - 1))
                  (numCmdOpcodeBits p)).

Definition offsetMask : Z :=
  wrap64 (int_shl (sint32 (int_shl 1 (numCmdOffsetBits p) - 1))
                  (wrap32 (numCmdOpcodeBits p + numCmdEpidBits p))).

(** [Dtu::getCommand]. *)
Definition getCommand (rf : RegFile.t) : Command :=
  let reg := RegFile.readDtuReg rf COMMAND in
  mkCommand
    (Z.land reg opcodeMask)
    (wrap32 (Z.shiftr (Z.land reg epidMask) (numCmdEpidBits p)))
    (wrap32 (Z.shiftr (Z.land reg offsetMask)
                      (wrap32 (numCmdEpidBits p + numCmdOpcodeBits p)))).

(** The control register layout in the words of the specification:
    low to high, [opcode] on [numCmdOpcodeBits] bits, then [epId] on
    [numCmdEpidBits] bits, then [offset]. *)
Definition encodeCommand (c : Command) : Z :=
  opcode c
  + epId c * 2 ^ numCmdOpcodeBits p
  + offset c * 2 ^ (numCmdOpcodeBits p + numCmdEpidBits p).

End Decoder.

(** ** State, failures and effects *)

Inductive Event :=
| ExecuteCommandEvent
| FinishMessageTransmissionEvent
| IncrementWritePtrEvent.

(** What the unit asks of its collaborators.  A request scheduled for
    [clockEdge(d)] records the number of cycles [d]. *)
Inductive Action :=
| SendAtomicSpmRequest (pkt : Packet)
| SchedSpmRequest (pkt : Packet) (cycles : Z)
| SendAtomicNocRequest (pkt : Packet)
| SchedNocRequest (pkt : Packet) (cycles : Z)
| SchedNocResponse (pkt : Packet) (cycles : Z)
| SchedCpuResponse (pkt : Packet) (cycles : Z)
| Schedule (ev : Event) (cycles : Z).

(** The conditions under which the code stops ([assert], [panic]), with the
    names of the specification's taxonomy where it has one. *)
Inductive Failure :=
| ConfigError            (* generateRequest: command fields wider than reg_t *)
| EndpointOutOfRange     (* executeCommand: assert(cmd.epId < numEndpoints) *)
| InvalidOpcode          (* executeCommand: panic("Invalid opcode") *)
| InvalidEndpointMode    (* startOperation: endpoint configured to receive *)
| InvalidMode            (* startOperation: panic("Invalid mode") *)
| EmptyMessage           (* assert(messageSize > 0) *)
| MessageTooLarge        (* assert(messageSize + sizeof(MessageHeader) < max) *)
| BufferUnderflow        (* incrementReadPtr: assert(messageCount != 0) *)
| ProducerOverflow       (* incrementWritePtr: assert(messageCount < bufferSize) *)
| BufferOverflow         (* recvNocMessage: panic("Buffer full!") *)
| Unsupported            (* recvNocMemoryRequest *)
| PacketError            (* assert(!pkt->isError()) *)
| NotAResponse           (* assert(pkt->isResponse()) *)
| NotARead               (* assert(pkt->isRead()) *)
| NotAWrite              (* assert(pkt->isWrite()) *)
| NoData                 (* assert(pkt->hasData()) *)
| SizeMismatch           (* assert(pkt->getSize() == messageSize) *)
| NoSenderState          (* popSenderState on no tag, or a tag of the other class *)
| TagNotExclusive.       (* the two asserts on the flags of a tag *)

Record Dtu := mkDtu {
  regFile : RegFile.t;
  incrementWritePtrEvent_epId : Z;
  issued : list Action
}.

Definition M (A : Type) : Type := Dtu -> (Failure + A) * Dtu.

Definition ret {A} (a : A) : M A := fun s => (inr a, s).

Definition bind {A B} (m : M A) (f : A -> M B) : M B :=
  fun s => match m s with
           | (inl e, s') => (inl e, s')
           | (inr a, s') => f a s'
           end.

Definition fail {A} (e : Failure) : M A := fun s => (inl e, s).

Definition assert (b : bool) (e : Failure) : M unit :=
  if b then ret tt else fail e.

Definition gets {A} (f : Dtu -> A) : M A := fun s => (inr (f s), s).

Definition modify (f : Dtu -> Dtu) : M unit := fun s => (inr tt, f s).

Declare Scope dtu_scope.
Delimit Scope dtu_scope with dtu.
Notation "x <- m ;; k" := (bind m (fun x => k))
  (at level 61, m at next level, right associativity) : dtu_scope.
Notation "m ;; k" := (bind m (fun _ => k))
  (at level 61, right associativity) : dtu_scope.
Notation "' pat <- m ;; k" := (bind m (fun x => match x with pat => k end))
  (at level 61, pat pattern, m at next level, right associativity) : dtu_scope.
Local Open Scope dtu_scope.

Definition readEpReg (epId : Z) (r : EpReg) : M Z :=
  gets (fun s => RegFile.readEpReg (regFile s) epId r).

Definition setDtuReg (r : DtuReg) (v : Z) : M unit :=
  modify (fun s => mkDtu (RegFile.setDtuReg (regFile s) r v)
                         (incrementWritePtrEvent_epId s) (issued s)).

Definition setEpReg (epId : Z) (r : EpReg) (v : Z) : M unit :=
  modify (fun s => mkDtu (RegFile.setEpReg (regFile s) epId r v)
                         (incrementWritePtrEvent_epId s) (issued s)).

Definition issue (a : Action) : M unit :=
  modify (fun s => mkDtu (regFile s) (incrementWritePtrEvent_epId s)
                         (issued s ++ [a])).

(** [Packet::popSenderState] followed by the [dynamic_cast] of the callers. *)
Definition popSpmSenderState (pkt : Packet) : M (Packet * (Z * bool * bool)) :=
  match senderState pkt with
  | SpmSenderState e l f :: rest => ret (setSenderState pkt rest, (e, l, f))
  | _ => fail NoSenderState
  end.

Definition popNocSenderState (pkt : Packet) : M (Packet * (bool * bool)) :=
  match senderState pkt with
  | NocSenderState m r :: rest => ret (setSenderState pkt rest, (m, r))
  | _ => fail NoSenderState
  end.

(** ** The unit *)

Section DtuModel.

Variable p : DtuParams.
Variable env : Collaborators.

(** The transport of [BaseDtu]. *)
Definition sendAtomicSpmRequest (pkt : Packet) : M Packet :=
  issue (SendAtomicSpmRequest pkt) ;; ret (spmAccess env pkt).

Definition sendAtomicNocRequest (pkt : Packet) : M Packet :=
  issue (SendAtomicNocRequest pkt) ;; ret (nocAccess env pkt).

Definition schedSpmRequest (pkt : Packet) (cycles : Z) : M unit :=
  issue (SchedSpmRequest pkt cycles).

Definition schedNocRequest (pkt : Packet) (cycles : Z) : M unit :=
  issue (SchedNocRequest pkt cycles).

Definition schedNocResponse (pkt : Packet) (cycles : Z) : M unit :=
  issue (SchedNocResponse pkt cycles).

Definition schedCpuResponse (pkt : Packet) (cycles : Z) : M unit :=
  issue (SchedCpuResponse pkt cycles).

Definition schedule (ev : Event) (cycles : Z) : M unit :=
  issue (Schedule ev cycles).

(** [Dtu::generateRequest].  The size of a request is an [unsigned]; the
    fresh data buffer is [size] bytes long and its bytes, undetermined in
    the code, are zero here. *)
Definition generateRequest (paddr sz : Z) (c : MemCmd) : M Packet :=
  assert (wrap32 (numCmdEpidBits p + numCmdOffsetBits p + numCmdOpcodeBits p)
            <=? 64) ConfigError ;;
  ret (mkPacket paddr (wrap32 sz) c (repeat 0 (Z.to_nat sz)) 0 0 []
                false (masterId p)).

(** [Dtu::finishMessageTransmission]. *)
Definition finishMessageTransmission : M unit :=
  setDtuReg COMMAND 0 ;;
  setDtuReg STATUS 0.

(** [Dtu::incrementReadPtr]. *)
Definition incrementReadPtr (epId : Z) : M unit :=
  readPtr <- readEpReg epId BUFFER_READ_PTR ;;
  bufferAddr <- readEpReg epId BUFFER_ADDR ;;
  bufferSize <- readEpReg epId BUFFER_SIZE ;;
  messageCount <- readEpReg epId BUFFER_MESSAGE_COUNT ;;
  assert (negb (messageCount =? 0)) BufferUnderflow ;;
  let readPtr := wrap64 (readPtr + maxMessageSize p) in
  let readPtr :=
    if wrap64 (bufferAddr + wrap64 (bufferSize * maxMessageSize p)) <=? readPtr
    then bufferAddr else readPtr in
  setEpReg epId BUFFER_READ_PTR readPtr ;;
  setEpReg epId BUFFER_MESSAGE_COUNT (messageCount - 1).

(** [Dtu::incrementWritePtr]. *)
Definition incrementWritePtr (epId : Z) : M unit :=
  writePtr <- readEpReg epId BUFFER_WRITE_PTR ;;
  bufferAddr <- readEpReg epId BUFFER_ADDR ;;
  bufferSize <- readEpReg epId BUFFER_SIZE ;;
  messageCount <- readEpReg epId BUFFER_MESSAGE_COUNT ;;
  assert (messageCount <? bufferSize) ProducerOverflow ;;
  let writePtr := wrap64 (writePtr + maxMessageSize p) in
  let writePtr :=
    if wrap64 (bufferAddr + wrap64 (bufferSize * maxMessageSize p)) <=? writePtr
    then bufferAddr else writePtr in
  setEpReg epId BUFFER_WRITE_PTR writePtr ;;
  setEpReg epId BUFFER_MESSAGE_COUNT (messageCount + 1).

(** [Dtu::completeNocRequest]. *)
Definition completeNocRequest (pkt : Packet) : M unit :=
  let delay := ticksToCycles env (wrap64 (headerDelay pkt + payloadDelay pkt)) in
  schedule FinishMessageTransmissionEvent delay.

(** [Dtu::completeLocalSpmRequest]. *)
Definition completeLocalSpmRequest (pkt : Packet) : M unit :=
  assert (isRead pkt) NotARead ;;
  epid <- gets (fun s => epId (getCommand p (regFile s))) ;;
  targetCoreId <- readEpReg epid TARGET_COREID ;;
  targetEpId <- readEpReg epid TARGET_EPID ;;
  messageSize <- readEpReg epid MESSAGE_SIZE ;;
  let targetCoreId := wrap32 targetCoreId in
  let targetEpId := wrap32 targetEpId in
  let messageSize := wrap32 messageSize in
  assert (size pkt =? messageSize) SizeMismatch ;;
  let header := messageHeaderBytes (coreId p) epid messageSize in
  nocPkt <- generateRequest (getNocAddr env targetCoreId targetEpId)
                            (wrap64 (messageSize + sizeofMessageHeader))
                            WriteReq ;;
  let nocPkt :=
    setData nocPkt
      (header ++ firstn (Z.to_nat messageSize) (data pkt)
         ++ skipn (Z.to_nat (sizeofMessageHeader + messageSize)) (data nocPkt)) in
  let pktHeaderDelay := headerDelay pkt in
  let nocPkt := setPayloadDelay nocPkt (payloadDelay pkt) in
  let nocPkt := pushSenderState nocPkt (NocSenderState true false) in
  if atomicMode p then
    nocPkt' <- sendAtomicNocRequest nocPkt ;;
    completeNocRequest nocPkt'
  else
    let delay := wrap64 (spmResponseToNocRequestLatency p
                         + ticksToCycles env pktHeaderDelay) in
    schedNocRequest nocPkt delay.

(** [Dtu::completeForwardedSpmRequest]. *)
Definition completeForwardedSpmRequest (pkt : Packet) (epId : Z) : M unit :=
  assert (isWrite pkt) NotAWrite ;;
  if atomicMode p then
    incrementWritePtr epId
  else
    let delay :=
      wrap64 (ticksToCycles env (wrap64 (headerDelay pkt + payloadDelay pkt))
              + spmResponseToNocResponseLatency p) in
    let pkt := setPayloadDelay (setHeaderDelay pkt 0) 0 in
    modify (fun s => mkDtu (regFile s) epId (issued s)) ;;
    schedule IncrementWritePtrEvent delay ;;
    schedNocResponse pkt delay.

(** [Dtu::completeSpmRequest]. *)
Definition completeSpmRequest (pkt : Packet) : M unit :=
  assert (negb (isError pkt)) PacketError ;;
  assert (isResponse pkt) NotAResponse ;;
  '(pkt, (epId, isLocalRequest, isForwardedRequest)) <- popSpmSenderState pkt ;;
  assert (isLocalRequest || isForwardedRequest) TagNotExclusive ;;
  assert (negb (isLocalRequest && isForwardedRequest)) TagNotExclusive ;;
  if isLocalRequest then completeLocalSpmRequest pkt
  else completeForwardedSpmRequest pkt epId.

(** [Dtu::startMessageTransmission]. *)
Definition startMessageTransmission (epId : Z) : M unit :=
  messageAddr <- readEpReg epId MESSAGE_ADDR ;;
  messageSize <- readEpReg epId MESSAGE_SIZE ;;
  assert (0 <? messageSize) EmptyMessage ;;
  assert (wrap64 (messageSize + sizeofMessageHeader) <? maxMessageSize p)
         MessageTooLarge ;;
  setDtuReg STATUS 1 ;;
  pkt <- generateRequest messageAddr messageSize ReadReq ;;
  let pkt := pushSenderState pkt (SpmSenderState epId true false) in
  if atomicMode p then
    pkt' <- sendAtomicSpmRequest pkt ;;
    completeSpmRequest pkt'
  else
    schedSpmRequest pkt (commandToSpmRequestLatency p).

(** [Dtu::startOperation]. *)
Definition startOperation (c : Command) : M unit :=
  mode <- readEpReg (epId c) MODE ;;
  let mode := toEpMode mode in
  if mode =? RECEIVE_MESSAGE then fail InvalidEndpointMode
  else if mode =? TRANSMIT_MESSAGE then startMessageTransmission (epId c)
  else fail InvalidMode.

(** [Dtu::executeCommand]. *)
Definition executeCommand : M unit :=
  c <- gets (fun s => getCommand p (regFile s)) ;;
  assert (epId c <? numEndpoints p) EndpointOutOfRange ;;
  if opcode c =? IDLE then ret tt
  else if opcode c =? START_OPERATION then startOperation c
  else if opcode c =? INC_READ_PTR then incrementReadPtr (epId c)
  else fail InvalidOpcode.

(** [Dtu::recvNocMemoryRequest]. *)
Definition recvNocMemoryRequest (pkt : Packet) : M unit :=
  fail Unsupported.

(** The endpoint a frame is addressed to: the low [nocEpAddrBits] bits of
    its address, as the first statement of [Dtu::recvNocMessage] takes them. *)
Definition frameEpId (pkt : Packet) : Z :=
  wrap32 (Z.land (addr pkt)
                 (wrap64 (wrap64 (Z.shiftl 1 (nocEpAddrBits p)) - 1))).

(** [Dtu::recvNocMessage]. *)
Definition recvNocMessage (pkt : Packet) : M unit :=
  let epId := frameEpId pkt in
  messageCount <- readEpReg epId BUFFER_MESSAGE_COUNT ;;
  bufferSize <- readEpReg epId BUFFER_SIZE ;;
  let messageCount := wrap32 messageCount in
  let bufferSize := wrap32 bufferSize in
  assert (negb (messageCount =? bufferSize)) BufferOverflow ;;
  spmAddr <- readEpReg epId BUFFER_WRITE_PTR ;;
  let pkt := setAddr pkt spmAddr in
  let pkt := pushSenderState pkt (SpmSenderState epId false true) in
  if atomicMode p then
    pkt' <- sendAtomicSpmRequest pkt ;;
    completeSpmRequest pkt'
  else
    let delay := wrap64 (ticksToCycles env (headerDelay pkt)
                         + nocRequestToSpmRequestLatency p) in
    let pkt := setHeaderDelay pkt 0 in
    schedSpmRequest pkt delay.

(** [Dtu::handleNocRequest]. *)
Definition handleNocRequest (pkt : Packet) : M unit :=
  assert (negb (isError pkt)) PacketError ;;
  assert (isWrite pkt) NotAWrite ;;
  assert (hasData pkt) NoData ;;
  '(pkt, (isMessage, isMemoryRequest)) <- popNocSenderState pkt ;;
  assert (isMessage || isMemoryRequest) TagNotExclusive ;;
  assert (negb (isMessage && isMemoryRequest)) TagNotExclusive ;;
  if isMessage then recvNocMessage pkt
  else recvNocMemoryRequest pkt.

(** [Dtu::handleCpuRequest]; the packet, changed in place by the code, is
    returned. *)
Definition handleCpuRequest (pkt : Packet) : M Packet :=
  let origAddr := addr pkt in
  let pkt := setAddr pkt (wrap64 (origAddr - cpuBaseAddr p)) in
  '(pkt, commandWritten) <-
    (fun s =>
       let '(rf, pkt', written) := regFileHandleRequest env (regFile s) pkt in
       (inr (pkt', written),
        mkDtu rf (incrementWritePtrEvent_epId s) (issued s))) ;;
  let pkt := setAddr pkt origAddr in
  if negb (atomicMode p) then
    let transportDelay :=
      ticksToCycles env (wrap64 (headerDelay pkt + payloadDelay pkt)) in
    let when := wrap64 (transportDelay + registerAccessLatency p) in
    let pkt := setPayloadDelay (setHeaderDelay pkt 0) 0 in
    schedCpuResponse pkt when ;;
    (if commandWritten then schedule ExecuteCommandEvent when else ret tt) ;;
    ret pkt
  else if commandWritten then
    executeCommand ;; ret pkt
  else ret pkt.

(** Modelled from the spec: the three event classes of the unit, declared
    in dtu.hh (not part of src/); each one runs the member function it is
    named after when it fires. *)
Definition processEvent (ev : Event) : M unit :=
  match ev with
  | ExecuteCommandEvent => executeCommand
  | FinishMessageTransmissionEvent => finishMessageTransmission
  | IncrementWritePtrEvent =>
      epId <- gets incrementWritePtrEvent_epId ;; incrementWritePtr epId
  end.

(** Modelled from the spec: the timed transport and the event queue, which
    are not part of src/.  A scheduled scratchpad or network request is
    answered by the collaborator and the answer is handed to the completion
    entry point; a scheduled event runs its handler; responses leave the
    unit, and atomic requests were completed when they were sent. *)
Definition deliver (a : Action) : M unit :=
  match a with
  | SchedSpmRequest pkt _ => completeSpmRequest (spmAccess env pkt)
  | SchedNocRequest pkt _ => completeNocRequest (nocAccess env pkt)
  | Schedule ev _ => processEvent ev
  | _ => ret tt
  end.

(** Delivers the issued actions in order, from position [next] on. *)
Fixpoint run (fuel next : nat) : M unit :=
  match fuel with
  | O => ret tt
  | S fuel' =>
      a <- gets (fun s => nth_error (issued s) next) ;;
      match a with
      | None => ret tt
      | Some a => deliver a ;; run fuel' (S next)
      end
  end.

End DtuModel.

(** ** Observations on what was issued *)

Definition spmRequestOf (a : Action) : option Packet :=
  match a with
  | SendAtomicSpmRequest pkt | SchedSpmRequest pkt _ => Some pkt
  | _ => None
  end.

Definition nocRequestOf (a : Action) : option Packet :=
  match a with
  | SendAtomicNocRequest pkt | SchedNocRequest pkt _ => Some pkt
  | _ => None
  end.

Definition isScheduled (a : Action) : bool :=
  match a with
  | SendAtomicSpmRequest _ | SendAtomicNocRequest _ => false
  | _ => true
  end.

Fixpoint collect {A B} (f : A -> option B) (l : list A) : list B :=
  match l with
  | [] => []
  | a :: l' => match f a with
               | Some b => b :: collect f l'
               | None => collect f l'
               end
  end.

(** The scratchpad and network requests among the issued actions. *)
Definition spmRequests (s : Dtu) : list Packet := collect spmRequestOf (issued s).
Definition nocRequests (s : Dtu) : list Packet := collect nocRequestOf (issued s).

(** The tag a packet carries on top. *)
Definition topTag (pkt : Packet) : option SenderState := hd_error (senderState pkt).

(** ** The ring buffer in the words of the specification *)

(** [advance] of the ring-buffer manager, on 64-bit addresses. *)
Definition advance (slotSize ptr bufferAddr bufferSizeSlots : Z) : Z :=
  let ptr' := wrap64 (ptr + slotSize) in
  if wrap64 (bufferAddr + wrap64 (bufferSizeSlots * slotSize)) <=? ptr'
  then bufferAddr else ptr'.

(** The fields of a receive endpoint. *)
Definition messageCount (s : Dtu) (epId : Z) : Z :=
  RegFile.readEpReg (regFile s) epId BUFFER_MESSAGE_COUNT.
Definition bufferSizeSlots (s : Dtu) (epId : Z) : Z :=
  RegFile.readEpReg (regFile s) epId BUFFER_SIZE.
Definition bufferAddr (s : Dtu) (epId : Z) : Z :=
  RegFile.readEpReg (regFile s) epId BUFFER_ADDR.
Definition readPtr (s : Dtu) (epId : Z) : Z :=
  RegFile.readEpReg (regFile s) epId BUFFER_READ_PTR.
Definition writePtr (s : Dtu) (epId : Z) : Z :=
  RegFile.readEpReg (regFile s) epId BUFFER_WRITE_PTR.

(** Produce and consume operations on one endpoint. *)
Inductive RingOp := Produce | Consume.

Definition ringOp (p : DtuParams) (epId : Z) (o : RingOp) : M unit :=
  match o with
  | Produce => incrementWritePtr p epId
  | Consume => incrementReadPtr p epId
  end.

Fixpoint ringOps (p : DtuParams) (epId : Z) (l : list RingOp) : M unit :=
  match l with
  | [] => ret tt
  | o :: l' => ringOp p epId o ;; ringOps p epId l'
  end.

(** ** Notions used in the statements *)

(** The state after a successful produce. *)
Definition produced (p : DtuParams) (e : Z) (s : Dtu) : Dtu :=
  mkDtu (RegFile.setEpReg
           (RegFile.setEpReg (regFile s) e BUFFER_WRITE_PTR
              (advance (maxMessageSize p) (writePtr s e) (bufferAddr s e)
                       (bufferSizeSlots s e)))
           e BUFFER_MESSAGE_COUNT (messageCount s e + 1))
        (incrementWritePtrEvent_epId s) (issued s).

(** The state after a successful consume. *)
Definition consumed (p : DtuParams) (e : Z) (s : Dtu) : Dtu :=
  mkDtu (RegFile.setEpReg
           (RegFile.setEpReg (regFile s) e BUFFER_READ_PTR
              (advance (maxMessageSize p) (readPtr s e) (bufferAddr s e)
                       (bufferSizeSlots s e)))
           e BUFFER_MESSAGE_COUNT (messageCount s e - 1))
        (incrementWritePtrEvent_epId s) (issued s).

Fixpoint produces (ops : list RingOp) : nat :=
  match ops with
  | [] => O
  | Produce :: l => S (produces l)
  | Consume :: l => produces l
  end.

Fixpoint consumes (ops : list RingOp) : nat :=
  match ops with
  | [] => O
  | Produce :: l => consumes l
  | Consume :: l => S (consumes l)
  end.

(** A test on actions: [allOk ok] says that every action issued so far
    passes [ok], and [keeps ok m] that the call [m] preserves this, whether
    it fails or not. *)
Definition allOk (ok : Action -> bool) (s : Dtu) : Prop :=
  Forall (fun a => ok a = true) (issued s).

Definition keeps (ok : Action -> bool) {A} (m : M A) : Prop :=
  forall s, allOk ok s -> allOk ok (snd (m s)).

(** A scratchpad or network request carries on top a tag of its class with
    exactly one flag set. *)
Definition wellTagged (a : Action) : bool :=
  match a with
  | SendAtomicSpmRequest pkt | SchedSpmRequest pkt _ =>
      match senderState pkt with
      | SpmSenderState _ l f :: _ => xorb l f
      | _ => false
      end
  | SendAtomicNocRequest pkt | SchedNocRequest pkt _ =>
      match senderState pkt with
      | NocSenderState m r :: _ => xorb m r
      | _ => false
      end
  | _ => true
  end.

(** The scratchpad request of a transmission. *)
Definition readRequest (p : DtuParams) (e a sz : Z) : Packet :=
  mkPacket a (wrap32 sz) ReadReq (repeat 0 (Z.to_nat sz)) 0 0
           [SpmSenderState e true false] false (masterId p).

(** The network frame built from the scratchpad's answer [resp] for the
    endpoint [e]. *)
Definition messageFrame (p : DtuParams) (env : Collaborators) (e : Z)
           (rf : RegFile.t) (resp : Packet) : Packet :=
  let targetCoreId := wrap32 (RegFile.readEpReg rf e TARGET_COREID) in
  let targetEpId := wrap32 (RegFile.readEpReg rf e TARGET_EPID) in
  let messageSize := wrap32 (RegFile.readEpReg rf e MESSAGE_SIZE) in
  mkPacket (getNocAddr env targetCoreId targetEpId)
           (wrap32 (wrap64 (messageSize + sizeofMessageHeader)))
           WriteReq
           (messageHeaderBytes (coreId p) e messageSize
              ++ firstn (Z.to_nat messageSize) (data resp)
              ++ skipn (Z.to_nat (sizeofMessageHeader + messageSize))
                   (repeat 0 (Z.to_nat (wrap64 (messageSize + sizeofMessageHeader)))))
           0 (payloadDelay resp) [NocSenderState true false] false (masterId p).

(** The unit marked busy. *)
Definition busy (s : Dtu) : Dtu :=
  mkDtu (RegFile.setDtuReg (regFile s) STATUS 1)
        (incrementWritePtrEvent_epId s) (issued s).

(** A scratchpad that answers a read request with a read response of the
    same size, keeping the tags of the request. *)
Definition spmAnswersReads (env : Collaborators) : Prop :=
  forall pkt,
    cmd pkt = ReadReq ->
    cmd (spmAccess env pkt) = ReadResp
    /\ isError (spmAccess env pkt) = false
    /\ size (spmAccess env pkt) = size pkt
    /\ senderState (spmAccess env pkt) = senderState pkt
    /\ length (data (spmAccess env pkt)) = length (data pkt).

Definition widthsFit (p : DtuParams) : Prop :=
  wrap32 (numCmdEpidBits p + numCmdOffsetBits p + numCmdOpcodeBits p) <= 64.

(** The registers at the end of the transmission. *)
Definition finished (rf : RegFile.t) : RegFile.t :=
  RegFile.setDtuReg (RegFile.setDtuReg rf COMMAND 0) STATUS 0.

(** ** Sample configurations *)

(** Four bits each for the opcode and the endpoint id. *)
Definition demoParams (atomic : bool) : DtuParams :=
  mkParams atomic 8 7 256 4 4 16 1 2 3 4 5 9 0x10000000 8.

(** Two opcode bits, eight endpoint bits, sixteen offset bits. *)
Definition wideEpidParams : DtuParams :=
  mkParams true 8 7 256 2 8 16 1 2 3 4 5 9 0x10000000 8.

(** A scratchpad that answers a request in place: the command becomes the
    matching response and a read returns the low byte of each address. *)
Definition demoSpm (pkt : Packet) : Packet :=
  match cmd pkt with
  | ReadReq =>
      mkPacket (addr pkt) (size pkt) ReadResp
               (map (fun i => wrap8 (addr pkt + Z.of_nat i)) (seq 0 (length (data pkt))))
               (headerDelay pkt) (payloadDelay pkt) (senderState pkt) false
               (reqMasterId pkt)
  | WriteReq =>
      mkPacket (addr pkt) (size pkt) WriteResp (data pkt)
               (headerDelay pkt) (payloadDelay pkt) (senderState pkt) false
               (reqMasterId pkt)
  | _ => pkt
  end.

(** A register file collaborator that stores a written word in the command
    register when the rebased address is 0. *)
Definition demoHandleRequest (rf : RegFile.t) (pkt : Packet)
  : RegFile.t * Packet * bool :=
  if (addr pkt =? 0) && isWrite pkt
  then (RegFile.setDtuReg rf COMMAND (hd 0 (data pkt)), pkt, true)
  else (rf, pkt, false).

(** A network that acknowledges a write after a transport delay of 1000
    ticks for the header and 2000 for the payload. *)
Definition demoNoc (pkt : Packet) : Packet :=
  match cmd pkt with
  | WriteReq =>
      mkPacket (addr pkt) (size pkt) WriteResp (data pkt) 1000 2000
               (senderState pkt) false (reqMasterId pkt)
  | _ => pkt
  end.

(** A clock of 1000 ticks per cycle; endpoint [ep] of core [core] has the
    network address [core * 256 + ep]. *)
Definition demoEnv : Collaborators :=
  mkCollaborators (fun t => t / 1000)
                  (fun core ep => core * 256 + ep)
                  demoSpm demoNoc demoHandleRequest.

(** Endpoint 2 transmits 64 bytes from 0x1000 to endpoint 3 of core 1;
    endpoint 5 receives into four slots at 0x2000. *)
Definition demoEpRegs (count : Z) (epId : Z) (r : EpReg) : Z :=
  if epId =? 2 then
    match r with
    | MODE => TRANSMIT_MESSAGE
    | MESSAGE_ADDR => 0x1000
    | MESSAGE_SIZE => 64
    | TARGET_COREID => 1
    | TARGET_EPID => 3
    | _ => 0
    end
  else if epId =? 5 then
    match r with
    | MODE => RECEIVE_MESSAGE
    | BUFFER_ADDR => 0x2000
    | BUFFER_SIZE => 4
    | BUFFER_READ_PTR => 0x2000
    | BUFFER_WRITE_PTR => 0x2000 + 256 * (count mod 4)
    | BUFFER_MESSAGE_COUNT => count
    | _ => 0
    end
  else 0.

(** The unit with [command] in the control register and [count] messages in
    the buffer of endpoint 5. *)
Definition demoDtu (command count : Z) : Dtu :=
  mkDtu (RegFile.mk (fun r => match r with COMMAND => command | STATUS => 0 end)
                    (demoEpRegs count))
        0 [].

(** An inbound message frame for endpoint [epId]. *)
Definition demoFrame (epId : Z) : Packet :=
  mkPacket (9 * 256 + epId) 8 WriteReq [1; 0; 4; 0; 10; 11; 12; 13] 2000 1000
           [NocSenderState true false] false 7.





(** A unit whose endpoint 5 has a buffer of [2 ^ 33 + 3] slots of [2 ^ 31]
    bytes at address 0: longer than the 64-bit address space. *)
Definition longBufferParams : DtuParams :=
  mkParams true 8 7 (2 ^ 31) 4 4 16 1 2 3 4 5 9 0x10000000 8.

Definition longBufferDtu : Dtu :=
  mkDtu (RegFile.mk (fun _ => 0)
                    (fun epId r =>
                       if epId =? 5
                       then match r with BUFFER_SIZE => 2 ^ 33 + 3 | _ => 0 end
                       else 0))
        0 [].

(** ** Notions used in the further properties *)

(** The two pointers of a receive endpoint stand on slots of its buffer and
    the write pointer is [messageCount] slots ahead of the read pointer,
    around the ring. *)
Definition ringConsistent (p : DtuParams) (s : Dtu) (e : Z) : Prop :=
  exists r w,
    0 <= r < bufferSizeSlots s e
    /\ 0 <= w < bufferSizeSlots s e
    /\ readPtr s e = bufferAddr s e + r * maxMessageSize p
    /\ writePtr s e = bufferAddr s e + w * maxMessageSize p
    /\ messageCount s e <= bufferSizeSlots s e
    /\ w = (r + messageCount s e) mod bufferSizeSlots s e.

(** [s'] differs from [s] at most in the two pointers and the message count
    of endpoint [e]. *)
Definition sameOutsideRing (e : Z) (s s' : Dtu) : Prop :=
  (forall e' r,
      e' <> e \/ (r <> BUFFER_READ_PTR /\ r <> BUFFER_WRITE_PTR
                  /\ r <> BUFFER_MESSAGE_COUNT) ->
      RegFile.readEpReg (regFile s') e' r = RegFile.readEpReg (regFile s) e' r)
  /\ (forall d, RegFile.readDtuReg (regFile s') d = RegFile.readDtuReg (regFile s) d)
  /\ incrementWritePtrEvent_epId s' = incrementWritePtrEvent_epId s
  /\ issued s' = issued s.

(** A scratchpad that answers a write request with a write response that
    keeps the tags of the request. *)
Definition spmAnswersWrites (env : Collaborators) : Prop :=
  forall pkt,
    cmd pkt = WriteReq ->
    cmd (spmAccess env pkt) = WriteResp
    /\ isError (spmAccess env pkt) = false
    /\ senderState (spmAccess env pkt) = senderState pkt.

(** The scratchpad request made of an inbound frame [pkt] for the endpoint
    [e]: the frame without its network tag ([rest] being what is below it),
    readdressed to the write pointer and tagged as forwarded. *)
Definition storedFrame (s : Dtu) (e : Z) (pkt : Packet)
           (rest : list SenderState) : Packet :=
  pushSenderState (setAddr (setSenderState pkt rest) (writePtr s e))
                  (SpmSenderState e false true).

(** A configuration whose three command fields take 66 bits. *)
Definition tooWideParams : DtuParams :=
  mkParams true 8 7 256 22 22 22 1 2 3 4 5 9 0x10000000 8.

(** A scratchpad that answers a read with half of the bytes asked for. *)
Definition shortSpm (pkt : Packet) : Packet :=
  match cmd pkt with
  | ReadReq =>
      mkPacket (addr pkt) (size pkt / 2) ReadResp
               (repeat 0 (Z.to_nat (size pkt / 2)))
               (headerDelay pkt) (payloadDelay pkt) (senderState pkt) false
               (reqMasterId pkt)
  | _ => demoSpm pkt
  end.

Definition shortSpmEnv : Collaborators :=
  mkCollaborators (fun t => t / 1000)
                  (fun core ep => core * 256 + ep)
                  shortSpm demoNoc demoHandleRequest.

(** The actions of each timing mode: in atomic mode, the two atomic
    accesses and the finish event; in timed mode, everything but the
    atomic accesses. *)
Definition atomicAction (a : Action) : bool :=
  match a with
  | SendAtomicSpmRequest _ | SendAtomicNocRequest _
  | Schedule FinishMessageTransmissionEvent _ => true
  | _ => false
  end.

Definition modeAction (p : DtuParams) (a : Action) : bool :=
  if atomicMode p then atomicAction a else isScheduled a.

(** * Properties *)

(** ** Words and registers *)

Lemma wrap64_range (x : Z) : 0 <= wrap64 x < 2 ^ 64.
Proof. unfold wrap64. apply Z.mod_pos_bound. lia. Qed.

Lemma wrap64_small (x : Z) : 0 <= x < 2 ^ 64 -> wrap64 x = x.
Proof. intros H. unfold wrap64. now apply Z.mod_small. Qed.

Lemma wrap64_once (x : Z) : 2 ^ 64 <= x < 2 * 2 ^ 64 -> wrap64 x = x - 2 ^ 64.
Proof.
  intros H. unfold wrap64. symmetry.
  apply Z.mod_unique with (q := 1); lia.
Qed.

Lemma wrap64_idem (x : Z) : wrap64 (wrap64 x) = wrap64 x.
Proof. apply wrap64_small, wrap64_range. Qed.

Lemma wrap64_add_l (x y : Z) : wrap64 (wrap64 x + y) = wrap64 (x + y).
Proof. unfold wrap64. now rewrite Zplus_mod_idemp_l. Qed.

Lemma readEpReg_range (rf : RegFile.t) (e : Z) (r : EpReg) :
  0 <= RegFile.readEpReg rf e r < 2 ^ 64.
Proof. apply wrap64_range. Qed.

Lemma EpReg_eqb_eq (a b : EpReg) : EpReg_eqb a b = true <-> a = b.
Proof.
  unfold EpReg_eqb. rewrite Z.eqb_eq.
  split; [| now intros ->].
  destruct a, b; simpl; intros H; try reflexivity; discriminate H.
Qed.

Lemma readEpReg_setEpReg_same (rf : RegFile.t) (e : Z) (r : EpReg) (v : Z) :
  RegFile.readEpReg (RegFile.setEpReg rf e r v) e r = wrap64 v.
Proof.
  unfold RegFile.readEpReg, RegFile.setEpReg; simpl.
  rewrite Z.eqb_refl.
  replace (EpReg_eqb r r) with true by (symmetry; now apply EpReg_eqb_eq).
  simpl. apply wrap64_idem.
Qed.

Lemma readEpReg_setEpReg_other (rf : RegFile.t) (e e' : Z) (r r' : EpReg) (v : Z) :
  r' <> r ->
  RegFile.readEpReg (RegFile.setEpReg rf e r v) e' r' = RegFile.readEpReg rf e' r'.
Proof.
  intros Hr. unfold RegFile.readEpReg, RegFile.setEpReg; simpl.
  destruct (EpReg_eqb r' r) eqn:E.
  - apply EpReg_eqb_eq in E. contradiction.
  - now rewrite andb_false_r.
Qed.

(** ** The two ring-buffer operations, step by step *)

Section RingSteps.

Variable p : DtuParams.
Variable e : Z.

Lemma incrementWritePtr_ok (s : Dtu) :
  messageCount s e < bufferSizeSlots s e ->
  incrementWritePtr p e s = (inr tt, produced p e s).
Proof.
  intros H. apply Z.ltb_lt in H.
  unfold incrementWritePtr, produced, advance, bind, readEpReg, gets, assert,
    setEpReg, modify, ret, fail.
  unfold messageCount, bufferSizeSlots in H. rewrite H. reflexivity.
Qed.

Lemma incrementWritePtr_full (s : Dtu) :
  bufferSizeSlots s e <= messageCount s e ->
  incrementWritePtr p e s = (inl ProducerOverflow, s).
Proof.
  intros H. apply Z.ltb_ge in H.
  unfold incrementWritePtr, bind, readEpReg, gets, assert, ret, fail.
  unfold messageCount, bufferSizeSlots in H. rewrite H. reflexivity.
Qed.

Lemma incrementReadPtr_ok (s : Dtu) :
  0 < messageCount s e ->
  incrementReadPtr p e s = (inr tt, consumed p e s).
Proof.
  intros H.
  assert (E : (messageCount s e =? 0) = false) by (apply Z.eqb_neq; lia).
  unfold incrementReadPtr, consumed, advance, bind, readEpReg, gets, assert,
    setEpReg, modify, ret, fail.
  unfold messageCount in E. rewrite E. reflexivity.
Qed.

Lemma incrementReadPtr_empty (s : Dtu) :
  messageCount s e = 0 ->
  incrementReadPtr p e s = (inl BufferUnderflow, s).
Proof.
  intros H.
  unfold incrementReadPtr, bind, readEpReg, gets, assert, ret, fail.
  unfold messageCount in H. rewrite H. reflexivity.
Qed.

Lemma messageCount_range (s : Dtu) : 0 <= messageCount s e < 2 ^ 64.
Proof. apply readEpReg_range. Qed.

Lemma bufferSizeSlots_range (s : Dtu) : 0 <= bufferSizeSlots s e < 2 ^ 64.
Proof. apply readEpReg_range. Qed.

Lemma produced_messageCount (s : Dtu) :
  messageCount s e < bufferSizeSlots s e ->
  messageCount (produced p e s) e = messageCount s e + 1.
Proof.
  intros H. unfold messageCount at 1, produced; simpl.
  rewrite readEpReg_setEpReg_same. apply wrap64_small.
  pose proof (messageCount_range s). pose proof (bufferSizeSlots_range s). lia.
Qed.

Lemma consumed_messageCount (s : Dtu) :
  0 < messageCount s e ->
  messageCount (consumed p e s) e = messageCount s e - 1.
Proof.
  intros H. unfold messageCount at 1, consumed; simpl.
  rewrite readEpReg_setEpReg_same. apply wrap64_small.
  pose proof (messageCount_range s). lia.
Qed.

Lemma produced_writePtr (s : Dtu) :
  writePtr (produced p e s) e
  = advance (maxMessageSize p) (writePtr s e) (bufferAddr s e) (bufferSizeSlots s e).
Proof.
  unfold writePtr at 1, produced; simpl.
  rewrite readEpReg_setEpReg_other by discriminate.
  rewrite readEpReg_setEpReg_same.
  unfold advance.
  destruct (_ <=? _); apply wrap64_small; apply wrap64_range.
Qed.

Lemma consumed_readPtr (s : Dtu) :
  readPtr (consumed p e s) e
  = advance (maxMessageSize p) (readPtr s e) (bufferAddr s e) (bufferSizeSlots s e).
Proof.
  unfold readPtr at 1, consumed; simpl.
  rewrite readEpReg_setEpReg_other by discriminate.
  rewrite readEpReg_setEpReg_same.
  unfold advance.
  destruct (_ <=? _); apply wrap64_small; apply wrap64_range.
Qed.

(** Neither operation touches the geometry of the buffer, nor the pointer
    of the other side. *)
Lemma produced_frame (s : Dtu) :
  bufferSizeSlots (produced p e s) e = bufferSizeSlots s e
  /\ bufferAddr (produced p e s) e = bufferAddr s e
  /\ readPtr (produced p e s) e = readPtr s e
  /\ issued (produced p e s) = issued s.
Proof.
  unfold bufferSizeSlots, bufferAddr, readPtr, produced; simpl.
  now rewrite !readEpReg_setEpReg_other by discriminate.
Qed.

Lemma consumed_frame (s : Dtu) :
  bufferSizeSlots (consumed p e s) e = bufferSizeSlots s e
  /\ bufferAddr (consumed p e s) e = bufferAddr s e
  /\ writePtr (consumed p e s) e = writePtr s e
  /\ issued (consumed p e s) = issued s.
Proof.
  unfold bufferSizeSlots, bufferAddr, writePtr, consumed; simpl.
  now rewrite !readEpReg_setEpReg_other by discriminate.
Qed.

End RingSteps.

(** ** Sequences of ring-buffer operations *)

Lemma ringOps_cons (p : DtuParams) (e : Z) (o : RingOp) (l : list RingOp) (s : Dtu) :
  ringOps p e (o :: l) s
  = match ringOp p e o s with
    | (inl f, s') => (inl f, s')
    | (inr _, s') => ringOps p e l s'
    end.
Proof. reflexivity. Qed.

(** A run of operations stops in a state that satisfies the count
    invariant, whether it ran to its end or stopped at an assertion. *)
Lemma ringOps_invariant (p : DtuParams) (e : Z) (ops : list RingOp) :
  forall s,
    0 <= messageCount s e <= bufferSizeSlots s e ->
    0 <= messageCount (snd (ringOps p e ops s)) e
         <= bufferSizeSlots (snd (ringOps p e ops s)) e
    /\ bufferSizeSlots (snd (ringOps p e ops s)) e = bufferSizeSlots s e.
Proof.
  induction ops as [| o l IH]; intros s Hinv.
  - simpl. split; [exact Hinv | reflexivity].
  - rewrite ringOps_cons. destruct o; simpl ringOp.
    + destruct (Z_lt_le_dec (messageCount s e) (bufferSizeSlots s e)) as [Hlt | Hge].
      * rewrite (incrementWritePtr_ok p e s Hlt).
        destruct (produced_frame p e s) as (Hsz & _).
        pose proof (produced_messageCount p e s Hlt) as Hc.
        destruct (IH (produced p e s)) as (IH1 & IH2); [lia |].
        split; [exact IH1 | congruence].
      * rewrite (incrementWritePtr_full p e s Hge). simpl.
        split; [exact Hinv | reflexivity].
    + destruct (Z.eq_dec (messageCount s e) 0) as [Hz | Hnz].
      * rewrite (incrementReadPtr_empty p e s Hz). simpl.
        split; [exact Hinv | reflexivity].
      * assert (Hpos : 0 < messageCount s e) by lia.
        rewrite (incrementReadPtr_ok p e s Hpos).
        destruct (consumed_frame p e s) as (Hsz & _).
        pose proof (consumed_messageCount p e s Hpos) as Hc.
        destruct (IH (consumed p e s)) as (IH1 & IH2); [lia |].
        split; [exact IH1 | congruence].
Qed.

(** The pointers after a run that reached its end: each was advanced once
    per operation of its side, with the formula of the specification. *)
Lemma ringOps_pointers (p : DtuParams) (e : Z) (ops : list RingOp) :
  forall s s',
    ringOps p e ops s = (inr tt, s') ->
    let adv := fun ptr => advance (maxMessageSize p) ptr (bufferAddr s e)
                                  (bufferSizeSlots s e) in
    bufferAddr s' e = bufferAddr s e
    /\ bufferSizeSlots s' e = bufferSizeSlots s e
    /\ writePtr s' e = Nat.iter (produces ops) adv (writePtr s e)
    /\ readPtr s' e = Nat.iter (consumes ops) adv (readPtr s e).
Proof.
  induction ops as [| o l IH]; intros s s' Hrun adv.
  - simpl in Hrun. injection Hrun as <-. simpl. auto.
  - rewrite ringOps_cons in Hrun. destruct o; simpl ringOp in Hrun.
    + destruct (Z_lt_le_dec (messageCount s e) (bufferSizeSlots s e)) as [Hlt | Hge].
      * rewrite (incrementWritePtr_ok p e s Hlt) in Hrun.
        destruct (produced_frame p e s) as (Hsz & Hba & Hrp & _).
        pose proof (produced_writePtr p e s) as Hwp.
        destruct (IH _ _ Hrun) as (I1 & I2 & I3 & I4).
        rewrite Hsz, Hba in *. rewrite Hwp in I3. rewrite Hrp in I4.
        simpl produces. simpl consumes. rewrite Nat.iter_succ_r.
        repeat split; assumption.
      * rewrite (incrementWritePtr_full p e s Hge) in Hrun. discriminate Hrun.
    + destruct (Z.eq_dec (messageCount s e) 0) as [Hz | Hnz].
      * rewrite (incrementReadPtr_empty p e s Hz) in Hrun. discriminate Hrun.
      * assert (Hpos : 0 < messageCount s e)
          by (pose proof (messageCount_range e s); lia).
        rewrite (incrementReadPtr_ok p e s Hpos) in Hrun.
        destruct (consumed_frame p e s) as (Hsz & Hba & Hwp & _).
        pose proof (consumed_readPtr p e s) as Hrp.
        destruct (IH _ _ Hrun) as (I1 & I2 & I3 & I4).
        rewrite Hsz, Hba in *. rewrite Hrp in I4. rewrite Hwp in I3.
        simpl produces. simpl consumes. rewrite Nat.iter_succ_r.
        repeat split; assumption.
Qed.

(** [k] produces in a row succeed when [k] slots are free, and [k]
    consumes in a row succeed when [k] slots are occupied. *)
Lemma produce_run (p : DtuParams) (e : Z) (k : nat) :
  forall s,
    messageCount s e + Z.of_nat k <= bufferSizeSlots s e ->
    exists s', ringOps p e (repeat Produce k) s = (inr tt, s').
Proof.
  induction k as [| k IH]; intros s H.
  - exists s. reflexivity.
  - simpl repeat. rewrite ringOps_cons. simpl ringOp.
    assert (Hlt : messageCount s e < bufferSizeSlots s e) by lia.
    rewrite (incrementWritePtr_ok p e s Hlt).
    apply IH.
    destruct (produced_frame p e s) as (Hsz & _).
    rewrite Hsz, (produced_messageCount p e s Hlt). lia.
Qed.

Lemma consume_run (p : DtuParams) (e : Z) (k : nat) :
  forall s,
    Z.of_nat k <= messageCount s e ->
    exists s', ringOps p e (repeat Consume k) s = (inr tt, s').
Proof.
  induction k as [| k IH]; intros s H.
  - exists s. reflexivity.
  - simpl repeat. rewrite ringOps_cons. simpl ringOp.
    assert (Hpos : 0 < messageCount s e) by lia.
    rewrite (incrementReadPtr_ok p e s Hpos).
    apply IH. rewrite (consumed_messageCount p e s Hpos). lia.
Qed.

Lemma produces_repeat (k : nat) : produces (repeat Produce k) = k.
Proof. induction k; simpl; congruence. Qed.

Lemma consumes_repeat (k : nat) : consumes (repeat Consume k) = k.
Proof. induction k; simpl; congruence. Qed.

(** ** The cycle of a pointer through the slots of a buffer *)

Section AdvanceCycle.

Variables slot base n : Z.
Hypothesis Hslot : 0 <= slot.
Hypothesis Hbase : 0 <= base < 2 ^ 64.
Hypothesis Hn : 0 <= n.
Hypothesis Hfit : n * slot < 2 ^ 64.

Lemma advance_limit : wrap64 (base + wrap64 (n * slot)) = wrap64 (base + n * slot).
Proof. rewrite (wrap64_small (n * slot)) by nia. reflexivity. Qed.

Lemma advance_fixpoint (k : nat) :
  advance slot base base n = base ->
  Nat.iter k (fun ptr => advance slot ptr base n) base = base.
Proof.
  intros Hfix. induction k as [| k IH]; simpl; [reflexivity |].
  now rewrite IH.
Qed.

(** Away from the end of the buffer the pointer moves by one slot; [c] is
    [2 ^ 64] when the slots lie beyond a wrap of the address and 0 when
    they do not. *)
Lemma advance_linear (c : Z) :
  1 <= slot ->
  wrap64 (base + slot) = base + slot - c ->
  (forall j, 1 <= j <= n -> 0 <= base + j * slot - c < 2 ^ 64) ->
  wrap64 (base + n * slot) = base + n * slot - c ->
  forall k : nat,
    Z.of_nat k < n ->
    Nat.iter k (fun ptr => advance slot ptr base n) base
    = if (k =? 0)%nat then base else base + Z.of_nat k * slot - c.
Proof.
  intros Hs1 Hfirst Hin Hlim k.
  induction k as [| k IH]; intros Hk; [reflexivity |].
  simpl Nat.iter. rewrite IH by lia.
  unfold advance. rewrite advance_limit, Hlim.
  destruct k as [| k'].
  - cbn [Nat.eqb]. rewrite Hfirst.
    destruct (Z.leb_spec (base + n * slot - c) (base + slot - c)) as [Hle | Hgt].
    + exfalso. change (Z.of_nat 1) with 1 in Hk. nia.
    + change (Z.of_nat 1) with 1. lia.
  - cbn [Nat.eqb].
    replace (base + Z.of_nat (S k') * slot - c + slot)
      with (base + Z.of_nat (S (S k')) * slot - c) by lia.
    rewrite wrap64_small by (apply Hin; lia).
    destruct (Z.leb_spec (base + n * slot - c)
                         (base + Z.of_nat (S (S k')) * slot - c)) as [Hle | Hgt].
    + exfalso. nia.
    + reflexivity.
Qed.

(** The last step of the cycle resets the pointer. *)
Lemma advance_last (c : Z) (m : nat) :
  1 <= slot ->
  Z.of_nat m = n - 1 ->
  wrap64 (base + slot) = base + slot - c ->
  (forall j, 1 <= j <= n -> 0 <= base + j * slot - c < 2 ^ 64) ->
  wrap64 (base + n * slot) = base + n * slot - c ->
  Nat.iter (S m) (fun ptr => advance slot ptr base n) base = base.
Proof.
  intros Hs1 Hm Hfirst Hin Hlim.
  simpl Nat.iter.
  rewrite (advance_linear c Hs1 Hfirst Hin Hlim m) by lia.
  unfold advance. rewrite advance_limit, Hlim.
  destruct m as [| m'].
  - cbn [Nat.eqb]. rewrite Hfirst.
    destruct (Z.leb_spec (base + n * slot - c) (base + slot - c)) as [Hle | Hgt].
    + reflexivity.
    + exfalso. change (Z.of_nat 0) with 0 in Hm. nia.
  - cbn [Nat.eqb].
    replace (base + Z.of_nat (S m') * slot - c + slot)
      with (base + n * slot - c) by nia.
    rewrite wrap64_small by (apply Hin; lia).
    rewrite Z.leb_refl. reflexivity.
Qed.

(** Advancing [n] times from the start of a buffer of [n] slots comes back
    to the start. *)
Lemma advance_cycle :
  Nat.iter (Z.to_nat n) (fun ptr => advance slot ptr base n) base = base.
Proof.
  destruct (Z.eq_dec n 0) as [-> | Hn0]; [reflexivity |].
  destruct (Z.eq_dec slot 0) as [Hs0 | Hs0].
  - apply advance_fixpoint. unfold advance.
    destruct (_ <=? _); [reflexivity |].
    subst slot. rewrite Z.add_0_r. now apply wrap64_small.
  - assert (Hs1 : 1 <= slot) by lia.
    assert (Hm : Z.of_nat (Z.to_nat n - 1) = n - 1) by lia.
    replace (Z.to_nat n) with (S (Z.to_nat n - 1)) by lia.
    destruct (Z_lt_le_dec (base + n * slot) (2 ^ 64)) as [Hno | Hwrap].
    + apply (advance_last 0 _ Hs1 Hm).
      * rewrite wrap64_small; nia.
      * intros j Hj. nia.
      * rewrite wrap64_small; nia.
    + destruct (Z_lt_le_dec (base + slot) (2 ^ 64)) as [Hlow | Hhigh].
      * replace (S (Z.to_nat n - 1)) with (Z.to_nat n) by lia.
        apply advance_fixpoint. unfold advance.
        rewrite advance_limit.
        rewrite (wrap64_once (base + n * slot)) by nia.
        rewrite (wrap64_small (base + slot)) by lia.
        destruct (Z.leb_spec (base + n * slot - 2 ^ 64) (base + slot)) as [Hle | Hgt].
        -- reflexivity.
        -- exfalso. nia.
      * apply (advance_last (2 ^ 64) _ Hs1 Hm).
        -- rewrite wrap64_once; nia.
        -- intros j Hj. nia.
        -- rewrite wrap64_once; nia.
Qed.

End AdvanceCycle.

(** The bound on the length of the buffer is needed: with [2 ^ 33 + 3] slots
    of [2 ^ 31] bytes at address 0 the end of the buffer, computed on 64
    bits, is [3 * 2 ^ 31]; the pointer is reset every third step and is
    two slots ahead after as many steps as there are slots. *)
Remark advance_cycle_beyond_address_space :
  Nat.iter (Z.to_nat (2 ^ 33 + 3))
           (fun ptr => advance (2 ^ 31) ptr 0 (2 ^ 33 + 3)) 0
  = 2 ^ 32.
Proof.
  set (f := fun ptr => advance (2 ^ 31) ptr 0 (2 ^ 33 + 3)).
  assert (H3 : f (f (f 0)) = 0) by reflexivity.
  assert (Hperiod : forall q : nat, Nat.iter (q * 3) f 0 = 0).
  { induction q as [| q IH]; [reflexivity |].
    change (S q * 3)%nat with (3 + q * 3)%nat.
    rewrite Nat.iter_add, IH. exact H3. }
  replace (Z.to_nat (2 ^ 33 + 3)) with (2 + Z.to_nat 2863311531 * 3)%nat by lia.
  rewrite Nat.iter_add, Hperiod. reflexivity.
Qed.

(** ** Command dispatch *)

Lemma executeCommand_decoded (p : DtuParams) (env : Collaborators) (s : Dtu) :
  epId (getCommand p (regFile s)) < numEndpoints p ->
  executeCommand p env s
  = (let c := getCommand p (regFile s) in
     if opcode c =? IDLE then ret tt
     else if opcode c =? START_OPERATION then startOperation p env c
     else if opcode c =? INC_READ_PTR then incrementReadPtr p (epId c)
     else fail InvalidOpcode) s.
Proof.
  intros H. apply Z.ltb_lt in H.
  unfold executeCommand, bind, gets, assert. rewrite H. reflexivity.
Qed.

(** ** The ring buffer *)

(** C4. Ring count invariant.  From a state with
    [0 <= messageCount <= bufferSizeSlots], whatever sequence of produce
    ([incrementWritePtr]) and consume ([incrementReadPtr]) operations is
    run, the state it stops in still has [messageCount] within
    [[0, bufferSizeSlots]]; there a produce that does not overflow succeeds
    and yields [messageCount + 1], and a consume that does not underflow
    succeeds and yields [messageCount - 1]. *)
Theorem ring_count_invariant (p : DtuParams) (e : Z) (ops : list RingOp) (s : Dtu)
  (Hinv : 0 <= messageCount s e <= bufferSizeSlots s e) :
  let s' := snd (ringOps p e ops s) in
  0 <= messageCount s' e <= bufferSizeSlots s' e
  /\ bufferSizeSlots s' e = bufferSizeSlots s e
  /\ (messageCount s' e < bufferSizeSlots s' e ->
      exists s'', incrementWritePtr p e s' = (inr tt, s'')
                  /\ messageCount s'' e = messageCount s' e + 1
                  /\ bufferSizeSlots s'' e = bufferSizeSlots s' e)
  /\ (0 < messageCount s' e ->
      exists s'', incrementReadPtr p e s' = (inr tt, s'')
                  /\ messageCount s'' e = messageCount s' e - 1
                  /\ bufferSizeSlots s'' e = bufferSizeSlots s' e).
Proof.
  intros s'.
  destruct (ringOps_invariant p e ops s Hinv) as (H1 & H2).
  split; [exact H1 |]. split; [exact H2 |]. split.
  - intros Hlt. exists (produced p e s'). split; [| split].
    + now apply incrementWritePtr_ok.
    + now apply produced_messageCount.
    + apply produced_frame.
  - intros Hpos. exists (consumed p e s'). split; [| split].
    + now apply incrementReadPtr_ok.
    + now apply consumed_messageCount.
    + apply consumed_frame.
Qed.

(** C5, amended.  Pointer wraparound.  For a receive endpoint whose buffer
    is shorter than the address space
    ([bufferSizeSlots * maxMessageSize < 2 ^ 64]):
    any run of operations that starts with the write pointer at
    [bufferAddr] and produces exactly [bufferSizeSlots] times ends with the
    write pointer at [bufferAddr], and such a run exists from the empty
    buffer; the same holds of the read pointer and consumes, from the full
    buffer; and [incrementWritePtr] and [incrementReadPtr] both move their
    pointer by the one formula [advance] with slot size [maxMessageSize]. *)
Theorem pointer_wraparound (p : DtuParams) (e : Z) (s : Dtu)
  (Hslot : 0 <= maxMessageSize p)
  (Hfit : bufferSizeSlots s e * maxMessageSize p < 2 ^ 64) :
  let n := Z.to_nat (bufferSizeSlots s e) in
  (forall ops s',
      writePtr s e = bufferAddr s e ->
      ringOps p e ops s = (inr tt, s') ->
      produces ops = n ->
      writePtr s' e = bufferAddr s e)
  /\ (forall ops s',
      readPtr s e = bufferAddr s e ->
      ringOps p e ops s = (inr tt, s') ->
      consumes ops = n ->
      readPtr s' e = bufferAddr s e)
  /\ (messageCount s e = 0 ->
      exists s', ringOps p e (repeat Produce n) s = (inr tt, s'))
  /\ (messageCount s e = bufferSizeSlots s e ->
      exists s', ringOps p e (repeat Consume n) s = (inr tt, s'))
  /\ (forall s0 s1,
      incrementWritePtr p e s0 = (inr tt, s1) ->
      writePtr s1 e = advance (maxMessageSize p) (writePtr s0 e)
                              (bufferAddr s0 e) (bufferSizeSlots s0 e))
  /\ (forall s0 s1,
      incrementReadPtr p e s0 = (inr tt, s1) ->
      readPtr s1 e = advance (maxMessageSize p) (readPtr s0 e)
                             (bufferAddr s0 e) (bufferSizeSlots s0 e)).
Proof.
  intros n.
  pose proof (bufferSizeSlots_range e s) as Hn.
  assert (Hcycle :
            Nat.iter n (fun ptr => advance (maxMessageSize p) ptr (bufferAddr s e)
                                           (bufferSizeSlots s e)) (bufferAddr s e)
            = bufferAddr s e).
  { apply advance_cycle; try assumption; try lia. apply readEpReg_range. }
  repeat split.
  - intros ops s' Hstart Hrun Hcount.
    destruct (ringOps_pointers p e ops s s' Hrun) as (_ & _ & Hw & _).
    rewrite Hw, Hcount, Hstart. exact Hcycle.
  - intros ops s' Hstart Hrun Hcount.
    destruct (ringOps_pointers p e ops s s' Hrun) as (_ & _ & _ & Hr).
    rewrite Hr, Hcount, Hstart. exact Hcycle.
  - intros Hempty. apply produce_run. subst n. lia.
  - intros Hfull. apply consume_run. subst n. lia.
  - intros s0 s1 Hrun.
    destruct (Z_lt_le_dec (messageCount s0 e) (bufferSizeSlots s0 e)) as [Hlt | Hge].
    + rewrite (incrementWritePtr_ok p e s0 Hlt) in Hrun.
      injection Hrun as <-. apply produced_writePtr.
    + rewrite (incrementWritePtr_full p e s0 Hge) in Hrun. discriminate Hrun.
  - intros s0 s1 Hrun.
    destruct (Z.eq_dec (messageCount s0 e) 0) as [Hz | Hnz].
    + rewrite (incrementReadPtr_empty p e s0 Hz) in Hrun. discriminate Hrun.
    + assert (Hpos : 0 < messageCount s0 e)
        by (pose proof (messageCount_range e s0); lia).
      rewrite (incrementReadPtr_ok p e s0 Hpos) in Hrun.
      injection Hrun as <-. apply consumed_readPtr.
Qed.

(** C8. Consumer underflow.  When the control register holds an
    [INC_READ_PTR] command for a valid endpoint, dispatching it fails with
    [BufferUnderflow] and changes nothing if the endpoint's [messageCount]
    is 0; if [messageCount > 0] it succeeds, advances the read pointer by
    one slot and decrements [messageCount]. *)
Theorem consumer_underflow (p : DtuParams) (env : Collaborators) (s : Dtu) (e off : Z)
  (Hcmd : getCommand p (regFile s) = mkCommand INC_READ_PTR e off)
  (Hep : e < numEndpoints p) :
  (messageCount s e = 0 ->
   executeCommand p env s = (inl BufferUnderflow, s))
  /\ (0 < messageCount s e ->
      exists s',
        executeCommand p env s = (inr tt, s')
        /\ readPtr s' e = advance (maxMessageSize p) (readPtr s e)
                                  (bufferAddr s e) (bufferSizeSlots s e)
        /\ messageCount s' e = messageCount s e - 1
        /\ writePtr s' e = writePtr s e
        /\ issued s' = issued s).
Proof.
  assert (Hexec : executeCommand p env s = incrementReadPtr p e s).
  { rewrite executeCommand_decoded by (rewrite Hcmd; exact Hep).
    rewrite Hcmd. reflexivity. }
  rewrite Hexec. split.
  - apply incrementReadPtr_empty.
  - intros Hpos. exists (consumed p e s).
    split; [now apply incrementReadPtr_ok |].
    split; [apply consumed_readPtr |].
    split; [now apply consumed_messageCount |].
    destruct (consumed_frame p e s) as (_ & _ & Hw & Hi). auto.
Qed.

(** ** Failures of the two pipelines *)



Lemma startOperation_transmit (p : DtuParams) (env : Collaborators)
      (c : Command) (s : Dtu) :
  RegFile.readEpReg (regFile s) (epId c) MODE = TRANSMIT_MESSAGE ->
  startOperation p env c s = startMessageTransmission p env (epId c) s.
Proof.
  intros H. unfold startOperation, bind, readEpReg, gets at 1.
  rewrite H. reflexivity.
Qed.


Lemma frameEpId_setSenderState (p : DtuParams) (pkt : Packet) (st : list SenderState) :
  frameEpId p (setSenderState pkt st) = frameEpId p pkt.
Proof. reflexivity. Qed.

Lemma recvNocMessage_full (p : DtuParams) (env : Collaborators)
      (pkt : Packet) (s : Dtu) :
  messageCount s (frameEpId p pkt) = bufferSizeSlots s (frameEpId p pkt) ->
  recvNocMessage p env pkt s = (inl BufferOverflow, s).
Proof.
  intros H. unfold messageCount, bufferSizeSlots in H.
  unfold recvNocMessage, bind, readEpReg, gets, assert, fail.
  rewrite H, Z.eqb_refl. reflexivity.
Qed.

(** C6. Receive into a full buffer.  A frame addressed to an endpoint whose
    [messageCount] equals [bufferSizeSlots] makes [recvNocMessage] fail
    with [BufferOverflow]; so does [handleNocRequest] for a message frame
    (a write with data, tagged as a message).  The state at the failure is
    the state before the frame arrived: [messageCount] is unchanged and no
    scratchpad request was issued. *)
Theorem receive_full_buffer (p : DtuParams) (env : Collaborators)
        (pkt : Packet) (s : Dtu)
  (Hfull : messageCount s (frameEpId p pkt) = bufferSizeSlots s (frameEpId p pkt)) :
  recvNocMessage p env pkt s = (inl BufferOverflow, s)
  /\ (isError pkt = false -> isWrite pkt = true -> hasData pkt = true ->
      topTag pkt = Some (NocSenderState true false) ->
      handleNocRequest p env pkt s = (inl BufferOverflow, s))
  /\ messageCount (snd (recvNocMessage p env pkt s)) (frameEpId p pkt)
     = messageCount s (frameEpId p pkt)
  /\ spmRequests (snd (recvNocMessage p env pkt s)) = spmRequests s.
Proof.
  pose proof (recvNocMessage_full p env pkt s Hfull) as Hrecv.
  split; [exact Hrecv |]. split.
  - intros Herr Hwr Hdata Htag.
    unfold topTag in Htag.
    destruct (senderState pkt) as [| t rest] eqn:Est; [discriminate Htag |].
    injection Htag as ->.
    unfold handleNocRequest, bind, assert, popNocSenderState, ret, fail.
    rewrite Herr, Hwr, Hdata, Est. simpl.
    apply recvNocMessage_full. rewrite frameEpId_setSenderState. exact Hfull.
  - rewrite Hrecv. auto.
Qed.

(** ** Properties of everything a call issues *)

Section Keeps.

Variable ok : Action -> bool.

Lemma keeps_ret {A} (a : A) : keeps ok (ret a).
Proof. intros s H. exact H. Qed.

Lemma keeps_fail {A} (f : Failure) : keeps ok (@fail A f).
Proof. intros s H. exact H. Qed.

Lemma keeps_assert (b : bool) (f : Failure) : keeps ok (assert b f).
Proof. destruct b; [apply keeps_ret | apply keeps_fail]. Qed.

Lemma keeps_gets {A} (f : Dtu -> A) : keeps ok (gets f).
Proof. intros s H. exact H. Qed.

Lemma keeps_bind {A B} (m : M A) (k : A -> M B) :
  keeps ok m -> (forall a, keeps ok (k a)) -> keeps ok (bind m k).
Proof.
  intros Hm Hk s H. unfold bind.
  specialize (Hm s H). destruct (m s) as [[f | a] s1]; simpl in Hm.
  - exact Hm.
  - apply Hk. exact Hm.
Qed.

Lemma keeps_setDtuReg (r : DtuReg) (v : Z) : keeps ok (setDtuReg r v).
Proof. intros s H. exact H. Qed.

Lemma keeps_setEpReg (e : Z) (r : EpReg) (v : Z) : keeps ok (setEpReg e r v).
Proof. intros s H. exact H. Qed.

Lemma keeps_readEpReg (e : Z) (r : EpReg) : keeps ok (readEpReg e r).
Proof. apply keeps_gets. Qed.

Lemma keeps_issue (a : Action) : ok a = true -> keeps ok (issue a).
Proof.
  intros Ha s H. unfold allOk in *. simpl.
  apply Forall_app. split; [exact H |]. constructor; [exact Ha | constructor].
Qed.

Lemma keeps_same_issued {A} (m : M A) :
  (forall s, issued (snd (m s)) = issued s) -> keeps ok m.
Proof. intros Hm s H. unfold allOk in *. now rewrite Hm. Qed.

End Keeps.

(** One step of a proof that a body keeps [allOk]: through binds and
    branches, down to the actions it issues. *)
Ltac keeps_step :=
  lazymatch goal with
  | |- keeps _ (bind _ _) => apply keeps_bind; [| intros ?]
  | |- keeps _ (ret _) => apply keeps_ret
  | |- keeps _ (fail _) => apply keeps_fail
  | |- keeps _ (assert _ _) => apply keeps_assert
  | |- keeps _ (gets _) => apply keeps_gets
  | |- keeps _ (readEpReg _ _) => apply keeps_readEpReg
  | |- keeps _ (setDtuReg _ _) => apply keeps_setDtuReg
  | |- keeps _ (setEpReg _ _ _) => apply keeps_setEpReg
  | |- keeps _ (modify _) => apply keeps_same_issued; intros ?; reflexivity
  | |- keeps _ (issue _) => apply keeps_issue
  | |- keeps _ (if ?b then _ else _) => destruct b eqn:?
  | |- keeps _ (match ?x with _ => _ end) => destruct x
  end.

Section Tags.

Variable p : DtuParams.
Variable env : Collaborators.

Lemma generateRequest_keeps ok (a sz : Z) (c : MemCmd) :
  keeps ok (generateRequest p a sz c).
Proof. unfold generateRequest. repeat keeps_step. Qed.

Lemma incrementWritePtr_keeps ok (e : Z) : keeps ok (incrementWritePtr p e).
Proof. unfold incrementWritePtr. repeat keeps_step. Qed.

Lemma incrementReadPtr_keeps ok (e : Z) : keeps ok (incrementReadPtr p e).
Proof. unfold incrementReadPtr. repeat keeps_step. Qed.

Lemma finishMessageTransmission_keeps ok : keeps ok finishMessageTransmission.
Proof. unfold finishMessageTransmission. repeat keeps_step. Qed.

Lemma completeNocRequest_tags (pkt : Packet) :
  keeps wellTagged (completeNocRequest env pkt).
Proof.
  unfold completeNocRequest, schedule. repeat keeps_step. reflexivity.
Qed.

Lemma completeLocalSpmRequest_tags (pkt : Packet) :
  keeps wellTagged (completeLocalSpmRequest p env pkt).
Proof.
  unfold completeLocalSpmRequest.
  keeps_step; [keeps_step |]. do 4 (keeps_step; [keeps_step |]).
  keeps_step; [keeps_step |].
  keeps_step; [apply generateRequest_keeps |].
  cbv zeta. keeps_step.
  - unfold sendAtomicNocRequest.
    keeps_step; [| apply completeNocRequest_tags].
    repeat keeps_step. reflexivity.
  - unfold schedNocRequest. keeps_step. reflexivity.
Qed.

Lemma completeForwardedSpmRequest_tags (pkt : Packet) (e : Z) :
  keeps wellTagged (completeForwardedSpmRequest p env pkt e).
Proof.
  unfold completeForwardedSpmRequest, schedule, schedNocResponse.
  keeps_step; [keeps_step |]. keeps_step.
  - apply incrementWritePtr_keeps.
  - cbv zeta. repeat keeps_step; reflexivity.
Qed.

Lemma completeSpmRequest_tags (pkt : Packet) :
  keeps wellTagged (completeSpmRequest p env pkt).
Proof.
  unfold completeSpmRequest.
  do 2 (keeps_step; [keeps_step |]).
  apply keeps_bind; [| intros [pkt' [[e l] f]]].
  - unfold popSpmSenderState. repeat keeps_step.
  -
    do 2 (keeps_step; [keeps_step |]).
    keeps_step.
    + apply completeLocalSpmRequest_tags.
    + apply completeForwardedSpmRequest_tags.
Qed.

Lemma startMessageTransmission_tags (e : Z) :
  keeps wellTagged (startMessageTransmission p env e).
Proof.
  unfold startMessageTransmission.
  do 5 (keeps_step; [keeps_step |]).
  keeps_step; [apply generateRequest_keeps |].
  cbv zeta. keeps_step.
  - unfold sendAtomicSpmRequest.
    keeps_step; [| apply completeSpmRequest_tags].
    repeat keeps_step. reflexivity.
  - unfold schedSpmRequest. keeps_step. reflexivity.
Qed.

Lemma executeCommand_tags : keeps wellTagged (executeCommand p env).
Proof.
  unfold executeCommand.
  do 2 (keeps_step; [keeps_step |]).
  repeat keeps_step.
  - unfold startOperation. keeps_step; [keeps_step |].
    repeat keeps_step. apply startMessageTransmission_tags.
  - apply incrementReadPtr_keeps.
Qed.

Lemma recvNocMessage_tags (pkt : Packet) :
  keeps wellTagged (recvNocMessage p env pkt).
Proof.
  unfold recvNocMessage. cbv zeta.
  do 4 (keeps_step; [keeps_step |]).
  keeps_step.
  - unfold sendAtomicSpmRequest.
    keeps_step; [| apply completeSpmRequest_tags].
    repeat keeps_step. reflexivity.
  - unfold schedSpmRequest. keeps_step. reflexivity.
Qed.

Lemma handleNocRequest_tags (pkt : Packet) :
  keeps wellTagged (handleNocRequest p env pkt).
Proof.
  unfold handleNocRequest.
  do 3 (keeps_step; [keeps_step |]).
  apply keeps_bind; [| intros [pkt' [m r]]].
  - unfold popNocSenderState. repeat keeps_step.
  -
    do 2 (keeps_step; [keeps_step |]).
    keeps_step.
    + apply recvNocMessage_tags.
    + unfold recvNocMemoryRequest. keeps_step.
Qed.

Lemma handleCpuRequest_tags (pkt : Packet) :
  keeps wellTagged (handleCpuRequest p env pkt).
Proof.
  unfold handleCpuRequest. cbv zeta.
  apply keeps_bind; [| intros [pkt' written]].
  - apply keeps_same_issued. intros s.
    destruct (regFileHandleRequest env (regFile s) _) as [[rf pkt''] w].
    reflexivity.
  -
    unfold schedCpuResponse, schedule.
    keeps_step.
    + keeps_step; [keeps_step; reflexivity |].
      keeps_step; [| keeps_step].
      keeps_step; [keeps_step; reflexivity | keeps_step].
    + keeps_step; [| keeps_step].
      keeps_step; [apply executeCommand_tags | keeps_step].
Qed.

Lemma processEvent_tags (ev : Event) : keeps wellTagged (processEvent p env ev).
Proof.
  destruct ev; simpl.
  - apply executeCommand_tags.
  - apply finishMessageTransmission_keeps.
  - keeps_step; [keeps_step | apply incrementWritePtr_keeps].
Qed.

Lemma deliver_tags (a : Action) : keeps wellTagged (deliver p env a).
Proof.
  destruct a; simpl; try apply keeps_ret.
  - apply completeSpmRequest_tags.
  - apply completeNocRequest_tags.
  - apply processEvent_tags.
Qed.

Lemma run_tags (fuel : nat) : forall next, keeps wellTagged (run p env fuel next).
Proof.
  induction fuel as [| fuel IH]; intros next; simpl.
  - apply keeps_ret.
  - apply keeps_bind; [keeps_step | intros [a |]]; [| apply keeps_ret].
    keeps_step; [apply deliver_tags | apply IH].
Qed.

End Tags.

(** ** The two completion entry points and their tags *)

Lemma completeSpmRequest_dispatch (p : DtuParams) (env : Collaborators)
      (pkt : Packet) (s : Dtu) (e : Z) (l f : bool) (rest : list SenderState) :
  isError pkt = false ->
  isResponse pkt = true ->
  senderState pkt = SpmSenderState e l f :: rest ->
  completeSpmRequest p env pkt s
  = (if xorb l f
     then if l then completeLocalSpmRequest p env (setSenderState pkt rest)
          else completeForwardedSpmRequest p env (setSenderState pkt rest) e
     else fail TagNotExclusive) s.
Proof.
  intros Herr Hresp Htag.
  unfold completeSpmRequest, bind, assert, popSpmSenderState, ret, fail.
  rewrite Herr, Hresp, Htag. destruct l, f; reflexivity.
Qed.

Lemma handleNocRequest_dispatch (p : DtuParams) (env : Collaborators)
      (pkt : Packet) (s : Dtu) (m r : bool) (rest : list SenderState) :
  isError pkt = false ->
  isWrite pkt = true ->
  hasData pkt = true ->
  senderState pkt = NocSenderState m r :: rest ->
  handleNocRequest p env pkt s
  = (if xorb m r
     then if m then recvNocMessage p env (setSenderState pkt rest)
          else recvNocMemoryRequest (setSenderState pkt rest)
     else fail TagNotExclusive) s.
Proof.
  intros Herr Hwr Hdata Htag.
  unfold handleNocRequest, bind, assert, popNocSenderState, ret, fail.
  rewrite Herr, Hwr, Hdata, Htag. destruct m, r; reflexivity.
Qed.

Lemma completeSpmRequest_exclusive (p : DtuParams) (env : Collaborators)
      (pkt : Packet) (s s' : Dtu) :
  completeSpmRequest p env pkt s = (inr tt, s') ->
  exists e l f rest,
    senderState pkt = SpmSenderState e l f :: rest /\ xorb l f = true.
Proof.
  unfold completeSpmRequest, bind, assert, popSpmSenderState, ret, fail.
  destruct (isError pkt); [discriminate |].
  destruct (isResponse pkt); [| discriminate].
  destruct (senderState pkt) as [| [e l f | m r] rest]; try discriminate.
  destruct l, f; try discriminate; intros _;
    [exists e, true, false, rest | exists e, false, true, rest]; now split.
Qed.

Lemma handleNocRequest_exclusive (p : DtuParams) (env : Collaborators)
      (pkt : Packet) (s s' : Dtu) :
  handleNocRequest p env pkt s = (inr tt, s') ->
  exists m r rest,
    senderState pkt = NocSenderState m r :: rest /\ xorb m r = true.
Proof.
  unfold handleNocRequest, bind, assert, popNocSenderState, ret, fail.
  destruct (isError pkt); [discriminate |].
  destruct (isWrite pkt); [| discriminate].
  destruct (hasData pkt); [| discriminate].
  destruct (senderState pkt) as [| [e l f | m r] rest]; try discriminate.
  destruct m, r; try discriminate; intros _.
  exists true, false, rest. now split.
Qed.

(** C9. Tag exclusivity.  A scratchpad completion that goes through had a
    tag with exactly one of [isLocalRequest], [isForwardedRequest] set, and
    a network request that goes through had one with exactly one of
    [isMessage], [isMemoryRequest] set; a tag with both or neither flag is
    refused with the state untouched.  The entry point takes the tag off
    the packet once and continues, on the packet without it, with the leg
    the tag names.  Every entry point of the unit leaves the issued
    scratchpad and network requests carrying such a tag on top. *)
Theorem tag_exclusivity (p : DtuParams) (env : Collaborators) :
  (forall pkt s s',
      completeSpmRequest p env pkt s = (inr tt, s') ->
      exists e l f rest,
        senderState pkt = SpmSenderState e l f :: rest /\ xorb l f = true)
  /\ (forall pkt s s',
      handleNocRequest p env pkt s = (inr tt, s') ->
      exists m r rest,
        senderState pkt = NocSenderState m r :: rest /\ xorb m r = true)
  /\ (forall pkt s e l f rest,
      isError pkt = false -> isResponse pkt = true ->
      senderState pkt = SpmSenderState e l f :: rest ->
      completeSpmRequest p env pkt s
      = match l, f with
        | true, false => completeLocalSpmRequest p env (setSenderState pkt rest) s
        | false, true => completeForwardedSpmRequest p env (setSenderState pkt rest) e s
        | _, _ => (inl TagNotExclusive, s)
        end)
  /\ (forall pkt s m r rest,
      isError pkt = false -> isWrite pkt = true -> hasData pkt = true ->
      senderState pkt = NocSenderState m r :: rest ->
      handleNocRequest p env pkt s
      = match m, r with
        | true, false => recvNocMessage p env (setSenderState pkt rest) s
        | false, true => recvNocMemoryRequest (setSenderState pkt rest) s
        | _, _ => (inl TagNotExclusive, s)
        end)
  /\ (forall s,
      allOk wellTagged s ->
      allOk wellTagged (snd (executeCommand p env s))
      /\ (forall pkt, allOk wellTagged (snd (handleCpuRequest p env pkt s)))
      /\ (forall pkt, allOk wellTagged (snd (handleNocRequest p env pkt s)))
      /\ (forall pkt, allOk wellTagged (snd (completeSpmRequest p env pkt s)))
      /\ (forall pkt, allOk wellTagged (snd (completeNocRequest env pkt s)))
      /\ (forall ev, allOk wellTagged (snd (processEvent p env ev s)))
      /\ (forall fuel next, allOk wellTagged (snd (run p env fuel next s)))).
Proof.
  split; [apply completeSpmRequest_exclusive |].
  split; [apply handleNocRequest_exclusive |].
  split.
  { intros pkt s e l f rest Herr Hresp Htag.
    rewrite (completeSpmRequest_dispatch p env pkt s e l f rest Herr Hresp Htag).
    destruct l, f; reflexivity. }
  split.
  { intros pkt s m r rest Herr Hwr Hdata Htag.
    rewrite (handleNocRequest_dispatch p env pkt s m r rest Herr Hwr Hdata Htag).
    destruct m, r; reflexivity. }
  intros s Hs.
  split; [now apply executeCommand_tags |].
  split; [intros pkt; now apply handleCpuRequest_tags |].
  split; [intros pkt; now apply handleNocRequest_tags |].
  split; [intros pkt; now apply completeSpmRequest_tags |].
  split; [intros pkt; now apply completeNocRequest_tags |].
  split; [intros ev; now apply processEvent_tags |].
  intros fuel next. now apply run_tags.
Qed.

(** ** Requests of the local core *)

(** C10. Address rebasing in [handleCpuRequest].  The register file is
    applied to the packet with its address reduced by [cpuBaseAddr]; the
    packet that is answered carries the original address again: in timed
    mode the one response scheduled to the core has the original address,
    and in both modes the packet handed back has it. *)
Theorem cpu_request_address_restored (p : DtuParams) (env : Collaborators)
        (pkt : Packet) (s : Dtu) :
  let rebased := setAddr pkt (wrap64 (addr pkt - cpuBaseAddr p)) in
  let seen := regFileHandleRequest env (regFile s) rebased in
  let rf' := fst (fst seen) in
  let pkt' := setAddr (snd (fst seen)) (addr pkt) in
  let written := snd seen in
  let s1 := mkDtu rf' (incrementWritePtrEvent_epId s) (issued s) in
  addr rebased = wrap64 (addr pkt - cpuBaseAddr p)
  /\ (forall resp s',
      handleCpuRequest p env pkt s = (inr resp, s') -> addr resp = addr pkt)
  /\ (atomicMode p = false ->
      exists resp d,
        handleCpuRequest p env pkt s
        = (inr resp,
           mkDtu rf' (incrementWritePtrEvent_epId s)
                 (issued s ++ [SchedCpuResponse resp d]
                    ++ (if written then [Schedule ExecuteCommandEvent d] else [])))
        /\ resp = setPayloadDelay (setHeaderDelay pkt' 0) 0
        /\ addr resp = addr pkt)
  /\ (atomicMode p = true ->
      handleCpuRequest p env pkt s
      = if written
        then (executeCommand p env ;; ret pkt') s1
        else (inr pkt', s1)).
Proof.
  intros rebased seen rf' pkt' written s1.
  assert (Hrun : handleCpuRequest p env pkt s
                 = (if negb (atomicMode p)
                    then
                      let d := wrap64 (ticksToCycles env
                                         (wrap64 (headerDelay pkt' + payloadDelay pkt'))
                                       + registerAccessLatency p) in
                      let resp := setPayloadDelay (setHeaderDelay pkt' 0) 0 in
                      schedCpuResponse resp d ;;
                      (if written then schedule ExecuteCommandEvent d else ret tt) ;;
                      ret resp
                    else if written then executeCommand p env ;; ret pkt'
                         else ret pkt') s1).
  { unfold handleCpuRequest, bind at 1.
    subst s1 pkt' written rf' seen rebased.
    destruct (regFileHandleRequest env (regFile s) _) as [[rf0 pkt0] w].
    reflexivity. }
  split; [reflexivity |]. split; [| split].
  - intros resp s' H. rewrite Hrun in H.
    destruct (atomicMode p); cbn [negb] in H; cbv beta iota zeta in H.
    + destruct written.
      * unfold bind, ret in H.
        destruct (executeCommand p env s1) as [[f | u] s2];
          cbv beta iota in H; [discriminate H |].
        injection H as <- _. reflexivity.
      * injection H as <- _. reflexivity.
    + unfold bind, schedCpuResponse, schedule, issue, modify, ret in H.
      destruct written; injection H as <- _; reflexivity.
  - intros Hmode. rewrite Hrun, Hmode. cbn [negb]. cbv beta iota zeta.
    eexists. eexists. split; [| split; reflexivity].
    unfold bind, schedCpuResponse, schedule, issue, modify, ret.
    destruct written; simpl; rewrite <- ?app_assoc; reflexivity.
  - intros Hmode. rewrite Hrun, Hmode. cbn [negb]. cbv beta iota.
    destruct written; reflexivity.
Qed.

(** ** The transmit pipeline, leg by leg *)

Lemma startMessageTransmission_issue (p : DtuParams) (env : Collaborators)
      (e : Z) (s : Dtu) :
  widthsFit p ->
  0 < RegFile.readEpReg (regFile s) e MESSAGE_SIZE ->
  wrap64 (RegFile.readEpReg (regFile s) e MESSAGE_SIZE + sizeofMessageHeader)
    < maxMessageSize p ->
  startMessageTransmission p env e s
  = (let req := readRequest p e (RegFile.readEpReg (regFile s) e MESSAGE_ADDR)
                            (RegFile.readEpReg (regFile s) e MESSAGE_SIZE) in
     if atomicMode p then
       pkt' <- sendAtomicSpmRequest env req ;; completeSpmRequest p env pkt'
     else schedSpmRequest req (commandToSpmRequestLatency p)) (busy s).
Proof.
  intros Hw Hpos Hlt.
  apply Z.leb_le in Hw. apply Z.ltb_lt in Hpos. apply Z.ltb_lt in Hlt.
  unfold startMessageTransmission, generateRequest.
  unfold bind, readEpReg, gets, assert, setDtuReg, modify, ret, fail.
  rewrite Hpos, Hlt, Hw. reflexivity.
Qed.

Lemma completeLocalSpmRequest_issue (p : DtuParams) (env : Collaborators)
      (e : Z) (pkt : Packet) (s : Dtu) :
  widthsFit p ->
  isRead pkt = true ->
  epId (getCommand p (regFile s)) = e ->
  size pkt = wrap32 (RegFile.readEpReg (regFile s) e MESSAGE_SIZE) ->
  completeLocalSpmRequest p env pkt s
  = (let frame := messageFrame p env e (regFile s) pkt in
     if atomicMode p then
       nocPkt' <- sendAtomicNocRequest env frame ;; completeNocRequest env nocPkt'
     else
       schedNocRequest frame
         (wrap64 (spmResponseToNocRequestLatency p
                  + ticksToCycles env (headerDelay pkt)))) s.
Proof.
  intros Hw Hrd He Hsz.
  apply Z.leb_le in Hw. apply Z.eqb_eq in Hsz.
  unfold completeLocalSpmRequest, generateRequest.
  unfold bind, readEpReg, gets, assert, ret, fail.
  rewrite Hrd, He, Hsz, Hw. reflexivity.
Qed.

Lemma getCommand_busy (p : DtuParams) (s : Dtu) :
  getCommand p (regFile (busy s)) = getCommand p (regFile s).
Proof. reflexivity. Qed.

(** Delivery of the issued actions, one position at a time. *)
Lemma run_step (p : DtuParams) (env : Collaborators) (fuel next : nat)
      (s : Dtu) (a : Action) :
  nth_error (issued s) next = Some a ->
  run p env (S fuel) next s = (deliver p env a ;; run p env fuel (S next)) s.
Proof.
  intros H. simpl. unfold bind at 1, gets. rewrite H. reflexivity.
Qed.

Lemma run_done (p : DtuParams) (env : Collaborators) (fuel next : nat) (s : Dtu) :
  nth_error (issued s) next = None ->
  run p env fuel next s = (inr tt, s).
Proof.
  intros H. destruct fuel; [reflexivity |].
  simpl. unfold bind, gets. rewrite H. reflexivity.
Qed.

Lemma nth_error_past {A} (l r : list A) (k : nat) :
  nth_error (l ++ r) (k + length l) = nth_error r k.
Proof.
  rewrite nth_error_app2 by lia. f_equal. lia.
Qed.

Lemma collect_app {A B} (f : A -> option B) (l r : list A) :
  collect f (l ++ r) = collect f l ++ collect f r.
Proof.
  induction l as [| a l IH]; simpl; [reflexivity |].
  destruct (f a); simpl; now rewrite IH.
Qed.

Section TransmitHappyPath.

Variable p : DtuParams.
Variable env : Collaborators.
Variable s : Dtu.
Variables e off : Z.

Hypothesis Hwidths : widthsFit p.
Hypothesis Hcmd : getCommand p (regFile s) = mkCommand START_OPERATION e off.
Hypothesis Hep : e < numEndpoints p.
Hypothesis Hmode : RegFile.readEpReg (regFile s) e MODE = TRANSMIT_MESSAGE.
Hypothesis Haddr : RegFile.readEpReg (regFile s) e MESSAGE_ADDR = 0x1000.
Hypothesis Hsize : RegFile.readEpReg (regFile s) e MESSAGE_SIZE = 64.
Hypothesis Hmax : 68 < maxMessageSize p.
Hypothesis Hspm : spmAnswersReads env.

Let req := readRequest p e 0x1000 64.
Let resp := spmAccess env req.
Let frame := messageFrame p env e (regFile s) (setSenderState resp []).
Let finish := Schedule FinishMessageTransmissionEvent
                (ticksToCycles env
                   (wrap64 (headerDelay (nocAccess env frame)
                            + payloadDelay (nocAccess env frame)))).

Lemma happy_resp :
  isError resp = false /\ isResponse resp = true /\ isRead resp = true
  /\ senderState resp = [SpmSenderState e true false]
  /\ size resp = 64 /\ length (data resp) = 64%nat.
Proof.
  destruct (Hspm req eq_refl) as (Hc & He & Hs & Ht & Hl).
  fold resp in Hc, He, Hs, Ht, Hl.
  unfold isResponse, isRead. rewrite Hc, He, Hs, Ht, Hl.
  repeat split; reflexivity.
Qed.

Lemma happy_start :
  executeCommand p env s
  = (if atomicMode p then
       pkt' <- sendAtomicSpmRequest env req ;; completeSpmRequest p env pkt'
     else schedSpmRequest req (commandToSpmRequestLatency p)) (busy s).
Proof.
  rewrite executeCommand_decoded by (rewrite Hcmd; exact Hep).
  rewrite Hcmd. cbn [opcode epId].
  change (START_OPERATION =? IDLE) with false.
  change (START_OPERATION =? START_OPERATION) with true. cbv iota.
  rewrite startOperation_transmit by exact Hmode. cbn [epId].
  rewrite startMessageTransmission_issue;
    [| exact Hwidths | rewrite Hsize; reflexivity
     | rewrite Hsize; unfold sizeofMessageHeader;
       rewrite wrap64_small; [exact Hmax | lia]].
  rewrite Haddr, Hsize. reflexivity.
Qed.

(** The second leg: the completion of the scratchpad read, in any state
    that has the registers of [busy s]. *)
Lemma happy_completion (l : list Action) :
  completeSpmRequest p env resp
    (mkDtu (regFile (busy s)) (incrementWritePtrEvent_epId s) l)
  = (if atomicMode p then
       nocPkt' <- sendAtomicNocRequest env frame ;; completeNocRequest env nocPkt'
     else
       schedNocRequest frame
         (wrap64 (spmResponseToNocRequestLatency p
                  + ticksToCycles env (headerDelay resp))))
      (mkDtu (regFile (busy s)) (incrementWritePtrEvent_epId s) l).
Proof.
  destruct happy_resp as (Herr & Hresp & Hrd & Htag & Hsz & _).
  rewrite (completeSpmRequest_dispatch p env resp _ e true false [] Herr Hresp Htag).
  change (xorb true false) with true. cbv iota.
  rewrite (completeLocalSpmRequest_issue p env e).
  - reflexivity.
  - exact Hwidths.
  - exact Hrd.
  - cbn [regFile]. rewrite getCommand_busy, Hcmd. reflexivity.
  - cbn [regFile]. change (size (setSenderState resp [])) with (size resp).
    rewrite Hsz.
    change (RegFile.readEpReg (regFile (busy s)) e MESSAGE_SIZE)
      with (RegFile.readEpReg (regFile s) e MESSAGE_SIZE).
    rewrite Hsize. reflexivity.
Qed.

Lemma happy_frame :
  addr frame
  = getNocAddr env (wrap32 (RegFile.readEpReg (regFile s) e TARGET_COREID))
               (wrap32 (RegFile.readEpReg (regFile s) e TARGET_EPID))
  /\ size frame = 68
  /\ cmd frame = WriteReq
  /\ length (data frame) = 68%nat
  /\ data frame = messageHeaderBytes (coreId p) e 64 ++ firstn 64 (data resp).
Proof.
  destruct happy_resp as (_ & _ & _ & _ & _ & Hlen).
  assert (Hdata : data frame
                  = messageHeaderBytes (coreId p) e 64 ++ firstn 64 (data resp)).
  { unfold frame, messageFrame. rewrite Hsize. cbn [data].
    change (wrap32 64) with 64.
    change (data (setSenderState resp [])) with (data resp).
    change (Z.to_nat 64) with 64%nat.
    replace (skipn _ _) with (@nil Z) by (vm_compute; reflexivity).
    now rewrite app_nil_r. }
  split; [reflexivity |].
  split; [unfold frame, messageFrame; rewrite Hsize; reflexivity |].
  split; [reflexivity |].
  split; [| exact Hdata].
  rewrite Hdata, length_app, length_firstn, Hlen. reflexivity.
Qed.

Lemma happy_start_atomic :
  atomicMode p = true ->
  executeCommand p env s
  = (inr tt,
     mkDtu (regFile (busy s)) (incrementWritePtrEvent_epId s)
           (issued s ++ [SendAtomicSpmRequest req; SendAtomicNocRequest frame;
                         finish])).
Proof.
  intros Hat. rewrite happy_start, Hat.
  unfold sendAtomicSpmRequest, bind at 1 2, issue, modify, ret.
  match goal with
  | |- _ = ?rhs =>
      change (completeSpmRequest p env resp
                (mkDtu (regFile (busy s)) (incrementWritePtrEvent_epId s)
                       (issued s ++ [SendAtomicSpmRequest req])) = rhs)
  end.
  rewrite happy_completion, Hat.
  unfold sendAtomicNocRequest, completeNocRequest, schedule, bind, issue,
    modify, ret.
  cbn [regFile incrementWritePtrEvent_epId issued].
  rewrite <- !app_assoc. reflexivity.
Qed.

Lemma happy_start_timed :
  atomicMode p = false ->
  executeCommand p env s
  = (inr tt,
     mkDtu (regFile (busy s)) (incrementWritePtrEvent_epId s)
           (issued s ++ [SchedSpmRequest req (commandToSpmRequestLatency p)])).
Proof.
  intros Hat. rewrite happy_start, Hat. reflexivity.
Qed.

(** Delivery once all three actions of the transmission are issued and the
    first two are completed: the finish event runs and nothing is left. *)
Lemma happy_finish (f : nat) (a b : Action) :
  run p env (S f) (2 + length (issued s))
      (mkDtu (regFile (busy s)) (incrementWritePtrEvent_epId s)
             (issued s ++ [a; b; finish]))
  = (inr tt,
     mkDtu (finished (regFile (busy s))) (incrementWritePtrEvent_epId s)
           (issued s ++ [a; b; finish])).
Proof.
  rewrite (run_step p env f _ _ finish)
    by exact (nth_error_past (issued s) [a; b; finish] 2).
  unfold bind at 1. cbn [deliver finish processEvent].
  unfold finishMessageTransmission, bind, setDtuReg, modify.
  cbn [regFile incrementWritePtrEvent_epId issued].
  apply run_done.
  exact (nth_error_past (issued s) [a; b; finish] 3).
Qed.

(** C3. Transmit happy path.  Let endpoint [e] be configured
    [TRANSMIT_MESSAGE] with [messageAddr = 0x1000] and [messageSize = 64],
    let the control register hold [START_OPERATION] on [e], and let
    [maxMessageSize] exceed [68].  Executing the command and delivering
    what it issues (in atomic or in timed mode) succeeds and adds exactly
    one scratchpad request, a read of 64 bytes at [0x1000], and exactly one
    network request, a write of [4 + 64 = 68] bytes addressed to
    [getNocAddr(targetCoreId, targetEpId)] whose data is the 4-byte header
    [{coreId, e, 64}] followed by the 64 bytes read; once the network
    request is acknowledged and the finish event has run, the control
    register is 0 and the busy flag is cleared. *)
Theorem transmit_happy_path (fuel : nat) (Hfuel : (3 <= fuel)%nat) :
  exists s',
    (executeCommand p env ;; run p env fuel (length (issued s))) s = (inr tt, s')
    /\ spmRequests s' = spmRequests s ++ [req]
    /\ (addr req = 0x1000 /\ size req = 64 /\ cmd req = ReadReq)
    /\ nocRequests s' = nocRequests s ++ [frame]
    /\ (addr frame
        = getNocAddr env (wrap32 (RegFile.readEpReg (regFile s) e TARGET_COREID))
                     (wrap32 (RegFile.readEpReg (regFile s) e TARGET_EPID))
        /\ size frame = 68
        /\ cmd frame = WriteReq
        /\ length (data frame) = 68%nat
        /\ data frame = messageHeaderBytes (coreId p) e 64 ++ firstn 64 (data resp))
    /\ RegFile.readDtuReg (regFile s') COMMAND = 0
    /\ RegFile.readDtuReg (regFile s') STATUS = 0.
Proof.
  destruct fuel as [| [| [| f]]]; try lia. clear Hfuel.
  destruct (atomicMode p) eqn:Hat.
  - exists (mkDtu (finished (regFile (busy s))) (incrementWritePtrEvent_epId s)
                  (issued s ++ [SendAtomicSpmRequest req;
                                SendAtomicNocRequest frame; finish])).
    split.
    + unfold bind at 1. rewrite (happy_start_atomic Hat).
      rewrite (run_step p env _ _ _ (SendAtomicSpmRequest req))
        by exact (nth_error_past (issued s) [_; _; _] 0).
      unfold bind at 1. cbn [deliver]. unfold ret at 1.
      rewrite (run_step p env _ _ _ (SendAtomicNocRequest frame))
        by exact (nth_error_past (issued s) [_; _; _] 1).
      unfold bind at 1. cbn [deliver]. unfold ret at 1.
      apply happy_finish.
    + unfold spmRequests, nocRequests. cbn [issued regFile].
      rewrite !collect_app.
      repeat split; try reflexivity; apply happy_frame.
  - exists (mkDtu (finished (regFile (busy s))) (incrementWritePtrEvent_epId s)
                  (issued s
                     ++ [SchedSpmRequest req (commandToSpmRequestLatency p);
                         SchedNocRequest frame
                           (wrap64 (spmResponseToNocRequestLatency p
                                    + ticksToCycles env (headerDelay resp)));
                         finish])).
    split.
    + unfold bind at 1. rewrite (happy_start_timed Hat).
      rewrite (run_step p env _ _ _
                 (SchedSpmRequest req (commandToSpmRequestLatency p)))
        by exact (nth_error_past (issued s) [_] 0).
      unfold bind at 1. cbn [deliver]. fold resp.
      rewrite happy_completion, Hat.
      unfold schedNocRequest, issue, modify.
      cbn [regFile incrementWritePtrEvent_epId issued].
      rewrite <- app_assoc. cbn [app].
      rewrite (run_step p env _ _ _
                 (SchedNocRequest frame
                    (wrap64 (spmResponseToNocRequestLatency p
                             + ticksToCycles env (headerDelay resp)))))
        by exact (nth_error_past (issued s) [_; _] 1).
      unfold bind at 1. cbn [deliver].
      unfold completeNocRequest, schedule, issue, modify.
      cbn [regFile incrementWritePtrEvent_epId issued].
      rewrite <- app_assoc. cbn [app].
      apply happy_finish.
    + unfold spmRequests, nocRequests. cbn [issued regFile].
      rewrite !collect_app.
      repeat split; try reflexivity; apply happy_frame.
Qed.

End TransmitHappyPath.

(** ** The decoder against the register layout *)

Lemma sint32_small (x : Z) : - 2 ^ 31 <= x < 2 ^ 31 -> sint32 x = x.
Proof. intros H. unfold sint32. rewrite Z.mod_small; lia. Qed.

Lemma wrap32_small (x : Z) : 0 <= x < 2 ^ 32 -> wrap32 x = x.
Proof. intros H. unfold wrap32. now apply Z.mod_small. Qed.

(** A field mask in place selects the field in place. *)
Lemma land_field (x lo w : Z) :
  0 <= lo -> 0 <= w ->
  Z.land x (Z.shiftl (Z.ones w) lo) = Z.shiftl ((x / 2 ^ lo) mod 2 ^ w) lo.
Proof.
  intros Hlo Hw.
  rewrite <- Z.land_ones, <- Z.shiftr_div_pow2 by assumption.
  apply Z.bits_inj'. intros n Hn.
  rewrite Z.land_spec.
  destruct (Z_lt_le_dec n lo) as [Hlt | Hge].
  - rewrite !Z.shiftl_spec_low by assumption. apply andb_false_r.
  - rewrite !Z.shiftl_spec by assumption.
    rewrite Z.land_spec, Z.shiftr_spec by lia.
    f_equal. f_equal. lia.
Qed.

(** What [getCommand] makes of a register laid out as the specification
    says, when the three fields fit an [int]: the opcode and the offset
    come back, the endpoint id comes back shifted by the difference of the
    two low widths. *)
Lemma getCommand_encodeCommand (p : DtuParams) (c : Command) (rf : RegFile.t) :
  0 <= numCmdOpcodeBits p -> 0 <= numCmdEpidBits p -> 0 <= numCmdOffsetBits p ->
  numCmdOpcodeBits p + numCmdEpidBits p + numCmdOffsetBits p < 31 ->
  0 <= opcode c < 2 ^ numCmdOpcodeBits p ->
  0 <= epId c < 2 ^ numCmdEpidBits p ->
  0 <= offset c < 2 ^ numCmdOffsetBits p ->
  RegFile.readDtuReg rf COMMAND = encodeCommand p c ->
  getCommand p rf
  = mkCommand (opcode c)
              (epId c * 2 ^ numCmdOpcodeBits p / 2 ^ numCmdEpidBits p)
              (offset c).
Proof.
  destruct c as [op ep off]. cbn [opcode epId offset].
  set (A := numCmdOpcodeBits p). set (B := numCmdEpidBits p).
  set (C := numCmdOffsetBits p).
  intros HA HB HC Hsum Hop Hep Hoff Hreg.
  assert (HP : 0 < 2 ^ A) by (apply Z.pow_pos_nonneg; lia).
  assert (HQ : 0 < 2 ^ B) by (apply Z.pow_pos_nonneg; lia).
  assert (HR : 0 < 2 ^ C) by (apply Z.pow_pos_nonneg; lia).
  assert (HPQ : 2 ^ (A + B) = 2 ^ A * 2 ^ B) by (apply Z.pow_add_r; lia).
  assert (Hall : 2 ^ A * 2 ^ B * 2 ^ C <= 2 ^ 30).
  { rewrite <- !Z.pow_add_r by lia. apply Z.pow_le_mono_r; lia. }
  assert (HPb : 2 ^ A <= 2 ^ 30) by (apply Z.pow_le_mono_r; lia).
  assert (HQb : 2 ^ B <= 2 ^ 30) by (apply Z.pow_le_mono_r; lia).
  assert (HRb : 2 ^ C <= 2 ^ 30) by (apply Z.pow_le_mono_r; lia).
  assert (HPQb : 2 ^ A * 2 ^ B <= 2 ^ 30).
  { rewrite <- Z.pow_add_r by lia. apply Z.pow_le_mono_r; lia. }
  assert (Hx : encodeCommand p (mkCommand op ep off)
               = op + ep * 2 ^ A + off * (2 ^ A * 2 ^ B)).
  { unfold encodeCommand. cbn [opcode epId offset]. fold A B. now rewrite HPQ. }
  assert (Hmask1 : opcodeMask p = Z.ones A).
  { unfold opcodeMask, int_shl. fold A.
    rewrite Z.shiftl_mul_pow2, Z.mul_1_l by lia.
    rewrite Z.ones_equiv, <- Z.sub_1_r.
    rewrite (sint32_small (2 ^ A)) by lia.
    rewrite (sint32_small (2 ^ A - 1)) by lia.
    apply wrap64_small. lia. }
  assert (Hmask2 : epidMask p = Z.shiftl (Z.ones B) A).
  { unfold epidMask, int_shl. fold A B.
    rewrite (Z.shiftl_mul_pow2 1), Z.mul_1_l by lia.
    rewrite Z.ones_equiv, <- Z.sub_1_r.
    rewrite (sint32_small (2 ^ B)) by nia.
    rewrite (sint32_small (2 ^ B - 1)) by nia.
    rewrite Z.shiftl_mul_pow2 by lia.
    rewrite sint32_small by nia. apply wrap64_small. nia. }
  assert (Hmask3 : offsetMask p = Z.shiftl (Z.ones C) (A + B)).
  { unfold offsetMask, int_shl. fold A B C.
    rewrite (wrap32_small (A + B)) by lia.
    rewrite (Z.shiftl_mul_pow2 1), Z.mul_1_l by lia.
    rewrite Z.ones_equiv, <- Z.sub_1_r.
    rewrite (sint32_small (2 ^ C)) by nia.
    rewrite (sint32_small (2 ^ C - 1)) by nia.
    rewrite Z.shiftl_mul_pow2 by lia. rewrite HPQ.
    rewrite sint32_small by nia. apply wrap64_small. nia. }
  unfold getCommand. rewrite Hreg, Hx, Hmask1, Hmask2, Hmask3. fold A B.
  assert (Hlow : (op + ep * 2 ^ A + off * (2 ^ A * 2 ^ B)) mod 2 ^ A = op).
  { replace (op + ep * 2 ^ A + off * (2 ^ A * 2 ^ B))
      with (op + (ep + off * 2 ^ B) * 2 ^ A) by ring.
    rewrite Z.mod_add by lia. apply Z.mod_small. lia. }
  assert (Hmid : ((op + ep * 2 ^ A + off * (2 ^ A * 2 ^ B)) / 2 ^ A) mod 2 ^ B = ep).
  { replace (op + ep * 2 ^ A + off * (2 ^ A * 2 ^ B))
      with (op + (ep + off * 2 ^ B) * 2 ^ A) by ring.
    rewrite Z.div_add by lia. rewrite (Z.div_small op) by lia.
    rewrite Z.add_0_l, Z.mod_add by lia. apply Z.mod_small. lia. }
  assert (Hhigh : ((op + ep * 2 ^ A + off * (2 ^ A * 2 ^ B)) / 2 ^ (A + B)) mod 2 ^ C
                  = off).
  { rewrite HPQ. rewrite Z.div_add by nia.
    rewrite (Z.div_small (op + ep * 2 ^ A)) by nia.
    rewrite Z.add_0_l. apply Z.mod_small. lia. }
  rewrite Z.land_ones, Hlow by lia.
  rewrite (land_field _ A B), Hmid by lia.
  rewrite (land_field _ (A + B) C), Hhigh by lia.
  rewrite (wrap32_small (B + A)) by lia.
  rewrite (Z.shiftl_mul_pow2 ep), (Z.shiftl_mul_pow2 off) by lia.
  rewrite !Z.shiftr_div_pow2 by lia.
  replace (B + A) with (A + B) by lia.
  rewrite (Z.div_mul off) by lia.
  assert (Hq : 0 <= ep * 2 ^ A / 2 ^ B <= ep * 2 ^ A).
  { split; [apply Z.div_pos; nia |].
    apply Z.div_le_upper_bound; nia. }
  rewrite !wrap32_small by nia. reflexivity.
Qed.

(** With equal widths for the opcode and the endpoint id the decoder
    inverts the layout. *)
Lemma getCommand_encodeCommand_equal_widths
      (p : DtuParams) (c : Command) (rf : RegFile.t) :
  numCmdEpidBits p = numCmdOpcodeBits p ->
  0 <= numCmdOpcodeBits p -> 0 <= numCmdOffsetBits p ->
  numCmdOpcodeBits p + numCmdEpidBits p + numCmdOffsetBits p < 31 ->
  0 <= opcode c < 2 ^ numCmdOpcodeBits p ->
  0 <= epId c < 2 ^ numCmdEpidBits p ->
  0 <= offset c < 2 ^ numCmdOffsetBits p ->
  RegFile.readDtuReg rf COMMAND = encodeCommand p c ->
  getCommand p rf = c.
Proof.
  intros Heq HA HC Hsum Hop Hep Hoff Hreg.
  rewrite (getCommand_encodeCommand p c rf) by (assumption || lia).
  rewrite Heq, Z.div_mul by (apply Z.pow_nonzero; lia).
  destruct c; reflexivity.
Qed.

(** ** The decoder and the atomic mode on sample inputs *)

(** C1. Command round-trip, at two opcode bits and eight endpoint bits:
    the command [{START_OPERATION, epId = 3, offset = 0}] is laid out as
    the register value 13, and [getCommand] decodes that value to endpoint
    0, because it shifts the endpoint field right by [numCmdEpidBits]
    where the field starts at bit [numCmdOpcodeBits]. *)
Theorem getCommand_shifts_epId_by_its_width :
  let c := mkCommand START_OPERATION 3 0 in
  let rf := regFile (demoDtu (encodeCommand wideEpidParams c) 0) in
  epId c < numEndpoints wideEpidParams
  /\ encodeCommand wideEpidParams c = 13
  /\ getCommand wideEpidParams rf = mkCommand START_OPERATION 0 0
  /\ getCommand wideEpidParams rf <> c.
Proof.
  vm_compute. repeat split; discriminate.
Qed.

(** [completeNocRequest] schedules the finish event whatever the mode. *)
Lemma completeNocRequest_schedules (env : Collaborators) (pkt : Packet) (s : Dtu) :
  completeNocRequest env pkt s
  = (inr tt,
     mkDtu (regFile s) (incrementWritePtrEvent_epId s)
           (issued s
              ++ [Schedule FinishMessageTransmissionEvent
                    (ticksToCycles env
                       (wrap64 (headerDelay pkt + payloadDelay pkt)))])).
Proof. reflexivity. Qed.

(** In atomic mode the receive pipeline runs to its end within the call:
    the message is counted and nothing is scheduled. *)
Lemma atomic_receive_schedules_nothing :
  let r := handleNocRequest (demoParams true) demoEnv (demoFrame 5) (demoDtu 0 3) in
  fst r = inr tt
  /\ filter isScheduled (issued (snd r)) = []
  /\ messageCount (snd r) 5 = 4.
Proof. vm_compute. repeat split. Qed.

(** C2. Zero-delay mode, on the sample transmit endpoint: in atomic mode
    the [START_OPERATION] command returns with the last leg of the
    transmission, [finishMessageTransmission], scheduled as an event three
    cycles ahead and not run: the unit is still busy and the control
    register still holds the command. *)
Theorem atomic_transmit_leaves_finish_pending :
  let p := demoParams true in
  let r := executeCommand p demoEnv (demoDtu 33 0) in
  atomicMode p = true
  /\ getCommand p (regFile (demoDtu 33 0)) = mkCommand START_OPERATION 2 0
  /\ fst r = inr tt
  /\ filter isScheduled (issued (snd r))
     = [Schedule FinishMessageTransmissionEvent 3]
  /\ RegFile.readDtuReg (regFile (snd r)) STATUS = 1
  /\ RegFile.readDtuReg (regFile (snd r)) COMMAND = 33.
Proof. vm_compute. repeat split. Qed.

(** ** The theorems at sample inputs *)

Lemma demoSpm_answers_reads : spmAnswersReads demoEnv.
Proof.
  intros pkt H. simpl. unfold demoSpm. rewrite H. simpl.
  rewrite length_map, length_seq. repeat split; reflexivity.
Qed.

Lemma transmit_happy_path_witness :
  exists s',
    (executeCommand (demoParams false) demoEnv ;; run (demoParams false) demoEnv 3 0)
      (demoDtu 33 0) = (inr tt, s')
    /\ length (spmRequests s') = 1%nat
    /\ length (nocRequests s') = 1%nat
    /\ RegFile.readDtuReg (regFile s') COMMAND = 0
    /\ RegFile.readDtuReg (regFile s') STATUS = 0.
Proof.
  assert (Hw : widthsFit (demoParams false)) by (vm_compute; discriminate).
  assert (Hmax : 68 < maxMessageSize (demoParams false)) by reflexivity.
  assert (Hep : 2 < numEndpoints (demoParams false)) by reflexivity.
  destruct (transmit_happy_path (demoParams false) demoEnv (demoDtu 33 0) 2 0
              Hw eq_refl Hep eq_refl eq_refl eq_refl Hmax demoSpm_answers_reads
              3 (le_n 3))
    as (s' & Hrun & Hspm & _ & Hnoc & _ & Hc & Hs).
  exists s'. split; [exact Hrun |].
  rewrite Hspm, Hnoc. repeat split; assumption.
Defined.

Lemma ring_count_invariant_witness :
  0 <= messageCount (demoDtu 0 3) 5 <= bufferSizeSlots (demoDtu 0 3) 5
  /\ (let s' := snd (ringOps (demoParams true) 5 [Produce; Produce; Consume]
                             (demoDtu 0 3)) in
      0 <= messageCount s' 5 <= bufferSizeSlots s' 5).
Proof.
  assert (H : 0 <= messageCount (demoDtu 0 3) 5 <= bufferSizeSlots (demoDtu 0 3) 5)
    by (vm_compute; split; discriminate).
  split; [exact H |].
  exact (proj1 (ring_count_invariant (demoParams true) 5
                  [Produce; Produce; Consume] (demoDtu 0 3) H)).
Defined.

Lemma pointer_wraparound_witness :
  0 <= maxMessageSize (demoParams true)
  /\ bufferSizeSlots (demoDtu 0 0) 5 * maxMessageSize (demoParams true) < 2 ^ 64
  /\ exists s',
      ringOps (demoParams true) 5 (repeat Produce 4) (demoDtu 0 0) = (inr tt, s')
      /\ writePtr s' 5 = 0x2000.
Proof.
  assert (H1 : 0 <= maxMessageSize (demoParams true)) by (vm_compute; discriminate).
  assert (H2 : bufferSizeSlots (demoDtu 0 0) 5 * maxMessageSize (demoParams true)
               < 2 ^ 64) by reflexivity.
  split; [exact H1 |]. split; [exact H2 |].
  destruct (pointer_wraparound (demoParams true) 5 (demoDtu 0 0) H1 H2)
    as (Hw & _ & Hp & _).
  destruct (Hp eq_refl) as (s' & Hrun).
  exists s'. split; [exact Hrun |].
  exact (Hw _ s' eq_refl Hrun eq_refl).
Defined.

(** C5 as stated fails on the long buffer: the write pointer, advanced as
    many times as there are slots from the start of the buffer, ends two
    slots further. *)
Lemma pointer_wraparound_fails_on_long_buffer :
  bufferSizeSlots longBufferDtu 5 = 2 ^ 33 + 3
  /\ writePtr longBufferDtu 5 = bufferAddr longBufferDtu 5
  /\ exists s',
      ringOps longBufferParams 5 (repeat Produce (Z.to_nat (2 ^ 33 + 3)))
              longBufferDtu = (inr tt, s')
      /\ writePtr s' 5 = 2 ^ 32
      /\ writePtr s' 5 <> bufferAddr longBufferDtu 5.
Proof.
  split; [reflexivity |]. split; [reflexivity |].
  destruct (produce_run longBufferParams 5 (Z.to_nat (2 ^ 33 + 3)) longBufferDtu)
    as [s' Hrun].
  { change (messageCount longBufferDtu 5) with 0.
    change (bufferSizeSlots longBufferDtu 5) with (2 ^ 33 + 3).
    rewrite Z2Nat.id; lia. }
  exists s'. split; [exact Hrun |].
  destruct (ringOps_pointers longBufferParams 5 _ longBufferDtu s' Hrun)
    as (_ & _ & Hw & _).
  rewrite produces_repeat in Hw.
  change (writePtr longBufferDtu 5) with 0 in Hw.
  change (bufferAddr longBufferDtu 5) with 0 in Hw.
  change (bufferSizeSlots longBufferDtu 5) with (2 ^ 33 + 3) in Hw.
  change (maxMessageSize longBufferParams) with (2 ^ 31) in Hw.
  rewrite advance_cycle_beyond_address_space in Hw.
  split; [exact Hw |].
  rewrite Hw. change (bufferAddr longBufferDtu 5) with 0. discriminate.
Qed.

Lemma receive_full_buffer_witness :
  messageCount (demoDtu 0 4) (frameEpId (demoParams true) (demoFrame 5))
  = bufferSizeSlots (demoDtu 0 4) (frameEpId (demoParams true) (demoFrame 5))
  /\ handleNocRequest (demoParams true) demoEnv (demoFrame 5) (demoDtu 0 4)
     = (inl BufferOverflow, demoDtu 0 4).
Proof.
  split; [reflexivity |].
  destruct (receive_full_buffer (demoParams true) demoEnv (demoFrame 5)
              (demoDtu 0 4) eq_refl) as (_ & H & _).
  exact (H eq_refl eq_refl eq_refl eq_refl).
Defined.



Lemma consumer_underflow_witness :
  getCommand (demoParams true) (regFile (demoDtu 82 0)) = mkCommand INC_READ_PTR 5 0
  /\ 5 < numEndpoints (demoParams true)
  /\ executeCommand (demoParams true) demoEnv (demoDtu 82 0)
     = (inl BufferUnderflow, demoDtu 82 0).
Proof.
  assert (Hep : 5 < numEndpoints (demoParams true)) by reflexivity.
  split; [reflexivity |]. split; [exact Hep |].
  exact (proj1 (consumer_underflow (demoParams true) demoEnv (demoDtu 82 0) 5 0
                  eq_refl Hep) eq_refl).
Defined.

Lemma tag_exclusivity_witness :
  let pkt := mkPacket 0x2000 8 WriteResp [] 0 0 [SpmSenderState 5 true true] false 7 in
  completeSpmRequest (demoParams true) demoEnv pkt (demoDtu 0 3)
  = (inl TagNotExclusive, demoDtu 0 3).
Proof.
  intros pkt.
  destruct (tag_exclusivity (demoParams true) demoEnv) as (_ & _ & H & _).
  exact (H pkt (demoDtu 0 3) 5 true true [] eq_refl eq_refl eq_refl).
Defined.

Lemma cpu_request_address_restored_witness :
  let pkt := mkPacket 0x10000000 8 WriteReq [82] 0 0 [] false 7 in
  atomicMode (demoParams false) = false
  /\ exists resp d s',
      handleCpuRequest (demoParams false) demoEnv pkt (demoDtu 0 0)
      = (inr resp, s')
      /\ issued s' = [SchedCpuResponse resp d; Schedule ExecuteCommandEvent d]
      /\ addr resp = 0x10000000.
Proof.
  intros pkt. split; [reflexivity |].
  destruct (cpu_request_address_restored (demoParams false) demoEnv pkt (demoDtu 0 0))
    as (_ & _ & H & _).
  destruct (H eq_refl) as (resp & d & Hrun & _ & Haddr).
  exists resp, d. eexists. split; [exact Hrun |].
  split; [reflexivity | exact Haddr].
Defined.

(** * Further properties of the unit *)

(** ** What the decoder makes of any register value *)

Section DecoderFields.

Variable p : DtuParams.

Hypothesis HA : 0 <= numCmdOpcodeBits p.
Hypothesis HB : 0 <= numCmdEpidBits p.
Hypothesis HC : 0 <= numCmdOffsetBits p.
Hypothesis Hsum : numCmdOpcodeBits p + numCmdEpidBits p + numCmdOffsetBits p < 31.

Lemma pow2_le_30 (k : Z) : 0 <= k <= 30 -> 0 < 2 ^ k <= 2 ^ 30.
Proof.
  intros Hk. split; [apply Z.pow_pos_nonneg; lia |].
  apply Z.pow_le_mono_r; lia.
Qed.

Lemma opcodeMask_ones : opcodeMask p = Z.ones (numCmdOpcodeBits p).
Proof.
  pose proof (pow2_le_30 (numCmdOpcodeBits p)) as H.
  unfold opcodeMask, int_shl.
  rewrite Z.shiftl_mul_pow2, Z.mul_1_l by lia.
  rewrite Z.ones_equiv, <- Z.sub_1_r.
  rewrite (sint32_small (2 ^ numCmdOpcodeBits p)) by lia.
  rewrite sint32_small by lia. apply wrap64_small. lia.
Qed.

Lemma epidMask_ones :
  epidMask p = Z.shiftl (Z.ones (numCmdEpidBits p)) (numCmdOpcodeBits p).
Proof.
  pose proof (pow2_le_30 (numCmdEpidBits p)) as H.
  pose proof (pow2_le_30 (numCmdOpcodeBits p + numCmdEpidBits p)) as H2.
  rewrite Z.pow_add_r in H2 by lia.
  unfold epidMask, int_shl.
  rewrite (Z.shiftl_mul_pow2 1), Z.mul_1_l by lia.
  rewrite Z.ones_equiv, <- Z.sub_1_r.
  rewrite (sint32_small (2 ^ numCmdEpidBits p)) by lia.
  rewrite (sint32_small (2 ^ numCmdEpidBits p - 1)) by lia.
  rewrite Z.shiftl_mul_pow2 by lia.
  rewrite sint32_small by nia. apply wrap64_small. nia.
Qed.

Lemma offsetMask_ones :
  offsetMask p
  = Z.shiftl (Z.ones (numCmdOffsetBits p))
             (numCmdOpcodeBits p + numCmdEpidBits p).
Proof.
  pose proof (pow2_le_30 (numCmdOffsetBits p)) as H.
  pose proof (pow2_le_30 (numCmdOpcodeBits p + numCmdEpidBits p)) as H1.
  pose proof (pow2_le_30 (numCmdOpcodeBits p + numCmdEpidBits p
                          + numCmdOffsetBits p)) as H2.
  rewrite (Z.pow_add_r 2 (numCmdOpcodeBits p + numCmdEpidBits p)) in H2 by lia.
  unfold offsetMask, int_shl.
  rewrite (wrap32_small (numCmdOpcodeBits p + numCmdEpidBits p)) by lia.
  rewrite (Z.shiftl_mul_pow2 1), Z.mul_1_l by lia.
  rewrite Z.ones_equiv, <- Z.sub_1_r.
  rewrite (sint32_small (2 ^ numCmdOffsetBits p)) by lia.
  rewrite (sint32_small (2 ^ numCmdOffsetBits p - 1)) by lia.
  rewrite Z.shiftl_mul_pow2 by lia.
  rewrite sint32_small by nia. apply wrap64_small. nia.
Qed.

(** The three fields [getCommand] returns, as arithmetic on the register
    value. *)
Lemma getCommand_decode (rf : RegFile.t) :
  let reg := RegFile.readDtuReg rf COMMAND in
  let A := numCmdOpcodeBits p in
  let B := numCmdEpidBits p in
  let C := numCmdOffsetBits p in
  getCommand p rf
  = mkCommand (reg mod 2 ^ A)
              ((reg / 2 ^ A) mod 2 ^ B * 2 ^ A / 2 ^ B)
              ((reg / 2 ^ (A + B)) mod 2 ^ C).
Proof.
  intros reg A B C.
  assert (Hreg : 0 <= reg < 2 ^ 64) by apply wrap64_range.
  pose proof (pow2_le_30 A) as HPA. pose proof (pow2_le_30 B) as HPB.
  pose proof (pow2_le_30 C) as HPC.
  assert (Hf : 0 <= (reg / 2 ^ A) mod 2 ^ B < 2 ^ B)
    by (apply Z.mod_pos_bound; subst A B; lia).
  assert (Hg : 0 <= (reg / 2 ^ (A + B)) mod 2 ^ C < 2 ^ C)
    by (apply Z.mod_pos_bound; subst A B C; lia).
  unfold getCommand. fold reg.
  rewrite opcodeMask_ones, epidMask_ones, offsetMask_ones. fold A B C.
  rewrite Z.land_ones by (subst A; lia).
  rewrite (land_field reg A B) by (subst A B; lia).
  rewrite (land_field reg (A + B) C) by (subst A B C; lia).
  rewrite (wrap32_small (B + A)) by (subst A B; lia).
  rewrite !Z.shiftl_mul_pow2 by (subst A B; lia).
  rewrite !Z.shiftr_div_pow2 by (subst A B; lia).
  replace (B + A) with (A + B) by lia.
  rewrite Z.div_mul by (apply Z.pow_nonzero; subst A B; lia).
  assert (Hq : 0 <= (reg / 2 ^ A) mod 2 ^ B * 2 ^ A / 2 ^ B < 2 ^ A).
  { split; [apply Z.div_pos; subst A B; nia |].
    apply Z.div_lt_upper_bound; subst A B; nia. }
  rewrite !wrap32_small by (subst A B C; lia). reflexivity.
Qed.

End DecoderFields.

(** X1. Decoding of an arbitrary register value.  When the three widths
    are non-negative and fit an [int] together, [getCommand] returns the
    low [numCmdOpcodeBits] bits of the control register as opcode, the
    field of [numCmdOffsetBits] bits above the two low fields as offset,
    and as endpoint id the field of [numCmdEpidBits] bits above the opcode,
    multiplied by [2 ^ numCmdOpcodeBits] and divided by
    [2 ^ numCmdEpidBits]. *)
Theorem getCommand_fields (p : DtuParams) (rf : RegFile.t)
  (HA : 0 <= numCmdOpcodeBits p)
  (HB : 0 <= numCmdEpidBits p)
  (HC : 0 <= numCmdOffsetBits p)
  (Hsum : numCmdOpcodeBits p + numCmdEpidBits p + numCmdOffsetBits p < 31) :
  let reg := RegFile.readDtuReg rf COMMAND in
  opcode (getCommand p rf) = reg mod 2 ^ numCmdOpcodeBits p
  /\ epId (getCommand p rf)
     = (reg / 2 ^ numCmdOpcodeBits p) mod 2 ^ numCmdEpidBits p
       * 2 ^ numCmdOpcodeBits p / 2 ^ numCmdEpidBits p
  /\ offset (getCommand p rf)
     = (reg / 2 ^ (numCmdOpcodeBits p + numCmdEpidBits p))
       mod 2 ^ numCmdOffsetBits p.
Proof.
  intros reg. rewrite (getCommand_decode p HA HB HC Hsum rf).
  repeat split; reflexivity.
Qed.

Lemma getCommand_fields_witness :
  epId (getCommand wideEpidParams (regFile (demoDtu 0x305 0))) = 3.
Proof.
  assert (HA : 0 <= numCmdOpcodeBits wideEpidParams) by (vm_compute; discriminate).
  assert (HB : 0 <= numCmdEpidBits wideEpidParams) by (vm_compute; discriminate).
  assert (HC : 0 <= numCmdOffsetBits wideEpidParams) by (vm_compute; discriminate).
  assert (Hsum : numCmdOpcodeBits wideEpidParams + numCmdEpidBits wideEpidParams
                 + numCmdOffsetBits wideEpidParams < 31) by reflexivity.
  destruct (getCommand_fields wideEpidParams (regFile (demoDtu 0x305 0))
              HA HB HC Hsum) as (_ & H & _).
  rewrite H. reflexivity.
Defined.

(** X2. Range of the decoded fields.  When the three widths are
    non-negative and their sum is below 31, so that every mask is a
    positive [int], then whatever the control register holds, the decoded
    opcode is below [2 ^ numCmdOpcodeBits], the decoded offset is below
    [2 ^ numCmdOffsetBits], and the decoded endpoint id is below
    [2 ^ numCmdOpcodeBits] (not [2 ^ numCmdEpidBits]). *)
Theorem getCommand_ranges (p : DtuParams) (rf : RegFile.t)
  (HA : 0 <= numCmdOpcodeBits p)
  (HB : 0 <= numCmdEpidBits p)
  (HC : 0 <= numCmdOffsetBits p)
  (Hsum : numCmdOpcodeBits p + numCmdEpidBits p + numCmdOffsetBits p < 31) :
  0 <= opcode (getCommand p rf) < 2 ^ numCmdOpcodeBits p
  /\ 0 <= epId (getCommand p rf) < 2 ^ numCmdOpcodeBits p
  /\ 0 <= offset (getCommand p rf) < 2 ^ numCmdOffsetBits p.
Proof.
  rewrite (getCommand_decode p HA HB HC Hsum rf). cbn [opcode epId offset].
  set (reg := RegFile.readDtuReg rf COMMAND).
  pose proof (pow2_le_30 (numCmdOpcodeBits p)) as HPA.
  pose proof (pow2_le_30 (numCmdEpidBits p)) as HPB.
  pose proof (pow2_le_30 (numCmdOffsetBits p)) as HPC.
  assert (Hf : 0 <= (reg / 2 ^ numCmdOpcodeBits p) mod 2 ^ numCmdEpidBits p
               < 2 ^ numCmdEpidBits p) by (apply Z.mod_pos_bound; lia).
  split; [apply Z.mod_pos_bound; lia |].
  split; [| apply Z.mod_pos_bound; lia].
  split; [apply Z.div_pos; nia |].
  apply Z.div_lt_upper_bound; nia.
Qed.

Lemma getCommand_ranges_witness :
  epId (getCommand wideEpidParams (regFile (demoDtu 0x3FF 0))) < 4.
Proof.
  assert (HA : 0 <= numCmdOpcodeBits wideEpidParams) by (vm_compute; discriminate).
  assert (HB : 0 <= numCmdEpidBits wideEpidParams) by (vm_compute; discriminate).
  assert (HC : 0 <= numCmdOffsetBits wideEpidParams) by (vm_compute; discriminate).
  assert (Hsum : numCmdOpcodeBits wideEpidParams + numCmdEpidBits wideEpidParams
                 + numCmdOffsetBits wideEpidParams < 31) by reflexivity.
  destruct (getCommand_ranges wideEpidParams (regFile (demoDtu 0x3FF 0))
              HA HB HC Hsum) as (_ & H & _).
  exact (proj2 H).
Defined.

(** ** Command dispatch *)

Lemma getCommand_zero (p : DtuParams) (rf : RegFile.t) :
  RegFile.readDtuReg rf COMMAND = 0 ->
  getCommand p rf = mkCommand 0 0 0.
Proof.
  intros H. unfold getCommand. rewrite H.
  rewrite !Z.land_0_l, !Z.shiftr_0_l. reflexivity.
Qed.

(** X3. The outcomes of [executeCommand] that start no operation.  The
    endpoint check comes before the dispatch: when the decoded endpoint id
    is not below [numEndpoints] the call fails with [EndpointOutOfRange]
    whatever the opcode is, [IDLE] included.  For a valid endpoint id, the
    opcode [IDLE] does nothing and an opcode other than [IDLE],
    [START_OPERATION] and [INC_READ_PTR] fails with [InvalidOpcode].  In
    all three cases no register changes and nothing is issued. *)
Theorem executeCommand_without_operation
        (p : DtuParams) (env : Collaborators) (s : Dtu) :
  let c := getCommand p (regFile s) in
  (numEndpoints p <= epId c ->
   executeCommand p env s = (inl EndpointOutOfRange, s))
  /\ (epId c < numEndpoints p -> opcode c = IDLE ->
      executeCommand p env s = (inr tt, s))
  /\ (epId c < numEndpoints p ->
      opcode c <> IDLE -> opcode c <> START_OPERATION ->
      opcode c <> INC_READ_PTR ->
      executeCommand p env s = (inl InvalidOpcode, s)).
Proof.
  intros c. split; [| split].
  - intros Hep. apply Z.ltb_ge in Hep.
    unfold executeCommand, bind, gets, assert, fail. fold c.
    rewrite Hep. reflexivity.
  - intros Hep H. rewrite (executeCommand_decoded p env s Hep). cbv zeta.
    fold c. rewrite H. reflexivity.
  - intros Hep H0 H1 H2. rewrite (executeCommand_decoded p env s Hep). cbv zeta.
    fold c.
    apply Z.eqb_neq in H0. apply Z.eqb_neq in H1. apply Z.eqb_neq in H2.
    rewrite H0, H1, H2. reflexivity.
Qed.

Lemma executeCommand_without_operation_witness :
  opcode (getCommand (demoParams true) (regFile (demoDtu 0x90 0))) = IDLE
  /\ executeCommand (demoParams true) demoEnv (demoDtu 0x90 0)
     = (inl EndpointOutOfRange, demoDtu 0x90 0)
  /\ executeCommand (demoParams true) demoEnv (demoDtu 0x23 0)
     = (inl InvalidOpcode, demoDtu 0x23 0).
Proof.
  assert (H9 : numEndpoints (demoParams true)
               <= epId (getCommand (demoParams true) (regFile (demoDtu 0x90 0))))
    by (vm_compute; discriminate).
  assert (H2 : epId (getCommand (demoParams true) (regFile (demoDtu 0x23 0)))
               < numEndpoints (demoParams true)) by reflexivity.
  split; [reflexivity |]. split.
  - exact (proj1 (executeCommand_without_operation (demoParams true) demoEnv
                    (demoDtu 0x90 0)) H9).
  - apply (proj2 (proj2 (executeCommand_without_operation (demoParams true)
                           demoEnv (demoDtu 0x23 0))) H2);
      vm_compute; discriminate.
Defined.

Lemma toEpMode_low_bits (v k : Z) :
  0 <= k < 2 ^ 31 -> toEpMode v = k <-> wrap32 v = k.
Proof.
  intros Hk. unfold toEpMode, sint32, wrap32.
  pose proof (Z.div_mod v (2 ^ 32) ltac:(lia)) as Hv.
  pose proof (Z.div_mod (v + 2 ^ 31) (2 ^ 32) ltac:(lia)) as Hw.
  pose proof (Z.mod_pos_bound v (2 ^ 32) ltac:(lia)) as Hbv.
  pose proof (Z.mod_pos_bound (v + 2 ^ 31) (2 ^ 32) ltac:(lia)) as Hbw.
  lia.
Qed.

(** X4. [START_OPERATION] looks at the low 32 bits of the [MODE] register
    only, as [static_cast<EpMode>] leaves them.  For a command that decodes
    to [START_OPERATION] on a valid endpoint [e]: when these bits are
    [RECEIVE_MESSAGE] the command fails with [InvalidEndpointMode]; when
    they are neither [RECEIVE_MESSAGE] nor [TRANSMIT_MESSAGE] it fails with
    [InvalidMode]; in both cases the busy flag is not set, no register
    changes and nothing is issued.  When they are [TRANSMIT_MESSAGE],
    whatever the upper 32 bits of the register hold, the command is the
    transmission of [startMessageTransmission] on [e]. *)
Theorem startOperation_requires_transmit_mode
        (p : DtuParams) (env : Collaborators) (s : Dtu) (e off : Z)
  (Hcmd : getCommand p (regFile s) = mkCommand START_OPERATION e off)
  (Hep : e < numEndpoints p) :
  let mode := wrap32 (RegFile.readEpReg (regFile s) e MODE) in
  (mode = RECEIVE_MESSAGE ->
   executeCommand p env s = (inl InvalidEndpointMode, s))
  /\ (mode <> RECEIVE_MESSAGE -> mode <> TRANSMIT_MESSAGE ->
      executeCommand p env s = (inl InvalidMode, s))
  /\ (mode = TRANSMIT_MESSAGE ->
      executeCommand p env s = startMessageTransmission p env e s).
Proof.
  intros mode.
  assert (Hexec : executeCommand p env s
                  = startOperation p env (mkCommand START_OPERATION e off) s).
  { rewrite executeCommand_decoded by (rewrite Hcmd; exact Hep).
    rewrite Hcmd. reflexivity. }
  rewrite Hexec. unfold startOperation, bind, readEpReg, gets, fail.
  cbn [epId]. cbv zeta.
  pose proof (toEpMode_low_bits (RegFile.readEpReg (regFile s) e MODE)
                RECEIVE_MESSAGE ltac:(unfold RECEIVE_MESSAGE; lia)) as Hr.
  pose proof (toEpMode_low_bits (RegFile.readEpReg (regFile s) e MODE)
                TRANSMIT_MESSAGE ltac:(unfold TRANSMIT_MESSAGE; lia)) as Ht.
  fold mode in Hr, Ht.
  split; [| split].
  - intros H. apply Hr in H. rewrite H. reflexivity.
  - intros H0 H1.
    assert (H0' : toEpMode (RegFile.readEpReg (regFile s) e MODE)
                  <> RECEIVE_MESSAGE) by (intros H; apply H0, Hr, H).
    assert (H1' : toEpMode (RegFile.readEpReg (regFile s) e MODE)
                  <> TRANSMIT_MESSAGE) by (intros H; apply H1, Ht, H).
    apply Z.eqb_neq in H0'. apply Z.eqb_neq in H1'.
    rewrite H0', H1'. reflexivity.
  - intros H. apply Ht in H. rewrite H. reflexivity.
Qed.

Lemma startOperation_requires_transmit_mode_witness :
  getCommand (demoParams true) (regFile (demoDtu 0x51 0))
  = mkCommand START_OPERATION 5 0
  /\ 5 < numEndpoints (demoParams true)
  /\ executeCommand (demoParams true) demoEnv (demoDtu 0x51 0)
     = (inl InvalidEndpointMode, demoDtu 0x51 0).
Proof.
  assert (Hep : 5 < numEndpoints (demoParams true)) by reflexivity.
  split; [reflexivity |]. split; [exact Hep |].
  exact (proj1 (startOperation_requires_transmit_mode (demoParams true) demoEnv
                  (demoDtu 0x51 0) 5 0 eq_refl Hep) eq_refl).
Defined.

(** X5. After [finishMessageTransmission] the unit is idle: the control
    register decodes, for any field widths, to opcode [IDLE] on endpoint 0,
    so with at least one endpoint executing the command again does nothing,
    and with no endpoint it fails with [EndpointOutOfRange]; the endpoint
    registers are as before the finish. *)
Theorem finish_then_idle (p : DtuParams) (env : Collaborators) (s : Dtu) :
  let s' := snd (finishMessageTransmission s) in
  getCommand p (regFile s') = mkCommand IDLE 0 0
  /\ RegFile.readDtuReg (regFile s') STATUS = 0
  /\ (forall e r, RegFile.readEpReg (regFile s') e r
                  = RegFile.readEpReg (regFile s) e r)
  /\ issued s' = issued s
  /\ (0 < numEndpoints p ->
      (finishMessageTransmission ;; executeCommand p env) s = (inr tt, s'))
  /\ (numEndpoints p <= 0 ->
      (finishMessageTransmission ;; executeCommand p env) s
      = (inl EndpointOutOfRange, s')).
Proof.
  intros s'.
  assert (Hc : getCommand p (regFile s') = mkCommand IDLE 0 0)
    by (apply getCommand_zero; reflexivity).
  split; [exact Hc |]. split; [reflexivity |].
  split; [intros e r; reflexivity |]. split; [reflexivity |].
  assert (Hrun : (finishMessageTransmission ;; executeCommand p env) s
                 = executeCommand p env s') by reflexivity.
  rewrite Hrun. split.
  - intros Hn. rewrite executeCommand_decoded by (rewrite Hc; exact Hn).
    rewrite Hc. reflexivity.
  - intros Hn. unfold executeCommand, bind, gets, assert, fail.
    rewrite Hc. cbn [epId]. apply Z.ltb_ge in Hn. rewrite Hn. reflexivity.
Qed.

Lemma finish_then_idle_witness :
  (finishMessageTransmission ;; executeCommand (demoParams true) demoEnv)
    (demoDtu 33 0)
  = (inr tt, snd (finishMessageTransmission (demoDtu 33 0))).
Proof.
  destruct (finish_then_idle (demoParams true) demoEnv (demoDtu 33 0))
    as (_ & _ & _ & _ & H & _).
  exact (H eq_refl).
Defined.

(** ** The ring buffer, further *)

Lemma readEpReg_setEpReg_other_endpoint
      (rf : RegFile.t) (e e' : Z) (r r' : EpReg) (v : Z) :
  e' <> e ->
  RegFile.readEpReg (RegFile.setEpReg rf e r v) e' r' = RegFile.readEpReg rf e' r'.
Proof.
  intros He. unfold RegFile.readEpReg, RegFile.setEpReg; simpl.
  apply Z.eqb_neq in He. now rewrite He.
Qed.

(** A property of the state that holds before a run of ring operations and
    is kept by a successful produce and by a successful consume holds in
    the state the run stops in. *)
Lemma ringOps_preserve (p : DtuParams) (e : Z) (P : Dtu -> Prop) :
  (forall s, P s -> messageCount s e < bufferSizeSlots s e -> P (produced p e s)) ->
  (forall s, P s -> 0 < messageCount s e -> P (consumed p e s)) ->
  forall ops s, P s -> P (snd (ringOps p e ops s)).
Proof.
  intros Hprod Hcons ops.
  induction ops as [| o l IH]; intros s Hs; [exact Hs |].
  rewrite ringOps_cons. destruct o; simpl ringOp.
  - destruct (Z_lt_le_dec (messageCount s e) (bufferSizeSlots s e)) as [Hlt | Hge].
    + rewrite (incrementWritePtr_ok p e s Hlt). apply IH. now apply Hprod.
    + rewrite (incrementWritePtr_full p e s Hge). exact Hs.
  - destruct (Z.eq_dec (messageCount s e) 0) as [Hz | Hnz].
    + rewrite (incrementReadPtr_empty p e s Hz). exact Hs.
    + assert (Hpos : 0 < messageCount s e)
        by (pose proof (messageCount_range e s); lia).
      rewrite (incrementReadPtr_ok p e s Hpos). apply IH. now apply Hcons.
Qed.

Lemma sameOutsideRing_produced (p : DtuParams) (e : Z) (s0 s : Dtu) :
  sameOutsideRing e s0 s -> sameOutsideRing e s0 (produced p e s).
Proof.
  intros (Hep & Hd & Hev & Hi). repeat split; try assumption.
  intros e' r H. rewrite <- (Hep e' r H). unfold produced. cbn [regFile].
  destruct H as [H | (H1 & H2 & H3)].
  - now rewrite !readEpReg_setEpReg_other_endpoint.
  - now rewrite !readEpReg_setEpReg_other.
Qed.

Lemma sameOutsideRing_consumed (p : DtuParams) (e : Z) (s0 s : Dtu) :
  sameOutsideRing e s0 s -> sameOutsideRing e s0 (consumed p e s).
Proof.
  intros (Hep & Hd & Hev & Hi). repeat split; try assumption.
  intros e' r H. rewrite <- (Hep e' r H). unfold consumed. cbn [regFile].
  destruct H as [H | (H1 & H2 & H3)].
  - now rewrite !readEpReg_setEpReg_other_endpoint.
  - now rewrite !readEpReg_setEpReg_other.
Qed.

(** X6. Isolation of the ring-buffer operations.  A run of
    [incrementWritePtr] and [incrementReadPtr] calls on endpoint [e],
    whether it runs to its end or stops at an assertion, changes nothing
    but the read pointer, the write pointer and the message count of [e]:
    every register of every other endpoint, the other registers of [e],
    the command and status registers and the list of issued requests are
    as before. *)
Theorem ring_operations_are_isolated
        (p : DtuParams) (e : Z) (ops : list RingOp) (s : Dtu) :
  sameOutsideRing e s (snd (ringOps p e ops s)).
Proof.
  apply (ringOps_preserve p e (sameOutsideRing e s)).
  - intros s1 H _. now apply sameOutsideRing_produced.
  - intros s1 H _. now apply sameOutsideRing_consumed.
  - repeat split; reflexivity.
Qed.

Lemma ring_operations_are_isolated_witness :
  let s' := snd (ringOps (demoParams true) 5 [Produce; Consume; Produce]
                         (demoDtu 33 1)) in
  RegFile.readEpReg (regFile s') 2 MESSAGE_SIZE = 64
  /\ RegFile.readDtuReg (regFile s') COMMAND = 33.
Proof.
  intros s'.
  destruct (ring_operations_are_isolated (demoParams true) 5
              [Produce; Consume; Produce] (demoDtu 33 1)) as (He & Hd & _).
  assert (Hne : 2 <> 5) by discriminate.
  split.
  - exact (He 2 MESSAGE_SIZE (or_introl Hne)).
  - exact (Hd COMMAND).
Defined.

Lemma advance_index (slot base n k : Z) :
  0 < slot -> 0 <= base -> base + n * slot < 2 ^ 64 -> 0 <= k < n ->
  advance slot (base + k * slot) base n = base + ((k + 1) mod n) * slot.
Proof.
  intros Hs Hb Hfit Hk. unfold advance.
  rewrite (wrap64_small (n * slot)) by nia.
  rewrite (wrap64_small (base + n * slot)) by nia.
  rewrite (wrap64_small (base + k * slot + slot)) by nia.
  destruct (Z.eq_dec (k + 1) n) as [Hlast | Hin].
  - rewrite Hlast, Z.mod_same by lia.
    destruct (Z.leb_spec (base + n * slot) (base + k * slot + slot)); nia.
  - rewrite Z.mod_small by lia.
    destruct (Z.leb_spec (base + n * slot) (base + k * slot + slot)); nia.
Qed.

(** X7. The pointers walk the slots of the buffer in order.  For a buffer
    of [n] slots of [maxMessageSize > 0] bytes that ends below [2 ^ 64], a
    successful [incrementWritePtr] with the write pointer on slot [k] leaves
    it on slot [(k + 1) mod n], and a successful [incrementReadPtr] does the
    same to the read pointer; so a pointer that starts on a slot of the
    buffer never leaves the buffer and stays on a slot boundary. *)
Theorem pointers_step_to_next_slot (p : DtuParams) (e : Z) (s s' : Dtu) (k : Z)
  (Hslot : 0 < maxMessageSize p)
  (Hfit : bufferAddr s e + bufferSizeSlots s e * maxMessageSize p < 2 ^ 64)
  (Hk : 0 <= k < bufferSizeSlots s e) :
  (writePtr s e = bufferAddr s e + k * maxMessageSize p ->
   incrementWritePtr p e s = (inr tt, s') ->
   writePtr s' e
   = bufferAddr s e + ((k + 1) mod bufferSizeSlots s e) * maxMessageSize p)
  /\ (readPtr s e = bufferAddr s e + k * maxMessageSize p ->
      incrementReadPtr p e s = (inr tt, s') ->
      readPtr s' e
      = bufferAddr s e + ((k + 1) mod bufferSizeSlots s e) * maxMessageSize p).
Proof.
  pose proof (readEpReg_range (regFile s) e BUFFER_ADDR) as Hb.
  fold (bufferAddr s e) in Hb.
  split; intros Hptr Hrun.
  - destruct (Z_lt_le_dec (messageCount s e) (bufferSizeSlots s e)) as [Hlt | Hge].
    + rewrite (incrementWritePtr_ok p e s Hlt) in Hrun. injection Hrun as <-.
      rewrite produced_writePtr, Hptr. apply advance_index; lia.
    + rewrite (incrementWritePtr_full p e s Hge) in Hrun. discriminate Hrun.
  - destruct (Z.eq_dec (messageCount s e) 0) as [Hz | Hnz].
    + rewrite (incrementReadPtr_empty p e s Hz) in Hrun. discriminate Hrun.
    + assert (Hpos : 0 < messageCount s e)
        by (pose proof (messageCount_range e s); lia).
      rewrite (incrementReadPtr_ok p e s Hpos) in Hrun. injection Hrun as <-.
      rewrite consumed_readPtr, Hptr. apply advance_index; lia.
Qed.

Lemma pointers_step_to_next_slot_witness :
  0 < maxMessageSize (demoParams true)
  /\ exists s',
      incrementWritePtr (demoParams true) 5 (demoDtu 0 3) = (inr tt, s')
      /\ writePtr s' 5 = 0x2000.
Proof.
  assert (Hslot : 0 < maxMessageSize (demoParams true)) by reflexivity.
  assert (Hfit : bufferAddr (demoDtu 0 3) 5
                 + bufferSizeSlots (demoDtu 0 3) 5 * maxMessageSize (demoParams true)
                 < 2 ^ 64) by reflexivity.
  assert (Hk : 0 <= 3 < bufferSizeSlots (demoDtu 0 3) 5)
    by (split; [discriminate | reflexivity]).
  split; [exact Hslot |].
  exists (produced (demoParams true) 5 (demoDtu 0 3)).
  assert (Hrun : incrementWritePtr (demoParams true) 5 (demoDtu 0 3)
                 = (inr tt, produced (demoParams true) 5 (demoDtu 0 3)))
    by reflexivity.
  split; [exact Hrun |].
  exact (proj1 (pointers_step_to_next_slot (demoParams true) 5 (demoDtu 0 3)
                  _ 3 Hslot Hfit Hk) eq_refl Hrun).
Defined.

Lemma ringConsistent_produced (p : DtuParams) (e : Z) (s : Dtu) :
  0 < maxMessageSize p ->
  bufferAddr s e + bufferSizeSlots s e * maxMessageSize p < 2 ^ 64 ->
  messageCount s e < bufferSizeSlots s e ->
  ringConsistent p s e -> ringConsistent p (produced p e s) e.
Proof.
  intros Hslot Hfit Hlt (r & w & Hr & Hw & Hrp & Hwp & Hc & Hrel).
  pose proof (readEpReg_range (regFile s) e BUFFER_ADDR) as Hb.
  fold (bufferAddr s e) in Hb.
  pose proof (messageCount_range e s) as Hcr.
  destruct (produced_frame p e s) as (Hsz & Hba & Hrd & _).
  unfold ringConsistent.
  rewrite Hsz, Hba, Hrd, produced_writePtr, (produced_messageCount p e s Hlt).
  exists r, ((w + 1) mod bufferSizeSlots s e).
  split; [exact Hr |].
  split; [apply Z.mod_pos_bound; lia |].
  split; [exact Hrp |].
  split; [rewrite Hwp; apply advance_index; lia |].
  split; [lia |].
  rewrite Hrel, Z.add_mod_idemp_l by lia. f_equal. lia.
Qed.

Lemma ringConsistent_consumed (p : DtuParams) (e : Z) (s : Dtu) :
  0 < maxMessageSize p ->
  bufferAddr s e + bufferSizeSlots s e * maxMessageSize p < 2 ^ 64 ->
  0 < messageCount s e ->
  ringConsistent p s e -> ringConsistent p (consumed p e s) e.
Proof.
  intros Hslot Hfit Hpos (r & w & Hr & Hw & Hrp & Hwp & Hc & Hrel).
  pose proof (readEpReg_range (regFile s) e BUFFER_ADDR) as Hb.
  fold (bufferAddr s e) in Hb.
  destruct (consumed_frame p e s) as (Hsz & Hba & Hwr & _).
  unfold ringConsistent.
  rewrite Hsz, Hba, Hwr, consumed_readPtr, (consumed_messageCount p e s Hpos).
  exists ((r + 1) mod bufferSizeSlots s e), w.
  split; [apply Z.mod_pos_bound; lia |].
  split; [exact Hw |].
  split; [rewrite Hrp; apply advance_index; lia |].
  split; [exact Hwp |].
  split; [lia |].
  rewrite Hrel, Z.add_mod_idemp_l by lia. f_equal. lia.
Qed.

Lemma ringOps_consistent (p : DtuParams) (e : Z) (ops : list RingOp) (s : Dtu)
  (Hslot : 0 < maxMessageSize p)
  (Hfit : bufferAddr s e + bufferSizeSlots s e * maxMessageSize p < 2 ^ 64)
  (Hok : ringConsistent p s e) :
  ringConsistent p (snd (ringOps p e ops s)) e.
Proof.
  set (P := fun s1 : Dtu =>
              bufferAddr s1 e + bufferSizeSlots s1 e * maxMessageSize p < 2 ^ 64
              /\ ringConsistent p s1 e).
  assert (H : P (snd (ringOps p e ops s))).
  { apply (ringOps_preserve p e P).
    - intros s1 (Hf & Hc) Hlt. split.
      + destruct (produced_frame p e s1) as (Hsz & Hba & _). now rewrite Hsz, Hba.
      + now apply ringConsistent_produced.
    - intros s1 (Hf & Hc) Hpos. split.
      + destruct (consumed_frame p e s1) as (Hsz & Hba & _). now rewrite Hsz, Hba.
      + now apply ringConsistent_consumed.
    - split; assumption. }
  exact (proj2 H).
Qed.

Lemma ringConsistent_meet (p : DtuParams) (e : Z) (s : Dtu) :
  0 < maxMessageSize p ->
  ringConsistent p s e ->
  (readPtr s e = writePtr s e
   <-> messageCount s e = 0 \/ messageCount s e = bufferSizeSlots s e).
Proof.
  intros Hslot (r & w & Hr & Hw & Hrp & Hwp & Hc & Hrel).
  pose proof (messageCount_range e s) as Hcr.
  set (n := bufferSizeSlots s e) in *. set (c := messageCount s e) in *.
  assert (Hmod : (r + c < n /\ w = r + c) \/ (n <= r + c /\ w = r + c - n)).
  { destruct (Z_lt_le_dec (r + c) n) as [Hlt | Hge].
    - left. split; [exact Hlt |]. rewrite Hrel. apply Z.mod_small. lia.
    - right. split; [exact Hge |]. rewrite Hrel. symmetry.
      apply Z.mod_unique with (q := 1); lia. }
  rewrite Hrp, Hwp. split.
  - intros H.
    assert (Heq : r = w)
      by (apply (Z.mul_reg_r r w (maxMessageSize p)); lia).
    lia.
  - intros H. assert (Heq : r = w) by lia. rewrite Heq. reflexivity.
Qed.

(** X8. The ring never desynchronizes.  For a buffer of slots of
    [maxMessageSize > 0] bytes that ends below [2 ^ 64]: if both pointers
    stand on slots of the buffer with the write pointer [messageCount]
    slots ahead of the read pointer around the ring, then this still holds
    in the state any run of produce and consume operations stops in; and
    there the two pointers are equal exactly when the buffer is empty or
    full. *)
Theorem ring_stays_consistent (p : DtuParams) (e : Z) (ops : list RingOp) (s : Dtu)
  (Hslot : 0 < maxMessageSize p)
  (Hfit : bufferAddr s e + bufferSizeSlots s e * maxMessageSize p < 2 ^ 64)
  (Hok : ringConsistent p s e) :
  let s' := snd (ringOps p e ops s) in
  ringConsistent p s' e
  /\ (readPtr s' e = writePtr s' e
      <-> messageCount s' e = 0 \/ messageCount s' e = bufferSizeSlots s' e).
Proof.
  intros s'.
  pose proof (ringOps_consistent p e ops s Hslot Hfit Hok) as H.
  split; [exact H |]. now apply (ringConsistent_meet p).
Qed.

Lemma demoDtu_ringConsistent : ringConsistent (demoParams true) (demoDtu 0 3) 5.
Proof.
  exists 0, 3. repeat split; try reflexivity; discriminate.
Qed.

Lemma ring_stays_consistent_witness :
  0 < maxMessageSize (demoParams true)
  /\ (let s' := snd (ringOps (demoParams true) 5 [Produce; Consume; Consume]
                             (demoDtu 0 3)) in
      ringConsistent (demoParams true) s' 5).
Proof.
  assert (Hslot : 0 < maxMessageSize (demoParams true)) by reflexivity.
  assert (Hfit : bufferAddr (demoDtu 0 3) 5
                 + bufferSizeSlots (demoDtu 0 3) 5 * maxMessageSize (demoParams true)
                 < 2 ^ 64) by reflexivity.
  split; [exact Hslot |].
  exact (proj1 (ring_stays_consistent (demoParams true) 5
                  [Produce; Consume; Consume] (demoDtu 0 3)
                  Hslot Hfit demoDtu_ringConsistent)).
Defined.

Lemma ringOps_count (p : DtuParams) (e : Z) (ops : list RingOp) :
  forall s s',
    ringOps p e ops s = (inr tt, s') ->
    messageCount s' e
    = messageCount s e + Z.of_nat (produces ops) - Z.of_nat (consumes ops).
Proof.
  induction ops as [| o l IH]; intros s s' Hrun.
  - simpl in Hrun. injection Hrun as <-. simpl. lia.
  - rewrite ringOps_cons in Hrun. destruct o; simpl ringOp in Hrun.
    + destruct (Z_lt_le_dec (messageCount s e) (bufferSizeSlots s e)) as [Hlt | Hge].
      * rewrite (incrementWritePtr_ok p e s Hlt) in Hrun.
        rewrite (IH _ _ Hrun), (produced_messageCount p e s Hlt).
        simpl produces. simpl consumes. lia.
      * rewrite (incrementWritePtr_full p e s Hge) in Hrun. discriminate Hrun.
    + destruct (Z.eq_dec (messageCount s e) 0) as [Hz | Hnz].
      * rewrite (incrementReadPtr_empty p e s Hz) in Hrun. discriminate Hrun.
      * assert (Hpos : 0 < messageCount s e)
          by (pose proof (messageCount_range e s); lia).
        rewrite (incrementReadPtr_ok p e s Hpos) in Hrun.
        rewrite (IH _ _ Hrun), (consumed_messageCount p e s Hpos).
        simpl produces. simpl consumes. lia.
Qed.

Lemma ringOps_failure (p : DtuParams) (e : Z) (ops : list RingOp) :
  forall s f s',
    messageCount s e <= bufferSizeSlots s e ->
    ringOps p e ops s = (inl f, s') ->
    (f = ProducerOverflow /\ messageCount s' e = bufferSizeSlots s' e)
    \/ (f = BufferUnderflow /\ messageCount s' e = 0).
Proof.
  induction ops as [| o l IH]; intros s f s' Hinv Hrun.
  - discriminate Hrun.
  - rewrite ringOps_cons in Hrun. destruct o; simpl ringOp in Hrun.
    + destruct (Z_lt_le_dec (messageCount s e) (bufferSizeSlots s e)) as [Hlt | Hge].
      * rewrite (incrementWritePtr_ok p e s Hlt) in Hrun.
        apply (IH _ _ _) in Hrun; [exact Hrun |].
        destruct (produced_frame p e s) as (Hsz & _).
        rewrite Hsz, (produced_messageCount p e s Hlt). lia.
      * rewrite (incrementWritePtr_full p e s Hge) in Hrun.
        injection Hrun as <- <-. left. split; [reflexivity | lia].
    + destruct (Z.eq_dec (messageCount s e) 0) as [Hz | Hnz].
      * rewrite (incrementReadPtr_empty p e s Hz) in Hrun.
        injection Hrun as <- <-. right. split; [reflexivity | exact Hz].
      * assert (Hpos : 0 < messageCount s e)
          by (pose proof (messageCount_range e s); lia).
        rewrite (incrementReadPtr_ok p e s Hpos) in Hrun.
        apply (IH _ _ _) in Hrun; [exact Hrun |].
        destruct (consumed_frame p e s) as (Hsz & _).
        rewrite Hsz, (consumed_messageCount p e s Hpos). lia.
Qed.

(** X9. Bookkeeping of a run of ring operations from a state with
    [messageCount <= bufferSizeSlots].  A run that reaches its end leaves
    [messageCount] at its initial value plus the number of produces minus
    the number of consumes; a run that stops does so either with
    [ProducerOverflow] at a full buffer or with [BufferUnderflow] at an
    empty one, the operations before the failing one having taken
    effect. *)
Theorem ring_run_bookkeeping (p : DtuParams) (e : Z) (ops : list RingOp) (s : Dtu)
  (Hinv : messageCount s e <= bufferSizeSlots s e) :
  (forall s',
      ringOps p e ops s = (inr tt, s') ->
      messageCount s' e
      = messageCount s e + Z.of_nat (produces ops) - Z.of_nat (consumes ops))
  /\ (forall f s',
      ringOps p e ops s = (inl f, s') ->
      (f = ProducerOverflow /\ messageCount s' e = bufferSizeSlots s' e)
      \/ (f = BufferUnderflow /\ messageCount s' e = 0)).
Proof.
  split.
  - intros s'. apply ringOps_count.
  - intros f s'. now apply ringOps_failure.
Qed.

Lemma ring_run_bookkeeping_witness :
  messageCount (demoDtu 0 3) 5 <= bufferSizeSlots (demoDtu 0 3) 5
  /\ exists s',
      ringOps (demoParams true) 5 [Produce; Produce; Consume] (demoDtu 0 3)
      = (inl ProducerOverflow, s')
      /\ messageCount s' 5 = bufferSizeSlots s' 5.
Proof.
  assert (Hinv : messageCount (demoDtu 0 3) 5 <= bufferSizeSlots (demoDtu 0 3) 5)
    by (vm_compute; discriminate).
  split; [exact Hinv |].
  exists (produced (demoParams true) 5 (demoDtu 0 3)).
  assert (Hrun : ringOps (demoParams true) 5 [Produce; Produce; Consume]
                         (demoDtu 0 3)
                 = (inl ProducerOverflow, produced (demoParams true) 5 (demoDtu 0 3)))
    by reflexivity.
  split; [exact Hrun |].
  destruct (proj2 (ring_run_bookkeeping (demoParams true) 5
                     [Produce; Produce; Consume] (demoDtu 0 3) Hinv)
                  _ _ Hrun) as [(_ & H) | (Hf & _)].
  - exact H.
  - discriminate Hf.
Defined.

(** ** The transmit pipeline for any message *)

Section TransmitPipeline.

Variable p : DtuParams.
Variable env : Collaborators.
Variable s : Dtu.
Variables e off a m : Z.

Hypothesis Hwidths : widthsFit p.
Hypothesis Hcmd : getCommand p (regFile s) = mkCommand START_OPERATION e off.
Hypothesis Hep : e < numEndpoints p.
Hypothesis Hmode : RegFile.readEpReg (regFile s) e MODE = TRANSMIT_MESSAGE.
Hypothesis Haddr : RegFile.readEpReg (regFile s) e MESSAGE_ADDR = a.
Hypothesis Hsize : RegFile.readEpReg (regFile s) e MESSAGE_SIZE = m.
Hypothesis Hpos : 0 < m.
Hypothesis Hmax : m + sizeofMessageHeader < maxMessageSize p.
Hypothesis Hmax32 : maxMessageSize p <= 2 ^ 32.
Hypothesis Hspm : spmAnswersReads env.

Let req := readRequest p e a m.
Let resp := spmAccess env req.
Let frame := messageFrame p env e (regFile s) (setSenderState resp []).
Let finish := Schedule FinishMessageTransmissionEvent
                (ticksToCycles env
                   (wrap64 (headerDelay (nocAccess env frame)
                            + payloadDelay (nocAccess env frame)))).

Lemma tp_small : wrap32 m = m /\ wrap64 (m + sizeofMessageHeader) = m + sizeofMessageHeader.
Proof.
  unfold sizeofMessageHeader in *.
  split; [apply wrap32_small | apply wrap64_small]; lia.
Qed.

Lemma tp_resp :
  isError resp = false /\ isResponse resp = true /\ isRead resp = true
  /\ senderState resp = [SpmSenderState e true false]
  /\ size resp = m /\ length (data resp) = Z.to_nat m.
Proof.
  destruct (Hspm req eq_refl) as (Hc & He & Hs & Ht & Hl).
  fold resp in Hc, He, Hs, Ht, Hl.
  unfold isResponse, isRead. rewrite Hc, He, Hs, Ht, Hl.
  repeat split; try reflexivity.
  - exact (proj1 tp_small).
  - apply repeat_length.
Qed.

Lemma tp_start :
  executeCommand p env s
  = (if atomicMode p then
       pkt' <- sendAtomicSpmRequest env req ;; completeSpmRequest p env pkt'
     else schedSpmRequest req (commandToSpmRequestLatency p)) (busy s).
Proof.
  rewrite executeCommand_decoded by (rewrite Hcmd; exact Hep).
  rewrite Hcmd. cbn [opcode epId].
  change (START_OPERATION =? IDLE) with false.
  change (START_OPERATION =? START_OPERATION) with true. cbv iota.
  rewrite startOperation_transmit by exact Hmode. cbn [epId].
  rewrite startMessageTransmission_issue;
    [| exact Hwidths | rewrite Hsize; exact Hpos
     | rewrite Hsize, (proj2 tp_small); exact Hmax].
  rewrite Haddr, Hsize. reflexivity.
Qed.

Lemma tp_completion (l : list Action) :
  completeSpmRequest p env resp
    (mkDtu (regFile (busy s)) (incrementWritePtrEvent_epId s) l)
  = (if atomicMode p then
       nocPkt' <- sendAtomicNocRequest env frame ;; completeNocRequest env nocPkt'
     else
       schedNocRequest frame
         (wrap64 (spmResponseToNocRequestLatency p
                  + ticksToCycles env (headerDelay resp))))
      (mkDtu (regFile (busy s)) (incrementWritePtrEvent_epId s) l).
Proof.
  destruct tp_resp as (Herr & Hresp & Hrd & Htag & Hsz & _).
  rewrite (completeSpmRequest_dispatch p env resp _ e true false [] Herr Hresp Htag).
  change (xorb true false) with true. cbv iota.
  rewrite (completeLocalSpmRequest_issue p env e).
  - reflexivity.
  - exact Hwidths.
  - exact Hrd.
  - cbn [regFile]. rewrite getCommand_busy, Hcmd. reflexivity.
  - cbn [regFile]. change (size (setSenderState resp [])) with (size resp).
    rewrite Hsz.
    change (RegFile.readEpReg (regFile (busy s)) e MESSAGE_SIZE)
      with (RegFile.readEpReg (regFile s) e MESSAGE_SIZE).
    rewrite Hsize. symmetry. exact (proj1 tp_small).
Qed.

Lemma tp_frame :
  addr frame
  = getNocAddr env (wrap32 (RegFile.readEpReg (regFile s) e TARGET_COREID))
               (wrap32 (RegFile.readEpReg (regFile s) e TARGET_EPID))
  /\ size frame = m + sizeofMessageHeader
  /\ cmd frame = WriteReq
  /\ headerDelay frame = 0
  /\ payloadDelay frame = payloadDelay resp
  /\ senderState frame = [NocSenderState true false]
  /\ data frame
     = messageHeaderBytes (coreId p) e m ++ firstn (Z.to_nat m) (data resp)
  /\ Z.of_nat (length (data frame)) = m + sizeofMessageHeader.
Proof.
  destruct tp_resp as (_ & _ & _ & _ & _ & Hlen).
  destruct tp_small as (H32 & H64).
  assert (Hdata : data frame
                  = messageHeaderBytes (coreId p) e m
                      ++ firstn (Z.to_nat m) (data resp)).
  { unfold frame, messageFrame. rewrite Hsize, H32. cbn [data].
    change (data (setSenderState resp [])) with (data resp).
    rewrite skipn_all2, app_nil_r; [reflexivity |].
    rewrite repeat_length, H64. unfold sizeofMessageHeader. lia. }
  split; [reflexivity |].
  split.
  { unfold frame, messageFrame. rewrite Hsize, H32, H64. cbn [size].
    apply wrap32_small. unfold sizeofMessageHeader in *. lia. }
  do 4 (split; [reflexivity |]).
  split; [exact Hdata |].
  rewrite Hdata, length_app, length_firstn, Hlen.
  unfold messageHeaderBytes, sizeofMessageHeader. simpl length. lia.
Qed.

Lemma tp_start_atomic :
  atomicMode p = true ->
  executeCommand p env s
  = (inr tt,
     mkDtu (regFile (busy s)) (incrementWritePtrEvent_epId s)
           (issued s ++ [SendAtomicSpmRequest req; SendAtomicNocRequest frame;
                         finish])).
Proof.
  intros Hat. rewrite tp_start, Hat.
  unfold sendAtomicSpmRequest, bind at 1 2, issue, modify, ret.
  match goal with
  | |- _ = ?rhs =>
      change (completeSpmRequest p env resp
                (mkDtu (regFile (busy s)) (incrementWritePtrEvent_epId s)
                       (issued s ++ [SendAtomicSpmRequest req])) = rhs)
  end.
  rewrite tp_completion, Hat.
  unfold sendAtomicNocRequest, completeNocRequest, schedule, bind, issue,
    modify, ret.
  cbn [regFile incrementWritePtrEvent_epId issued].
  rewrite <- !app_assoc. reflexivity.
Qed.

Lemma tp_start_timed :
  atomicMode p = false ->
  executeCommand p env s
  = (inr tt,
     mkDtu (regFile (busy s)) (incrementWritePtrEvent_epId s)
           (issued s ++ [SchedSpmRequest req (commandToSpmRequestLatency p)])).
Proof.
  intros Hat. rewrite tp_start, Hat. reflexivity.
Qed.

Lemma tp_finish (f : nat) (x y : Action) :
  run p env (S f) (2 + length (issued s))
      (mkDtu (regFile (busy s)) (incrementWritePtrEvent_epId s)
             (issued s ++ [x; y; finish]))
  = (inr tt,
     mkDtu (finished (regFile (busy s))) (incrementWritePtrEvent_epId s)
           (issued s ++ [x; y; finish])).
Proof.
  rewrite (run_step p env f _ _ finish)
    by exact (nth_error_past (issued s) [x; y; finish] 2).
  unfold bind at 1. cbn [deliver finish processEvent].
  unfold finishMessageTransmission, bind, setDtuReg, modify.
  cbn [regFile incrementWritePtrEvent_epId issued].
  apply run_done.
  exact (nth_error_past (issued s) [x; y; finish] 3).
Qed.

(** X10. The transmit pipeline for any message, with its schedule.  Let
    the control register hold [START_OPERATION] on a transmit endpoint [e]
    with [messageAddr = a] and [messageSize = m], where [0 < m],
    [m + 4 < maxMessageSize] and [maxMessageSize <= 2 ^ 32], on a unit
    whose command field widths pass the check of [generateRequest] and
    whose scratchpad answers a read request with a read response of the
    size asked for, keeping the tags.  Executing the command and
    delivering what it issues issues exactly three actions: the scratchpad
    read of [m] bytes at [a] (in timed mode after
    [commandToSpmRequestLatency] cycles); the
    network write of [m + 4] bytes, header then payload, which carries the
    payload delay of the scratchpad response (in timed mode after
    [spmResponseToNocRequestLatency] cycles plus the header delay of the
    scratchpad response); and the finish event, after the header and
    payload delay of the network response.  The frame is shorter than
    [maxMessageSize], the size of a receive slot.  At the end the control
    and status registers are 0 and the endpoint registers are unchanged. *)
Theorem transmit_pipeline (fuel : nat) (Hfuel : (3 <= fuel)%nat) :
  exists s',
    (executeCommand p env ;; run p env fuel (length (issued s))) s = (inr tt, s')
    /\ issued s'
       = issued s
           ++ [if atomicMode p then SendAtomicSpmRequest req
               else SchedSpmRequest req (commandToSpmRequestLatency p);
               if atomicMode p then SendAtomicNocRequest frame
               else SchedNocRequest frame
                      (wrap64 (spmResponseToNocRequestLatency p
                               + ticksToCycles env (headerDelay resp)));
               finish]
    /\ (addr req = a /\ size req = m /\ cmd req = ReadReq
        /\ senderState req = [SpmSenderState e true false])
    /\ (addr frame
        = getNocAddr env (wrap32 (RegFile.readEpReg (regFile s) e TARGET_COREID))
                     (wrap32 (RegFile.readEpReg (regFile s) e TARGET_EPID))
        /\ size frame = m + sizeofMessageHeader
        /\ cmd frame = WriteReq
        /\ headerDelay frame = 0
        /\ payloadDelay frame = payloadDelay resp
        /\ senderState frame = [NocSenderState true false]
        /\ data frame
           = messageHeaderBytes (coreId p) e m ++ firstn (Z.to_nat m) (data resp)
        /\ Z.of_nat (length (data frame)) = m + sizeofMessageHeader)
    /\ size frame < maxMessageSize p
    /\ RegFile.readDtuReg (regFile s') COMMAND = 0
    /\ RegFile.readDtuReg (regFile s') STATUS = 0
    /\ (forall e' r, RegFile.readEpReg (regFile s') e' r
                     = RegFile.readEpReg (regFile s) e' r).
Proof.
  destruct fuel as [| [| [| f]]]; try lia. clear Hfuel.
  assert (Hreq : addr req = a /\ size req = m /\ cmd req = ReadReq
                 /\ senderState req = [SpmSenderState e true false]).
  { repeat split; try reflexivity. exact (proj1 tp_small). }
  assert (Hslot : size frame < maxMessageSize p).
  { rewrite (proj1 (proj2 tp_frame)). exact Hmax. }
  destruct (atomicMode p) eqn:Hat.
  - exists (mkDtu (finished (regFile (busy s))) (incrementWritePtrEvent_epId s)
                  (issued s ++ [SendAtomicSpmRequest req;
                                SendAtomicNocRequest frame; finish])).
    split.
    + unfold bind at 1. rewrite (tp_start_atomic Hat).
      rewrite (run_step p env _ _ _ (SendAtomicSpmRequest req))
        by exact (nth_error_past (issued s) [_; _; _] 0).
      unfold bind at 1. cbn [deliver]. unfold ret at 1.
      rewrite (run_step p env _ _ _ (SendAtomicNocRequest frame))
        by exact (nth_error_past (issued s) [_; _; _] 1).
      unfold bind at 1. cbn [deliver]. unfold ret at 1.
      apply tp_finish.
    + split; [reflexivity |]. split; [exact Hreq |].
      split; [exact tp_frame |]. split; [exact Hslot |].
      repeat split; reflexivity.
  - exists (mkDtu (finished (regFile (busy s))) (incrementWritePtrEvent_epId s)
                  (issued s
                     ++ [SchedSpmRequest req (commandToSpmRequestLatency p);
                         SchedNocRequest frame
                           (wrap64 (spmResponseToNocRequestLatency p
                                    + ticksToCycles env (headerDelay resp)));
                         finish])).
    split.
    + unfold bind at 1. rewrite (tp_start_timed Hat).
      rewrite (run_step p env _ _ _
                 (SchedSpmRequest req (commandToSpmRequestLatency p)))
        by exact (nth_error_past (issued s) [_] 0).
      unfold bind at 1. cbn [deliver]. fold resp.
      rewrite tp_completion, Hat.
      unfold schedNocRequest, issue, modify.
      cbn [regFile incrementWritePtrEvent_epId issued].
      rewrite <- app_assoc. cbn [app].
      rewrite (run_step p env _ _ _
                 (SchedNocRequest frame
                    (wrap64 (spmResponseToNocRequestLatency p
                             + ticksToCycles env (headerDelay resp)))))
        by exact (nth_error_past (issued s) [_; _] 1).
      unfold bind at 1. cbn [deliver].
      unfold completeNocRequest, schedule, issue, modify.
      cbn [regFile incrementWritePtrEvent_epId issued].
      rewrite <- app_assoc. cbn [app].
      apply tp_finish.
    + split; [reflexivity |]. split; [exact Hreq |].
      split; [exact tp_frame |]. split; [exact Hslot |].
      repeat split; reflexivity.
Qed.

End TransmitPipeline.

Lemma transmit_pipeline_witness :
  exists s',
    (executeCommand (demoParams false) demoEnv
       ;; run (demoParams false) demoEnv 3 0) (demoDtu 33 0) = (inr tt, s')
    /\ map (fun x => match x with
                     | SchedSpmRequest _ d | SchedNocRequest _ d | Schedule _ d => d
                     | _ => -1
                     end) (issued s') = [2; 3; 3].
Proof.
  assert (Hw : widthsFit (demoParams false)) by (vm_compute; discriminate).
  assert (Hep : 2 < numEndpoints (demoParams false)) by reflexivity.
  assert (Hpos : 0 < 64) by reflexivity.
  assert (Hmax : 64 + sizeofMessageHeader < maxMessageSize (demoParams false))
    by reflexivity.
  assert (Hmax32 : maxMessageSize (demoParams false) <= 2 ^ 32)
    by (vm_compute; discriminate).
  destruct (transmit_pipeline (demoParams false) demoEnv (demoDtu 33 0) 2 0
              0x1000 64 Hw eq_refl Hep eq_refl eq_refl eq_refl Hpos Hmax Hmax32
              demoSpm_answers_reads 3 (le_n 3))
    as (s' & Hrun & Hiss & _).
  exists s'. split; [exact Hrun |]. rewrite Hiss. reflexivity.
Defined.

(** X11. The completion of a local scratchpad read does not use the
    endpoint id of its tag: two responses that differ only in the endpoint
    id recorded in their [isLocalRequest] tag are completed alike, the
    endpoint being taken from the control register as it is at completion
    time. *)
Theorem local_completion_ignores_tag_endpoint
        (p : DtuParams) (env : Collaborators) (pkt : Packet)
        (rest : list SenderState) (e1 e2 : Z) (s : Dtu) :
  completeSpmRequest p env
    (setSenderState pkt (SpmSenderState e1 true false :: rest)) s
  = completeSpmRequest p env
      (setSenderState pkt (SpmSenderState e2 true false :: rest)) s.
Proof.
  unfold completeSpmRequest, bind, assert, popSpmSenderState, ret, fail.
  unfold isResponse. cbn [isError cmd senderState setSenderState].
  destruct (isError pkt); [reflexivity |].
  destruct (cmd pkt); reflexivity.
Qed.

(** X12. The busy flag does not gate a new operation.  In timed mode, a
    second execution of a [START_OPERATION] command before the first
    transmission has completed succeeds like the first and schedules a
    second, identical scratchpad read; [executeCommand] does not look at
    the status register. *)
Theorem busy_flag_does_not_gate
        (p : DtuParams) (env : Collaborators) (s : Dtu) (e off a m : Z)
  (Hmode0 : atomicMode p = false)
  (Hwidths : widthsFit p)
  (Hcmd : getCommand p (regFile s) = mkCommand START_OPERATION e off)
  (Hep : e < numEndpoints p)
  (Hmode : RegFile.readEpReg (regFile s) e MODE = TRANSMIT_MESSAGE)
  (Haddr : RegFile.readEpReg (regFile s) e MESSAGE_ADDR = a)
  (Hsize : RegFile.readEpReg (regFile s) e MESSAGE_SIZE = m)
  (Hpos : 0 < m)
  (Hmax : m + sizeofMessageHeader < maxMessageSize p)
  (Hmax32 : maxMessageSize p <= 2 ^ 32) :
  exists s1 s2,
    executeCommand p env s = (inr tt, s1)
    /\ RegFile.readDtuReg (regFile s1) STATUS = 1
    /\ executeCommand p env s1 = (inr tt, s2)
    /\ RegFile.readDtuReg (regFile s2) STATUS = 1
    /\ issued s2
       = issued s ++ [SchedSpmRequest (readRequest p e a m)
                                      (commandToSpmRequestLatency p);
                      SchedSpmRequest (readRequest p e a m)
                                      (commandToSpmRequestLatency p)].
Proof.
  pose proof (tp_start_timed p env s e off a m Hwidths Hcmd Hep Hmode Haddr
                Hsize Hpos Hmax Hmax32 Hmode0) as H1.
  eexists. eexists. split; [exact H1 |]. split; [reflexivity |].
  split.
  - apply (tp_start_timed p env _ e off a m); try assumption.
  - split; [reflexivity |]. cbn [issued]. rewrite <- app_assoc. reflexivity.
Qed.

Lemma busy_flag_does_not_gate_witness :
  exists s2,
    (executeCommand (demoParams false) demoEnv
       ;; executeCommand (demoParams false) demoEnv) (demoDtu 33 0) = (inr tt, s2)
    /\ length (issued s2) = 2%nat.
Proof.
  assert (Hw : widthsFit (demoParams false)) by (vm_compute; discriminate).
  assert (Hep : 2 < numEndpoints (demoParams false)) by reflexivity.
  assert (Hpos : 0 < 64) by reflexivity.
  assert (Hmax : 64 + sizeofMessageHeader < maxMessageSize (demoParams false))
    by reflexivity.
  assert (Hmax32 : maxMessageSize (demoParams false) <= 2 ^ 32)
    by (vm_compute; discriminate).
  destruct (busy_flag_does_not_gate (demoParams false) demoEnv (demoDtu 33 0)
              2 0 0x1000 64 eq_refl Hw eq_refl Hep eq_refl eq_refl eq_refl
              Hpos Hmax Hmax32)
    as (s1 & s2 & H1 & _ & H2 & _ & Hiss).
  exists s2. split.
  - unfold bind. rewrite H1. exact H2.
  - rewrite Hiss. reflexivity.
Defined.

(** X13. The check of the command field widths is made when a request is
    generated, not when the unit is built: when the three widths exceed 64
    bits together, a transmission whose message size passes both size
    checks fails with [ConfigError] in [generateRequest], after the busy
    flag has been set and before anything is issued. *)
Theorem width_check_fails_after_busy
        (p : DtuParams) (env : Collaborators) (s : Dtu) (e : Z)
  (Hwide : 64 < wrap32 (numCmdEpidBits p + numCmdOffsetBits p + numCmdOpcodeBits p))
  (Hpos : 0 < RegFile.readEpReg (regFile s) e MESSAGE_SIZE)
  (Hmax : wrap64 (RegFile.readEpReg (regFile s) e MESSAGE_SIZE + sizeofMessageHeader)
          < maxMessageSize p) :
  startMessageTransmission p env e s = (inl ConfigError, busy s)
  /\ RegFile.readDtuReg (regFile (busy s)) STATUS = 1
  /\ issued (busy s) = issued s.
Proof.
  split; [| split; reflexivity].
  apply Z.ltb_lt in Hpos. apply Z.ltb_lt in Hmax. apply Z.leb_gt in Hwide.
  unfold startMessageTransmission, generateRequest.
  unfold bind, readEpReg, gets, assert, setDtuReg, modify, ret, fail.
  rewrite Hpos, Hmax, Hwide. reflexivity.
Qed.

Lemma width_check_fails_after_busy_witness :
  startMessageTransmission tooWideParams demoEnv 2 (demoDtu 33 0)
  = (inl ConfigError, busy (demoDtu 33 0)).
Proof.
  assert (Hwide : 64 < wrap32 (numCmdEpidBits tooWideParams
                               + numCmdOffsetBits tooWideParams
                               + numCmdOpcodeBits tooWideParams)) by reflexivity.
  assert (Hpos : 0 < RegFile.readEpReg (regFile (demoDtu 33 0)) 2 MESSAGE_SIZE)
    by reflexivity.
  assert (Hmax : wrap64 (RegFile.readEpReg (regFile (demoDtu 33 0)) 2 MESSAGE_SIZE
                         + sizeofMessageHeader) < maxMessageSize tooWideParams)
    by reflexivity.
  exact (proj1 (width_check_fails_after_busy tooWideParams demoEnv (demoDtu 33 0) 2
                  Hwide Hpos Hmax)).
Defined.

(** ** The receive pipeline *)

(** X14. The endpoint a frame is delivered to is its address modulo
    [2 ^ nocEpAddrBits] (for at most 32 address bits): the bits above are
    ignored, so two frames whose addresses agree on the low
    [nocEpAddrBits] bits go to the same endpoint. *)
Theorem frameEpId_low_bits (p : DtuParams) (pkt : Packet)
  (Hbits : 0 <= nocEpAddrBits p <= 32) :
  frameEpId p pkt = addr pkt mod 2 ^ nocEpAddrBits p
  /\ 0 <= frameEpId p pkt < 2 ^ nocEpAddrBits p
  /\ (forall pkt',
      addr pkt' mod 2 ^ nocEpAddrBits p = addr pkt mod 2 ^ nocEpAddrBits p ->
      frameEpId p pkt' = frameEpId p pkt).
Proof.
  assert (Hp : 0 < 2 ^ nocEpAddrBits p <= 2 ^ 32).
  { split; [apply Z.pow_pos_nonneg; lia | apply Z.pow_le_mono_r; lia]. }
  assert (Hf : forall q, frameEpId p q = addr q mod 2 ^ nocEpAddrBits p).
  { intros q. unfold frameEpId.
    rewrite Z.shiftl_mul_pow2, Z.mul_1_l by lia.
    rewrite (wrap64_small (2 ^ nocEpAddrBits p)) by lia.
    rewrite (wrap64_small (2 ^ nocEpAddrBits p - 1)) by lia.
    rewrite Z.sub_1_r, <- Z.ones_equiv, Z.land_ones by lia.
    apply wrap32_small.
    pose proof (Z.mod_pos_bound (addr q) (2 ^ nocEpAddrBits p)). lia. }
  split; [apply Hf |]. split.
  - rewrite Hf. apply Z.mod_pos_bound. lia.
  - intros pkt' H. now rewrite !Hf.
Qed.

Lemma frameEpId_low_bits_witness :
  0 <= nocEpAddrBits (demoParams true) <= 32
  /\ frameEpId (demoParams true) (demoFrame 5) = 5.
Proof.
  assert (H : 0 <= nocEpAddrBits (demoParams true) <= 32)
    by (split; discriminate).
  split; [exact H |].
  rewrite (proj1 (frameEpId_low_bits (demoParams true) (demoFrame 5) H)).
  reflexivity.
Defined.

Lemma writeReq_is_write (pkt : Packet) :
  cmd pkt = WriteReq -> isWrite pkt = true /\ hasData pkt = true.
Proof. intros H. unfold isWrite, hasData. now rewrite H. Qed.

(** What [recvNocMessage] does once the buffer is found not full. *)
Lemma recvNocMessage_accept (p : DtuParams) (env : Collaborators)
      (pkt : Packet) (s : Dtu) :
  wrap32 (messageCount s (frameEpId p pkt))
    <> wrap32 (bufferSizeSlots s (frameEpId p pkt)) ->
  recvNocMessage p env pkt s
  = (let e := frameEpId p pkt in
     let stored := storedFrame s e pkt (senderState pkt) in
     if atomicMode p then
       pkt' <- sendAtomicSpmRequest env stored ;; completeSpmRequest p env pkt'
     else
       schedSpmRequest (setHeaderDelay stored 0)
         (wrap64 (ticksToCycles env (headerDelay pkt)
                  + nocRequestToSpmRequestLatency p))) s.
Proof.
  intros H. apply Z.eqb_neq in H. unfold messageCount, bufferSizeSlots in H.
  unfold recvNocMessage, bind at 1 2 3 4, readEpReg, gets, assert, ret.
  rewrite H. destruct pkt. reflexivity.
Qed.

Lemma completeForwardedSpmRequest_atomic (p : DtuParams) (env : Collaborators)
      (pkt : Packet) (e : Z) (s : Dtu) :
  atomicMode p = true -> isWrite pkt = true ->
  completeForwardedSpmRequest p env pkt e s = incrementWritePtr p e s.
Proof.
  intros Hat Hwr. unfold completeForwardedSpmRequest, bind at 1, assert, ret.
  rewrite Hwr, Hat. reflexivity.
Qed.

Lemma completeForwardedSpmRequest_timed (p : DtuParams) (env : Collaborators)
      (pkt : Packet) (e : Z) (s : Dtu) :
  atomicMode p = false -> isWrite pkt = true ->
  completeForwardedSpmRequest p env pkt e s
  = (let d := wrap64 (ticksToCycles env
                        (wrap64 (headerDelay pkt + payloadDelay pkt))
                      + spmResponseToNocResponseLatency p) in
     (inr tt,
      mkDtu (regFile s) e
            (issued s ++ [Schedule IncrementWritePtrEvent d;
                          SchedNocResponse
                            (setPayloadDelay (setHeaderDelay pkt 0) 0) d]))).
Proof.
  intros Hat Hwr.
  unfold completeForwardedSpmRequest, schedule, schedNocResponse, bind, assert,
    issue, modify, ret.
  rewrite Hwr, Hat. cbv zeta. cbn [regFile issued incrementWritePtrEvent_epId].
  rewrite <- app_assoc. reflexivity.
Qed.

Lemma wrap32_differ (x y : Z) :
  0 <= x < y -> y < 2 ^ 32 -> wrap32 x <> wrap32 y.
Proof. intros Hx Hy. rewrite !wrap32_small by lia. lia. Qed.

(** X15. Receive in atomic mode.  A message frame (a write request tagged
    as a message) for an endpoint whose buffer has fewer than [2 ^ 32]
    slots and is not full is stored and counted within the call, when the
    scratchpad answers a write request with a write response that is no
    error and keeps the tags: exactly one scratchpad request is issued,
    addressed to the write pointer, with the data and size of the frame and
    a forwarded tag naming the endpoint in place of the network tag;
    [messageCount] grows by one, the write pointer moves to the next slot,
    nothing is scheduled and the command and status registers are not
    touched.  The size of the frame is not compared with the slot size. *)
Theorem receive_atomic (p : DtuParams) (env : Collaborators) (pkt : Packet)
        (rest : list SenderState) (s : Dtu)
  (Hat : atomicMode p = true)
  (Herr : isError pkt = false)
  (Hcmd : cmd pkt = WriteReq)
  (Htag : senderState pkt = NocSenderState true false :: rest)
  (Hspm : spmAnswersWrites env)
  (Hroom : messageCount s (frameEpId p pkt) < bufferSizeSlots s (frameEpId p pkt))
  (Hslots : bufferSizeSlots s (frameEpId p pkt) < 2 ^ 32) :
  let e := frameEpId p pkt in
  let stored := storedFrame s e pkt rest in
  exists s',
    handleNocRequest p env pkt s = (inr tt, s')
    /\ issued s' = issued s ++ [SendAtomicSpmRequest stored]
    /\ (addr stored = writePtr s e /\ data stored = data pkt
        /\ size stored = size pkt /\ cmd stored = WriteReq
        /\ senderState stored = SpmSenderState e false true :: rest)
    /\ messageCount s' e = messageCount s e + 1
    /\ writePtr s' e = advance (maxMessageSize p) (writePtr s e)
                               (bufferAddr s e) (bufferSizeSlots s e)
    /\ readPtr s' e = readPtr s e
    /\ (forall d, RegFile.readDtuReg (regFile s') d
                  = RegFile.readDtuReg (regFile s) d).
Proof.
  intros e stored.
  destruct (writeReq_is_write pkt Hcmd) as (Hwr & Hdata).
  set (s1 := mkDtu (regFile s) (incrementWritePtrEvent_epId s)
                   (issued s ++ [SendAtomicSpmRequest stored])).
  assert (Hroom1 : messageCount s1 e < bufferSizeSlots s1 e) by exact Hroom.
  exists (produced p e s1).
  split.
  - rewrite (handleNocRequest_dispatch p env pkt s true false rest
               Herr Hwr Hdata Htag).
    change (xorb true false) with true. cbv iota.
    rewrite recvNocMessage_accept.
    2:{ rewrite frameEpId_setSenderState. apply wrap32_differ; [| exact Hslots].
        split; [apply messageCount_range | exact Hroom]. }
    cbv zeta. rewrite Hat.
    unfold sendAtomicSpmRequest, bind at 1 2, issue, modify, ret.
    destruct (Hspm stored Hcmd) as (Hc & He & Ht).
    match goal with
    | |- _ = ?rhs =>
        change (completeSpmRequest p env (spmAccess env stored) s1 = rhs)
    end.
    assert (Hresp : isResponse (spmAccess env stored) = true)
      by (unfold isResponse; now rewrite Hc).
    rewrite (completeSpmRequest_dispatch p env _ s1 e false true rest He Hresp Ht).
    change (xorb false true) with true. cbv iota.
    rewrite completeForwardedSpmRequest_atomic;
      [| exact Hat | unfold isWrite; cbn [cmd setSenderState]; now rewrite Hc].
    apply incrementWritePtr_ok. exact Hroom1.
  - split; [reflexivity |].
    split; [repeat split; try reflexivity; exact Hcmd |].
    split; [exact (produced_messageCount p e s1 Hroom1) |].
    split; [exact (produced_writePtr p e s1) |].
    split; [exact (proj1 (proj2 (proj2 (produced_frame p e s1)))) |].
    intros d. reflexivity.
Qed.

Lemma demoSpm_answers_writes : spmAnswersWrites demoEnv.
Proof.
  intros pkt H. simpl. unfold demoSpm. rewrite H. simpl.
  repeat split; reflexivity.
Qed.

Lemma receive_atomic_witness :
  exists s',
    handleNocRequest (demoParams true) demoEnv (demoFrame 5) (demoDtu 0 3)
    = (inr tt, s')
    /\ messageCount s' 5 = 4
    /\ writePtr s' 5 = 0x2000.
Proof.
  assert (Hroom : messageCount (demoDtu 0 3) (frameEpId (demoParams true) (demoFrame 5))
                  < bufferSizeSlots (demoDtu 0 3)
                      (frameEpId (demoParams true) (demoFrame 5))) by reflexivity.
  assert (Hslots : bufferSizeSlots (demoDtu 0 3)
                     (frameEpId (demoParams true) (demoFrame 5)) < 2 ^ 32)
    by reflexivity.
  destruct (receive_atomic (demoParams true) demoEnv (demoFrame 5) [] (demoDtu 0 3)
              eq_refl eq_refl eq_refl eq_refl demoSpm_answers_writes Hroom Hslots)
    as (s' & Hrun & _ & _ & Hc & Hw & _).
  exists s'. split; [exact Hrun |]. split.
  - exact (eq_trans Hc eq_refl).
  - exact (eq_trans Hw eq_refl).
Defined.

Lemma handleNocRequest_timed (p : DtuParams) (env : Collaborators) (pkt : Packet)
      (rest : list SenderState) (s : Dtu) :
  atomicMode p = false ->
  isError pkt = false ->
  cmd pkt = WriteReq ->
  senderState pkt = NocSenderState true false :: rest ->
  wrap32 (messageCount s (frameEpId p pkt))
    <> wrap32 (bufferSizeSlots s (frameEpId p pkt)) ->
  handleNocRequest p env pkt s
  = (inr tt,
     mkDtu (regFile s) (incrementWritePtrEvent_epId s)
           (issued s
              ++ [SchedSpmRequest
                    (setHeaderDelay (storedFrame s (frameEpId p pkt) pkt rest) 0)
                    (wrap64 (ticksToCycles env (headerDelay pkt)
                             + nocRequestToSpmRequestLatency p))])).
Proof.
  intros Hat Herr Hcmd Htag Hroom.
  destruct (writeReq_is_write pkt Hcmd) as (Hwr & Hdata).
  rewrite (handleNocRequest_dispatch p env pkt s true false rest
             Herr Hwr Hdata Htag).
  change (xorb true false) with true. cbv iota.
  rewrite recvNocMessage_accept by (rewrite frameEpId_setSenderState; exact Hroom).
  cbv zeta. rewrite Hat. reflexivity.
Qed.

(** X16. Receive in timed mode does not reserve the slot.  A message frame
    for an endpoint whose message count and buffer size differ in their low
    32 bits is accepted: one scratchpad write is scheduled at the write
    pointer, after the header delay of the frame plus
    [nocRequestToSpmRequestLatency] cycles, and no register changes.  So a
    second frame for the same endpoint that arrives before the first is
    completed is scheduled to the same scratchpad address. *)
Theorem receive_timed_does_not_reserve
        (p : DtuParams) (env : Collaborators) (pkt1 pkt2 : Packet)
        (rest1 rest2 : list SenderState) (s : Dtu)
  (Hat : atomicMode p = false)
  (Herr1 : isError pkt1 = false) (Hcmd1 : cmd pkt1 = WriteReq)
  (Htag1 : senderState pkt1 = NocSenderState true false :: rest1)
  (Herr2 : isError pkt2 = false) (Hcmd2 : cmd pkt2 = WriteReq)
  (Htag2 : senderState pkt2 = NocSenderState true false :: rest2)
  (Hsame : frameEpId p pkt2 = frameEpId p pkt1)
  (Hroom : wrap32 (messageCount s (frameEpId p pkt1))
           <> wrap32 (bufferSizeSlots s (frameEpId p pkt1))) :
  let e := frameEpId p pkt1 in
  exists s1 s2 st1 st2,
    handleNocRequest p env pkt1 s = (inr tt, s1)
    /\ regFile s1 = regFile s
    /\ handleNocRequest p env pkt2 s1 = (inr tt, s2)
    /\ regFile s2 = regFile s
    /\ issued s2
       = issued s
           ++ [SchedSpmRequest st1
                 (wrap64 (ticksToCycles env (headerDelay pkt1)
                          + nocRequestToSpmRequestLatency p));
               SchedSpmRequest st2
                 (wrap64 (ticksToCycles env (headerDelay pkt2)
                          + nocRequestToSpmRequestLatency p))]
    /\ addr st1 = writePtr s e /\ addr st2 = writePtr s e
    /\ headerDelay st1 = 0 /\ headerDelay st2 = 0
    /\ data st1 = data pkt1 /\ data st2 = data pkt2.
Proof.
  intros e.
  pose proof (handleNocRequest_timed p env pkt1 rest1 s Hat Herr1 Hcmd1 Htag1 Hroom)
    as H1.
  eexists. eexists. eexists. eexists.
  split; [exact H1 |]. split; [reflexivity |].
  split.
  - apply (handleNocRequest_timed p env pkt2 rest2); try assumption.
    rewrite Hsame. exact Hroom.
  - split; [reflexivity |].
    split; [cbn [issued]; rewrite <- app_assoc; reflexivity |].
    cbn [regFile incrementWritePtrEvent_epId]. rewrite Hsame.
    repeat split; reflexivity.
Qed.

Lemma receive_timed_does_not_reserve_witness :
  exists s2,
    (handleNocRequest (demoParams false) demoEnv (demoFrame 5)
       ;; handleNocRequest (demoParams false) demoEnv (demoFrame (256 + 5)))
      (demoDtu 0 3) = (inr tt, s2)
    /\ map addr (spmRequests s2) = [0x2300; 0x2300].
Proof.
  assert (Hroom : wrap32 (messageCount (demoDtu 0 3)
                            (frameEpId (demoParams false) (demoFrame 5)))
                  <> wrap32 (bufferSizeSlots (demoDtu 0 3)
                               (frameEpId (demoParams false) (demoFrame 5))))
    by (vm_compute; discriminate).
  destruct (receive_timed_does_not_reserve (demoParams false) demoEnv
              (demoFrame 5) (demoFrame (256 + 5)) [] [] (demoDtu 0 3)
              eq_refl eq_refl eq_refl eq_refl eq_refl eq_refl eq_refl eq_refl Hroom)
    as (s1 & s2 & st1 & st2 & H1 & _ & H2 & _ & Hiss & Ha1 & Ha2 & _).
  exists s2. split.
  - unfold bind. rewrite H1. exact H2.
  - unfold spmRequests. rewrite Hiss.
    change (map addr [st1; st2] = [0x2300; 0x2300]).
    cbn [map]. rewrite Ha1, Ha2. reflexivity.
Defined.

(** X17. The receive pipeline in timed mode, with its schedule.  For a
    message frame to an endpoint whose buffer has fewer than [2 ^ 32] slots
    and is not full, and a scratchpad that answers a write request with a
    write response keeping its tags: accepting the frame and delivering
    what is issued issues exactly three actions, the scratchpad write, the
    increment event and the response to the sender.  The event and the
    response are scheduled for the same cycle: the header and payload delay
    of the scratchpad's answer, in cycles, plus
    [spmResponseToNocResponseLatency]; when the scratchpad returns the
    delays of the request unchanged, this is the payload delay of the frame
    plus that latency, the header delay having been reset when the write
    was scheduled.  The response is the answered packet without the unit's
    tag and with both delays reset; the message is counted, and the write
    pointer advanced, only when the event runs, for the endpoint recorded
    in the event. *)
Theorem receive_pipeline_timed (p : DtuParams) (env : Collaborators) (pkt : Packet)
        (rest : list SenderState) (s : Dtu) (fuel : nat)
  (Hat : atomicMode p = false)
  (Herr : isError pkt = false)
  (Hcmd : cmd pkt = WriteReq)
  (Htag : senderState pkt = NocSenderState true false :: rest)
  (Hspm : spmAnswersWrites env)
  (Hroom : messageCount s (frameEpId p pkt) < bufferSizeSlots s (frameEpId p pkt))
  (Hslots : bufferSizeSlots s (frameEpId p pkt) < 2 ^ 32)
  (Hfuel : (3 <= fuel)%nat) :
  let e := frameEpId p pkt in
  let st := setHeaderDelay (storedFrame s e pkt rest) 0 in
  let resp := spmAccess env st in
  let d1 := wrap64 (ticksToCycles env (headerDelay pkt)
                    + nocRequestToSpmRequestLatency p) in
  let d2 := wrap64 (ticksToCycles env
                      (wrap64 (headerDelay resp + payloadDelay resp))
                    + spmResponseToNocResponseLatency p) in
  exists s' ack,
    (handleNocRequest p env pkt ;; run p env fuel (length (issued s))) s
    = (inr tt, s')
    /\ issued s'
       = issued s ++ [SchedSpmRequest st d1;
                      Schedule IncrementWritePtrEvent d2;
                      SchedNocResponse ack d2]
    /\ (headerDelay resp = headerDelay st ->
        payloadDelay resp = payloadDelay st ->
        d2 = wrap64 (ticksToCycles env (wrap64 (0 + payloadDelay pkt))
                     + spmResponseToNocResponseLatency p))
    /\ (cmd ack = WriteResp /\ senderState ack = rest
        /\ headerDelay ack = 0 /\ payloadDelay ack = 0)
    /\ fst (handleNocRequest p env pkt s) = inr tt
    /\ regFile (snd (handleNocRequest p env pkt s)) = regFile s
    /\ messageCount s' e = messageCount s e + 1
    /\ writePtr s' e = advance (maxMessageSize p) (writePtr s e)
                               (bufferAddr s e) (bufferSizeSlots s e)
    /\ incrementWritePtrEvent_epId s' = e.
Proof.
  intros e st resp d1 d2.
  destruct fuel as [| [| [| f]]]; try lia. clear Hfuel.
  assert (Hne : wrap32 (messageCount s e) <> wrap32 (bufferSizeSlots s e)).
  { apply wrap32_differ; [| exact Hslots].
    split; [apply messageCount_range | exact Hroom]. }
  pose proof (handleNocRequest_timed p env pkt rest s Hat Herr Hcmd Htag Hne)
    as Hacc.
  fold e in Hacc. fold st in Hacc. fold d1 in Hacc.
  destruct (Hspm st Hcmd) as (Hc & He & Ht).
  fold resp in Hc, He, Ht.
  set (ack := setPayloadDelay (setHeaderDelay (setSenderState resp rest) 0) 0).
  set (A := SchedSpmRequest st d1).
  set (B := Schedule IncrementWritePtrEvent d2).
  set (C := SchedNocResponse ack d2).
  set (s2 := mkDtu (regFile s) e (issued s ++ [A; B; C])).
  assert (Hroom2 : messageCount s2 e < bufferSizeSlots s2 e) by exact Hroom.
  exists (produced p e s2), ack.
  split.
  - unfold bind at 1. rewrite Hacc.
    rewrite (run_step p env _ _ _ A)
      by exact (nth_error_past (issued s) [A] 0).
    unfold bind at 1. cbn [deliver A]. fold resp.
    assert (Hresp : isResponse resp = true)
      by (unfold isResponse; now rewrite Hc).
    rewrite (completeSpmRequest_dispatch p env resp _ e false true rest
               He Hresp Ht).
    change (xorb false true) with true. cbv iota.
    rewrite completeForwardedSpmRequest_timed;
      [| exact Hat | unfold isWrite; cbn [cmd setSenderState]; now rewrite Hc].
    cbv zeta. cbn [headerDelay payloadDelay setSenderState].
    cbn [regFile issued]. rewrite <- app_assoc. cbn [app].
    fold d2. fold ack. fold B. fold C.
    rewrite (run_step p env _ _ _ B)
      by exact (nth_error_past (issued s) [A; B; C] 1).
    unfold bind at 1. cbn [deliver B processEvent].
    unfold bind at 1, gets. cbn [incrementWritePtrEvent_epId].
    fold A. fold s2. rewrite (incrementWritePtr_ok p e s2 Hroom2).
    rewrite (run_step p env _ _ _ C)
      by exact (nth_error_past (issued s) [A; B; C] 2).
    unfold bind at 1. cbn [deliver C]. unfold ret at 1.
    apply run_done.
    exact (nth_error_past (issued s) [A; B; C] 3).
  - split; [reflexivity |].
    split.
    { intros Hhd Hpd. unfold d2. rewrite Hhd, Hpd. reflexivity. }
    split.
    { repeat split; try reflexivity. unfold ack. cbn [cmd setPayloadDelay
        setHeaderDelay setSenderState]. exact Hc. }
    split; [rewrite Hacc; reflexivity |].
    split; [rewrite Hacc; reflexivity |].
    split; [exact (produced_messageCount p e s2 Hroom2) |].
    split; [exact (produced_writePtr p e s2) |]. reflexivity.
Qed.

Lemma receive_pipeline_timed_witness :
  exists s',
    (handleNocRequest (demoParams false) demoEnv (demoFrame 5)
       ;; run (demoParams false) demoEnv 3 0) (demoDtu 0 3) = (inr tt, s')
    /\ length (issued s') = 3%nat
    /\ messageCount s' 5 = 4.
Proof.
  assert (Hroom : messageCount (demoDtu 0 3) (frameEpId (demoParams false) (demoFrame 5))
                  < bufferSizeSlots (demoDtu 0 3)
                      (frameEpId (demoParams false) (demoFrame 5))) by reflexivity.
  assert (Hslots : bufferSizeSlots (demoDtu 0 3)
                     (frameEpId (demoParams false) (demoFrame 5)) < 2 ^ 32)
    by reflexivity.
  destruct (receive_pipeline_timed (demoParams false) demoEnv (demoFrame 5) []
              (demoDtu 0 3) 3 eq_refl eq_refl eq_refl eq_refl
              demoSpm_answers_writes Hroom Hslots (le_n 3))
    as (s' & ack & Hrun & Hiss & _ & _ & _ & _ & Hc & _).
  exists s'. split; [exact Hrun |]. split.
  - rewrite Hiss. reflexivity.
  - exact (eq_trans Hc eq_refl).
Defined.

(** X18. What the two completion entry points refuse, each time with the
    state untouched: a packet flagged as an error; for a scratchpad
    completion, a packet that is not a response, a read response tagged as
    forwarded and a write response tagged as local; for a network request,
    a packet that is not a write or carries no data, and a frame tagged as
    a raw memory request, which is unsupported. *)
Theorem entry_points_refuse (p : DtuParams) (env : Collaborators)
        (pkt : Packet) (s : Dtu) :
  (isError pkt = true ->
   completeSpmRequest p env pkt s = (inl PacketError, s)
   /\ handleNocRequest p env pkt s = (inl PacketError, s))
  /\ (isError pkt = false -> isResponse pkt = false ->
      completeSpmRequest p env pkt s = (inl NotAResponse, s))
  /\ (forall e rest,
      isError pkt = false -> cmd pkt = ReadResp ->
      senderState pkt = SpmSenderState e false true :: rest ->
      completeSpmRequest p env pkt s = (inl NotAWrite, s))
  /\ (forall e rest,
      isError pkt = false -> cmd pkt = WriteResp ->
      senderState pkt = SpmSenderState e true false :: rest ->
      completeSpmRequest p env pkt s = (inl NotARead, s))
  /\ (isError pkt = false -> isWrite pkt = false ->
      handleNocRequest p env pkt s = (inl NotAWrite, s))
  /\ (isError pkt = false -> cmd pkt = WriteResp ->
      handleNocRequest p env pkt s = (inl NoData, s))
  /\ (forall rest,
      isError pkt = false -> cmd pkt = WriteReq ->
      senderState pkt = NocSenderState false true :: rest ->
      handleNocRequest p env pkt s = (inl Unsupported, s)).
Proof.
  repeat split.
  - unfold completeSpmRequest, bind, assert, fail. now rewrite H.
  - unfold handleNocRequest, bind, assert, fail. now rewrite H.
  - intros Herr Hresp. unfold completeSpmRequest, bind, assert, fail, ret.
    now rewrite Herr, Hresp.
  - intros e rest Herr Hcmd Htag.
    rewrite (completeSpmRequest_dispatch p env pkt s e false true rest Herr)
      by (assumption || (unfold isResponse; now rewrite Hcmd)).
    change (xorb false true) with true. cbv iota.
    unfold completeForwardedSpmRequest, bind, assert, fail, isWrite.
    cbn [cmd setSenderState]. now rewrite Hcmd.
  - intros e rest Herr Hcmd Htag.
    rewrite (completeSpmRequest_dispatch p env pkt s e true false rest Herr)
      by (assumption || (unfold isResponse; now rewrite Hcmd)).
    change (xorb true false) with true. cbv iota.
    unfold completeLocalSpmRequest, bind, assert, fail, isRead.
    cbn [cmd setSenderState]. now rewrite Hcmd.
  - intros Herr Hwr. unfold handleNocRequest, bind, assert, fail, ret.
    now rewrite Herr, Hwr.
  - intros Herr Hcmd. unfold handleNocRequest, bind, assert, fail, ret, isWrite,
      hasData. now rewrite Herr, Hcmd.
  - intros rest Herr Hcmd Htag.
    destruct (writeReq_is_write pkt Hcmd) as (Hwr & Hdata).
    rewrite (handleNocRequest_dispatch p env pkt s false true rest
               Herr Hwr Hdata Htag).
    reflexivity.
Qed.

Lemma entry_points_refuse_witness :
  let pkt := mkPacket (9 * 256 + 5) 8 WriteReq [1; 2; 3; 4; 5; 6; 7; 8] 0 0
                      [NocSenderState false true] false 7 in
  handleNocRequest (demoParams true) demoEnv pkt (demoDtu 0 0)
  = (inl Unsupported, demoDtu 0 0).
Proof.
  intros pkt.
  destruct (entry_points_refuse (demoParams true) demoEnv pkt (demoDtu 0 0))
    as (_ & _ & _ & _ & _ & _ & H).
  exact (H [] eq_refl eq_refl eq_refl).
Defined.

(** ** Across the entry points *)

Lemma completeLocalSpmRequest_size_mismatch
      (p : DtuParams) (env : Collaborators) (pkt : Packet) (s : Dtu) :
  isRead pkt = true ->
  size pkt <> wrap32 (RegFile.readEpReg (regFile s)
                        (epId (getCommand p (regFile s))) MESSAGE_SIZE) ->
  completeLocalSpmRequest p env pkt s = (inl SizeMismatch, s).
Proof.
  intros Hrd Hsz. apply Z.eqb_neq in Hsz.
  unfold completeLocalSpmRequest, bind, readEpReg, gets, assert, ret, fail.
  rewrite Hrd, Hsz. reflexivity.
Qed.

(** X19. A scratchpad answer of the wrong size stops the transmission.  In
    atomic mode, for a [START_OPERATION] command on a transmit endpoint
    whose message size [m] satisfies [0 < m] and [m + 4 < maxMessageSize],
    with [maxMessageSize <= 2 ^ 32] and command field widths that pass the
    check of [generateRequest]: when the scratchpad answers the read with a
    read response that is no error and keeps the tags but whose size is not
    [m], the command fails with [SizeMismatch] after the scratchpad request
    was issued: no network request is made and the busy flag stays set. *)
Theorem wrong_size_answer_stops_transmission
        (p : DtuParams) (env : Collaborators) (s : Dtu) (e off a m : Z)
  (Hat : atomicMode p = true)
  (Hwidths : widthsFit p)
  (Hcmd : getCommand p (regFile s) = mkCommand START_OPERATION e off)
  (Hep : e < numEndpoints p)
  (Hmode : RegFile.readEpReg (regFile s) e MODE = TRANSMIT_MESSAGE)
  (Haddr : RegFile.readEpReg (regFile s) e MESSAGE_ADDR = a)
  (Hsize : RegFile.readEpReg (regFile s) e MESSAGE_SIZE = m)
  (Hpos : 0 < m)
  (Hmax : m + sizeofMessageHeader < maxMessageSize p)
  (Hmax32 : maxMessageSize p <= 2 ^ 32)
  (Hresp : cmd (spmAccess env (readRequest p e a m)) = ReadResp)
  (Herr : isError (spmAccess env (readRequest p e a m)) = false)
  (Htag : senderState (spmAccess env (readRequest p e a m))
          = senderState (readRequest p e a m))
  (Hwrong : size (spmAccess env (readRequest p e a m)) <> m) :
  let s' := snd (executeCommand p env s) in
  fst (executeCommand p env s) = inl SizeMismatch
  /\ issued s' = issued s ++ [SendAtomicSpmRequest (readRequest p e a m)]
  /\ nocRequests s' = nocRequests s
  /\ RegFile.readDtuReg (regFile s') STATUS = 1.
Proof.
  set (req := readRequest p e a m) in *.
  set (s1 := mkDtu (regFile (busy s)) (incrementWritePtrEvent_epId s)
                   (issued s ++ [SendAtomicSpmRequest req])).
  assert (Hrun : executeCommand p env s = (inl SizeMismatch, s1)).
  { rewrite (tp_start p env s e off a m Hwidths Hcmd Hep Hmode Haddr Hsize
               Hpos Hmax Hmax32), Hat.
    unfold sendAtomicSpmRequest, bind at 1 2, issue, modify, ret.
    match goal with
    | |- _ = ?rhs =>
        change (completeSpmRequest p env (spmAccess env req) s1 = rhs)
    end.
    rewrite (completeSpmRequest_dispatch p env _ s1 e true false [] Herr);
      [| unfold isResponse; now rewrite Hresp | exact Htag].
    change (xorb true false) with true. cbv iota.
    apply completeLocalSpmRequest_size_mismatch.
    - unfold isRead. cbn [cmd setSenderState]. now rewrite Hresp.
    - cbn [regFile s1]. rewrite getCommand_busy, Hcmd. cbn [epId].
      change (RegFile.readEpReg (regFile (busy s)) e MESSAGE_SIZE)
        with (RegFile.readEpReg (regFile s) e MESSAGE_SIZE).
      rewrite Hsize.
      rewrite (proj1 (tp_small p m Hpos Hmax Hmax32)). exact Hwrong. }
  intros s'. subst s'. rewrite Hrun. cbn [fst snd].
  split; [reflexivity |]. split; [reflexivity |].
  split; [| reflexivity].
  unfold nocRequests. cbn [issued s1]. rewrite collect_app. cbn [collect].
  unfold req. cbn [nocRequestOf]. apply app_nil_r.
Qed.

Lemma wrong_size_answer_stops_transmission_witness :
  fst (executeCommand (demoParams true) shortSpmEnv (demoDtu 33 0))
  = inl SizeMismatch
  /\ nocRequests (snd (executeCommand (demoParams true) shortSpmEnv (demoDtu 33 0)))
     = [].
Proof.
  assert (Hw : widthsFit (demoParams true)) by (vm_compute; discriminate).
  assert (Hep : 2 < numEndpoints (demoParams true)) by reflexivity.
  assert (Hpos : 0 < 64) by reflexivity.
  assert (Hmax : 64 + sizeofMessageHeader < maxMessageSize (demoParams true))
    by reflexivity.
  assert (Hmax32 : maxMessageSize (demoParams true) <= 2 ^ 32)
    by (vm_compute; discriminate).
  assert (Hwrong : size (spmAccess shortSpmEnv (readRequest (demoParams true) 2 0x1000 64))
                   <> 64) by (vm_compute; discriminate).
  destruct (wrong_size_answer_stops_transmission (demoParams true) shortSpmEnv
              (demoDtu 33 0) 2 0 0x1000 64 eq_refl Hw eq_refl Hep eq_refl eq_refl
              eq_refl Hpos Hmax Hmax32 eq_refl eq_refl eq_refl Hwrong)
    as (Hf & _ & Hn & _).
  split; [exact Hf | exact Hn].
Defined.

(** X20. A command write in atomic mode is carried out before
    [handleCpuRequest] returns.  When the register file reports that the
    command register was written and the registers it leaves hold a
    [START_OPERATION] command for a transmit endpoint with a valid message,
    the call issues the scratchpad read and the network write of the
    transmission and schedules its finish event, leaves the unit busy, and
    hands back the packet with its original address; no response to the
    core and no command event is scheduled. *)
Theorem command_write_transmits_at_once
        (p : DtuParams) (env : Collaborators) (pkt pkt' : Packet)
        (rf' : RegFile.t) (s : Dtu) (e off a m : Z)
  (Hat : atomicMode p = true)
  (Hreg : regFileHandleRequest env (regFile s)
            (setAddr pkt (wrap64 (addr pkt - cpuBaseAddr p)))
          = (rf', pkt', true))
  (Hwidths : widthsFit p)
  (Hcmd : getCommand p rf' = mkCommand START_OPERATION e off)
  (Hep : e < numEndpoints p)
  (Hmode : RegFile.readEpReg rf' e MODE = TRANSMIT_MESSAGE)
  (Haddr : RegFile.readEpReg rf' e MESSAGE_ADDR = a)
  (Hsize : RegFile.readEpReg rf' e MESSAGE_SIZE = m)
  (Hpos : 0 < m)
  (Hmax : m + sizeofMessageHeader < maxMessageSize p)
  (Hmax32 : maxMessageSize p <= 2 ^ 32)
  (Hspm : spmAnswersReads env) :
  exists s' frame d,
    handleCpuRequest p env pkt s = (inr (setAddr pkt' (addr pkt)), s')
    /\ issued s'
       = issued s ++ [SendAtomicSpmRequest (readRequest p e a m);
                      SendAtomicNocRequest frame;
                      Schedule FinishMessageTransmissionEvent d]
    /\ size frame = m + sizeofMessageHeader
    /\ RegFile.readDtuReg (regFile s') STATUS = 1
    /\ (forall e' r, RegFile.readEpReg (regFile s') e' r = RegFile.readEpReg rf' e' r).
Proof.
  set (s1 := mkDtu rf' (incrementWritePtrEvent_epId s) (issued s)).
  pose proof (tp_start_atomic p env s1 e off a m Hwidths Hcmd Hep Hmode Haddr
                Hsize Hpos Hmax Hmax32 Hspm Hat) as Hexec.
  pose proof (tp_frame p env s1 e a m Hsize Hpos Hmax Hmax32 Hspm)
    as (_ & Hfsize & _).
  eexists. eexists. eexists. split.
  - unfold handleCpuRequest, bind at 1. rewrite Hreg, Hat.
    cbn [negb]. cbv beta iota zeta. fold s1.
    unfold bind, ret. rewrite Hexec. reflexivity.
  - split; [reflexivity |]. split; [exact Hfsize |].
    split; [reflexivity |]. intros e' r. reflexivity.
Qed.

Lemma command_write_transmits_at_once_witness :
  let pkt := mkPacket 0x10000000 8 WriteReq [33] 0 0 [] false 7 in
  exists s' resp,
    handleCpuRequest (demoParams true) demoEnv pkt (demoDtu 0 0) = (inr resp, s')
    /\ addr resp = 0x10000000
    /\ length (issued s') = 3%nat.
Proof.
  intros pkt.
  assert (Hw : widthsFit (demoParams true)) by (vm_compute; discriminate).
  assert (Hep : 2 < numEndpoints (demoParams true)) by reflexivity.
  assert (Hpos : 0 < 64) by reflexivity.
  assert (Hmax : 64 + sizeofMessageHeader < maxMessageSize (demoParams true))
    by reflexivity.
  assert (Hmax32 : maxMessageSize (demoParams true) <= 2 ^ 32)
    by (vm_compute; discriminate).
  destruct (command_write_transmits_at_once (demoParams true) demoEnv pkt
              (setAddr pkt 0)
              (RegFile.setDtuReg (regFile (demoDtu 0 0)) COMMAND 33)
              (demoDtu 0 0) 2 0 0x1000 64 eq_refl eq_refl Hw eq_refl Hep
              eq_refl eq_refl eq_refl Hpos Hmax Hmax32 demoSpm_answers_reads)
    as (s' & frame & d & Hrun & Hiss & _).
  exists s', (setAddr (setAddr pkt 0) (addr pkt)).
  split; [exact Hrun |]. split; [reflexivity |]. rewrite Hiss. reflexivity.
Defined.

(** ** What each timing mode issues *)

Ltac mode_issue :=
  unfold modeAction;
  try match goal with H : atomicMode _ = _ |- _ => rewrite H end;
  reflexivity.

Section ModeDiscipline.

Variable p : DtuParams.
Variable env : Collaborators.

Lemma completeNocRequest_mode (pkt : Packet) :
  keeps (modeAction p) (completeNocRequest env pkt).
Proof.
  unfold completeNocRequest, schedule. keeps_step.
  unfold modeAction. destruct (atomicMode p); reflexivity.
Qed.

Lemma completeLocalSpmRequest_mode (pkt : Packet) :
  keeps (modeAction p) (completeLocalSpmRequest p env pkt).
Proof.
  unfold completeLocalSpmRequest.
  keeps_step; [keeps_step |]. do 4 (keeps_step; [keeps_step |]).
  keeps_step; [keeps_step |].
  keeps_step; [apply generateRequest_keeps |].
  cbv zeta. keeps_step.
  - unfold sendAtomicNocRequest.
    keeps_step; [| apply completeNocRequest_mode].
    repeat keeps_step. mode_issue.
  - unfold schedNocRequest. keeps_step. mode_issue.
Qed.

Lemma completeForwardedSpmRequest_mode (pkt : Packet) (e : Z) :
  keeps (modeAction p) (completeForwardedSpmRequest p env pkt e).
Proof.
  unfold completeForwardedSpmRequest, schedule, schedNocResponse.
  keeps_step; [keeps_step |]. keeps_step.
  - apply incrementWritePtr_keeps.
  - cbv zeta. repeat keeps_step; mode_issue.
Qed.

Lemma completeSpmRequest_mode (pkt : Packet) :
  keeps (modeAction p) (completeSpmRequest p env pkt).
Proof.
  unfold completeSpmRequest.
  do 2 (keeps_step; [keeps_step |]).
  apply keeps_bind; [| intros [pkt' [[e l] f]]].
  - unfold popSpmSenderState. repeat keeps_step.
  - do 2 (keeps_step; [keeps_step |]).
    keeps_step.
    + apply completeLocalSpmRequest_mode.
    + apply completeForwardedSpmRequest_mode.
Qed.

Lemma startMessageTransmission_mode (e : Z) :
  keeps (modeAction p) (startMessageTransmission p env e).
Proof.
  unfold startMessageTransmission.
  do 5 (keeps_step; [keeps_step |]).
  keeps_step; [apply generateRequest_keeps |].
  cbv zeta. keeps_step.
  - unfold sendAtomicSpmRequest.
    keeps_step; [| apply completeSpmRequest_mode].
    repeat keeps_step. mode_issue.
  - unfold schedSpmRequest. keeps_step. mode_issue.
Qed.

Lemma executeCommand_mode : keeps (modeAction p) (executeCommand p env).
Proof.
  unfold executeCommand.
  do 2 (keeps_step; [keeps_step |]).
  repeat keeps_step.
  - unfold startOperation. keeps_step; [keeps_step |].
    repeat keeps_step. apply startMessageTransmission_mode.
  - apply incrementReadPtr_keeps.
Qed.

Lemma recvNocMessage_mode (pkt : Packet) :
  keeps (modeAction p) (recvNocMessage p env pkt).
Proof.
  unfold recvNocMessage. cbv zeta.
  do 4 (keeps_step; [keeps_step |]).
  keeps_step.
  - unfold sendAtomicSpmRequest.
    keeps_step; [| apply completeSpmRequest_mode].
    repeat keeps_step. mode_issue.
  - unfold schedSpmRequest. keeps_step. mode_issue.
Qed.

Lemma handleNocRequest_mode (pkt : Packet) :
  keeps (modeAction p) (handleNocRequest p env pkt).
Proof.
  unfold handleNocRequest.
  do 3 (keeps_step; [keeps_step |]).
  apply keeps_bind; [| intros [pkt' [m r]]].
  - unfold popNocSenderState. repeat keeps_step.
  - do 2 (keeps_step; [keeps_step |]).
    keeps_step.
    + apply recvNocMessage_mode.
    + unfold recvNocMemoryRequest. keeps_step.
Qed.

Lemma handleCpuRequest_mode (pkt : Packet) :
  keeps (modeAction p) (handleCpuRequest p env pkt).
Proof.
  unfold handleCpuRequest. cbv zeta.
  apply keeps_bind; [| intros [pkt' written]].
  - apply keeps_same_issued. intros s.
    destruct (regFileHandleRequest env (regFile s) _) as [[rf pkt''] w].
    reflexivity.
  - unfold schedCpuResponse, schedule.
    destruct (atomicMode p) eqn:Hat; cbn [negb]; cbv iota.
    + keeps_step; [| keeps_step].
      keeps_step; [apply executeCommand_mode | keeps_step].
    + keeps_step; [keeps_step; mode_issue |].
      keeps_step; [| keeps_step].
      keeps_step; [keeps_step; mode_issue | keeps_step].
Qed.

End ModeDiscipline.

(** X21. What each timing mode issues.  If so far the unit has issued, in
    atomic mode, only atomic scratchpad and network accesses and finish
    events, and in timed mode no atomic access, then this is still so
    after any call of an entry point, whether it succeeds or fails and
    whatever the collaborators answer.  In particular an atomic-mode unit
    never schedules a request, a response, a command event or an
    increment event: the finish event is the only thing it schedules. *)
Theorem mode_discipline (p : DtuParams) (env : Collaborators) (s : Dtu)
  (Hs : allOk (modeAction p) s) :
  allOk (modeAction p) (snd (executeCommand p env s))
  /\ (forall pkt, allOk (modeAction p) (snd (handleCpuRequest p env pkt s)))
  /\ (forall pkt, allOk (modeAction p) (snd (handleNocRequest p env pkt s)))
  /\ (forall pkt, allOk (modeAction p) (snd (completeSpmRequest p env pkt s)))
  /\ (forall pkt, allOk (modeAction p) (snd (completeNocRequest env pkt s)))
  /\ (forall e, allOk (modeAction p) (snd (incrementWritePtr p e s)))
  /\ (forall e, allOk (modeAction p) (snd (incrementReadPtr p e s)))
  /\ allOk (modeAction p) (snd (finishMessageTransmission s)).
Proof.
  split; [now apply executeCommand_mode |].
  split; [intros pkt; now apply handleCpuRequest_mode |].
  split; [intros pkt; now apply handleNocRequest_mode |].
  split; [intros pkt; now apply completeSpmRequest_mode |].
  split; [intros pkt; now apply completeNocRequest_mode |].
  split; [intros e; now apply incrementWritePtr_keeps |].
  split; [intros e; now apply incrementReadPtr_keeps |].
  now apply finishMessageTransmission_keeps.
Qed.

Lemma mode_discipline_witness :
  allOk (modeAction (demoParams true)) (demoDtu 33 0)
  /\ allOk (modeAction (demoParams true))
           (snd (executeCommand (demoParams true) demoEnv (demoDtu 33 0))).
Proof.
  assert (H : allOk (modeAction (demoParams true)) (demoDtu 33 0))
    by (unfold allOk; simpl; constructor).
  split; [exact H |].
  exact (proj1 (mode_discipline (demoParams true) demoEnv (demoDtu 33 0) H)).
Defined.
